(** * Chunking engine of [backend/app/services/document_parser.py]

    A shallow embedding of the segmentation pipeline of
    [OptimizedDocumentParser]: the chunk factory ([_create_chunk]), the
    character-window splitter ([_split_by_characters]), the paragraph-aware
    segmenter ([_split_text_with_overlap]), the image distributor
    ([_distribute_images_to_chunks]), the docx and pdf section groupers
    ([_docx_elements_to_chunks], [_elements_to_chunks_optimized]) and the
    format dispatch ([parse]), the directory walk ([parse_directory]), the
    Markdown section splitter ([_split_markdown_optimized]) with its
    heading and image patterns, and the statistics that the endpoint
    [parse_document] computes from the chunks.

    Python values are modelled as follows.
    - [str] is a list of Unicode code points ([pystr]); [len], slicing and
      [text[:100]] therefore count code points, as in Python.
    - [int] is [Z]; list indices and lengths are converted explicitly.
    - a [while] loop takes fuel; running out of fuel is the outcome [Spin].
    - an exception that the source does not catch is the outcome [Raised].
    - the library functions whose tables are not reproduced here ([int] on
      strings, [re.match] on the configured title patterns, [Path.suffix],
      [str.lower], [Path.glob]) are parameters of the definitions that call
      them; [int_ascii], [path_suffix] and [lower_ascii] are the instances
      used for evaluation.  The fixed patterns of the Markdown splitter are
      written out as string functions. *)

From Stdlib Require Import ZArith NArith List String Ascii Bool Lia DecimalString DecimalNat.
From stdpp Require Import base tactics list gmap.
Import ListNotations.

Local Open Scope Z_scope.

(* ===================================================================== *)
(** * Python strings                                                      *)
(* ===================================================================== *)

(** A character is a Unicode code point. *)
Definition char := N.
Definition pystr := list char.

Definition ord (a : ascii) : char := N_of_ascii a.

(** [lit "abc"] is the Python literal ["abc"] (ASCII literals only). *)
Definition lit (s : string) : pystr := map ord (list_ascii_of_string s).

(** [len(s)] as a Python int. *)
Definition len {A} (l : list A) : Z := Z.of_nat (length l).

Definition char_eqb (a b : char) : bool := N.eqb a b.

Fixpoint str_eqb (a b : pystr) : bool :=
  match a, b with
  | [], [] => true
  | x :: a', y :: b' => char_eqb x y && str_eqb a' b'
  | _, _ => false
  end.

(** [str.isspace] on one character: the code points CPython's
    [_PyUnicode_IsWhitespace] accepts. *)
Definition isspace (c : char) : bool :=
  existsb (N.eqb c)
    [9; 10; 11; 12; 13; 28; 29; 30; 31; 32; 133; 160; 5760;
     8192; 8193; 8194; 8195; 8196; 8197; 8198; 8199; 8200; 8201; 8202;
     8232; 8233; 8239; 8287; 12288]%N.

Fixpoint lstrip (s : pystr) : pystr :=
  match s with
  | c :: s' => if isspace c then lstrip s' else s
  | [] => []
  end.

Definition rstrip (s : pystr) : pystr := rev (lstrip (rev s)).

(** [s.strip()] *)
Definition strip (s : pystr) : pystr := rstrip (lstrip s).

Definition newline : char := 10%N.

(** [s.split(sep)] for a one-character separator: never the empty list. *)
Fixpoint split_on (sep : char) (s : pystr) : list pystr :=
  match s with
  | [] => [[]]
  | c :: s' =>
      if char_eqb c sep then [] :: split_on sep s'
      else match split_on sep s' with
           | h :: t => (c :: h) :: t
           | [] => [[c]]
           end
  end.

(** [sep.join(parts)] *)
Fixpoint join (sep : pystr) (parts : list pystr) : pystr :=
  match parts with
  | [] => []
  | [p] => p
  | p :: rest => p ++ sep ++ join sep rest
  end.

(** [s.startswith(p)] *)
Fixpoint startswith (p s : pystr) : bool :=
  match p, s with
  | [], _ => true
  | x :: p', y :: s' => char_eqb x y && startswith p' s'
  | _ :: _, [] => false
  end.

(** [s.endswith(p)] *)
Definition endswith (p s : pystr) : bool := startswith (rev p) (rev s).

(** [sub in s] *)
Fixpoint contains (sub s : pystr) : bool :=
  startswith sub s ||
  match s with
  | [] => false
  | _ :: s' => contains sub s'
  end.

(** [s.find(sub)]: offset of the first occurrence. *)
Fixpoint find (sub s : pystr) : option nat :=
  if startswith sub s then Some 0%nat
  else match s with
       | [] => None
       | _ :: s' => S <$> find sub s'
       end.

(** [s.rfind(c)] for a one-character [c]: the highest index, or [-1]. *)
Fixpoint rfind_from (c : char) (s : pystr) (i : Z) (best : Z) : Z :=
  match s with
  | [] => best
  | x :: s' => rfind_from c s' (i + 1) (if char_eqb x c then i else best)
  end.

Definition rfind (c : char) (s : pystr) : Z := rfind_from c s 0 (-1).

(** [s.replace(old, new)]: every non-overlapping occurrence, leftmost
    first.  [skip] counts the characters of a match still to be dropped. *)
Fixpoint replace_go (old new s : pystr) (skip : nat) : pystr :=
  match s with
  | [] => []
  | c :: s' =>
      match skip with
      | S k => replace_go old new s' k
      | O =>
          if startswith old s
          then new ++ replace_go old new s' (length old - 1)
          else c :: replace_go old new s' 0
      end
  end.

Definition replace (old new s : pystr) : pystr :=
  match old with
  | [] => new ++ concat (map (fun c => c :: new) s)
  | _ :: _ => replace_go old new s 0
  end.

(** A slice bound as Python normalises it against a length. *)
Definition slice_bound (n i : Z) : Z :=
  if i <? 0 then Z.max (i + n) 0 else Z.min i n.

(** [l[lo:hi]] with Python's treatment of negative and oversized bounds. *)
Definition slice {A} (l : list A) (lo hi : Z) : list A :=
  let lo' := slice_bound (len l) lo in
  let hi' := slice_bound (len l) hi in
  take (Z.to_nat (hi' - lo')) (drop (Z.to_nat lo') l).

(** [l[i]]: [None] stands for [IndexError]. *)
Definition index {A} (l : list A) (i : Z) : option A :=
  if i <? 0 then
    (if 0 <=? i + len l then l !! Z.to_nat (i + len l) else None)
  else l !! Z.to_nat i.

(** [str(n)] for a natural number. *)
Definition str_of_nat (n : nat) : pystr :=
  lit (NilZero.string_of_uint (Nat.to_uint n)).

(** The code points that [str.encode()] accepts: all but the surrogates
    U+D800..U+DFFF, on which it raises [UnicodeEncodeError]. *)
Definition scalar_value (c : char) : bool :=
  ((c <? 55296) || ((57343 <? c) && (c <=? 1114111)))%N.

(** [s] holds no lone surrogate: [s.encode()] returns. *)
Definition encodable (s : pystr) : bool := forallb scalar_value s.

(** [s.encode()]: UTF-8, for an [encodable] string.  (On the other strings
    Python raises; the function below is not meant for them.) *)
Definition utf8_char (c : char) : list Z :=
  let z := Z.of_N c in
  if z <? 128 then [z]
  else if z <? 2048 then
    [Z.lor 192 (Z.shiftr z 6); Z.lor 128 (Z.land z 63)]
  else if z <? 65536 then
    [Z.lor 224 (Z.shiftr z 12);
     Z.lor 128 (Z.land (Z.shiftr z 6) 63);
     Z.lor 128 (Z.land z 63)]
  else
    [Z.lor 240 (Z.shiftr z 18);
     Z.lor 128 (Z.land (Z.shiftr z 12) 63);
     Z.lor 128 (Z.land (Z.shiftr z 6) 63);
     Z.lor 128 (Z.land z 63)].

Definition encode (s : pystr) : list Z := concat (map utf8_char s).

(* ===================================================================== *)
(** * [hashlib.md5(...).hexdigest()]  (RFC 1321)                          *)
(* ===================================================================== *)

Module MD5.

Definition w32 (x : Z) : Z := x mod 4294967296.
Definition add32 (x y : Z) : Z := w32 (x + y).
Definition not32 (x : Z) : Z := Z.lxor x 4294967295.
Definition rotl32 (x : Z) (n : Z) : Z :=
  w32 (Z.lor (Z.shiftl x n) (Z.shiftr x (32 - n))).

Definition K : list Z :=
  [3614090360; 3905402710; 606105819; 3250441966;
   4118548399; 1200080426; 2821735955; 4249261313;
   1770035416; 2336552879; 4294925233; 2304563134;
   1804603682; 4254626195; 2792965006; 1236535329;
   4129170786; 3225465664; 643717713; 3921069994;
   3593408605; 38016083; 3634488961; 3889429448;
   568446438; 3275163606; 4107603335; 1163531501;
   2850285829; 4243563512; 1735328473; 2368359562;
   4294588738; 2272392833; 1839030562; 4259657740;
   2763975236; 1272893353; 4139469664; 3200236656;
   681279174; 3936430074; 3572445317; 76029189;
   3654602809; 3873151461; 530742520; 3299628645;
   4096336452; 1126891415; 2878612391; 4237533241;
   1700485571; 2399980690; 4293915773; 2240044497;
   1873313359; 4264355552; 2734768916; 1309151649;
   4149444226; 3174756917; 718787259; 3951481745].

Definition S : list Z :=
  [7; 12; 17; 22; 7; 12; 17; 22; 7; 12; 17; 22; 7; 12; 17; 22;
   5; 9; 14; 20; 5; 9; 14; 20; 5; 9; 14; 20; 5; 9; 14; 20;
   4; 11; 16; 23; 4; 11; 16; 23; 4; 11; 16; 23; 4; 11; 16; 23;
   6; 10; 15; 21; 6; 10; 15; 21; 6; 10; 15; 21; 6; 10; 15; 21].

Record state := St { sa : Z; sb : Z; sc : Z; sd : Z }.

Definition init : state :=
  St 1732584193 4023233417 2562383102 271733878.

(** The sixteen little-endian words of a 64-byte block. *)
Fixpoint words (block : list Z) : list Z :=
  match block with
  | b0 :: b1 :: b2 :: b3 :: rest =>
      (b0 + 256 * b1 + 65536 * b2 + 16777216 * b3) :: words rest
  | _ => []
  end.

Definition round (M : list Z) (st : state) (i : nat) : state :=
  let '(St A B C D) := st in
  let zi := Z.of_nat i in
  let '(F, g) :=
    if zi <? 16 then (Z.lor (Z.land B C) (Z.land (not32 B) D), zi)
    else if zi <? 32 then
      (Z.lor (Z.land D B) (Z.land (not32 D) C), (5 * zi + 1) mod 16)
    else if zi <? 48 then (Z.lxor (Z.lxor B C) D, (3 * zi + 5) mod 16)
    else (Z.lxor C (Z.lor B (not32 D)), (7 * zi) mod 16) in
  let F' := add32 (add32 (add32 F A) (nth i K 0)) (nth (Z.to_nat g) M 0) in
  St D (add32 B (rotl32 F' (nth i S 0))) B C.

Definition compress (st : state) (block : list Z) : state :=
  let '(St A B C D) := fold_left (round (words block)) (seq 0 64) st in
  St (add32 (sa st) A) (add32 (sb st) B) (add32 (sc st) C) (add32 (sd st) D).

(** Feed the padded message, one 64-byte block at a time. *)
Fixpoint absorb (bytes buf : list Z) (st : state) : state :=
  match bytes with
  | [] => st
  | b :: bs =>
      let buf' := buf ++ [b] in
      if (length buf' =? 64)%nat then absorb bs [] (compress st buf')
      else absorb bs buf' st
  end.

Definition le_bytes (n : nat) (x : Z) : list Z :=
  map (fun i => Z.shiftr x (8 * Z.of_nat i) mod 256) (seq 0 n).

Definition pad (msg : list Z) : list Z :=
  let n := len msg in
  let zeros := Z.to_nat ((55 - n) mod 64) in
  msg ++ [128] ++ repeat 0 zeros ++ le_bytes 8 ((8 * n) mod 18446744073709551616).

Definition digest (msg : list Z) : list Z :=
  let '(St A B C D) := absorb (pad msg) [] init in
  le_bytes 4 A ++ le_bytes 4 B ++ le_bytes 4 C ++ le_bytes 4 D.

Definition hexdigits : pystr := lit "0123456789abcdef".

Definition hex_nibble (x : Z) : char := nth (Z.to_nat (x mod 16)) hexdigits 48%N.

Definition hex_byte (b : Z) : pystr := [hex_nibble (b / 16); hex_nibble b].

Definition hexdigest (msg : list Z) : pystr := concat (map hex_byte (digest msg)).

End MD5.

(* ===================================================================== *)
(** * Binary64 arithmetic of [max_chunk_size * 0.7]                       *)
(* ===================================================================== *)

(** A float is [m * 2^e].  [fl_round] rounds to a 53-bit significand, to
    nearest, ties to even; the exponent is unbounded, which agrees with
    binary64 as long as the rounded magnitude stays below [2^1024]. *)
Definition fl_round (m e : Z) : Z * Z :=
  let a := Z.abs m in
  let bits := if a =? 0 then 0 else Z.log2 a + 1 in
  if bits <=? 53 then (m, e)
  else
    let sh := bits - 53 in
    let q := Z.shiftr a sh in
    let r := a mod 2 ^ sh in
    let half := 2 ^ (sh - 1) in
    let q' := if (half <? r) || ((r =? half) && Z.odd q) then q + 1 else q in
    (Z.sgn m * q', e + sh).

(** The ints that [float()] accepts: those whose nearest double is finite,
    [|n| < 2^1024 - 2^970].  On the others the conversion, and with it
    [n * 0.7], raises [OverflowError]. *)
Definition float_accepts (n : Z) : bool := Z.abs n <? 2 ^ 1024 - 2 ^ 970.

(** [n * 0.7], that is [float(n) * 0.7], for an int that [float_accepts];
    the double nearest to 0.7 is [6305039478318694 * 2^-53]. *)
Definition times_0_7 (n : Z) : Z * Z :=
  let '(m, e) := fl_round n 0 in
  fl_round (m * 6305039478318694) (e - 53).

(** [i > f] for a Python int [i] and a float [f] (CPython compares exactly). *)
Definition int_gt_float (i : Z) (f : Z * Z) : bool :=
  let '(m, e) := f in
  if 0 <=? e then m * 2 ^ e <? i else m <? i * 2 ^ (- e).

(* ===================================================================== *)
(** * Outcomes of a call                                                  *)
(* ===================================================================== *)

Inductive exn :=
  | IndexError
  | ValueError (msg : pystr).

(** [Done v]: the call returns [v]; [Raised e]: it raises [e]; [Spin]: the
    fuel given to a [while] loop ran out. *)
Inductive outcome (A : Type) :=
  | Done (a : A)
  | Raised (e : exn)
  | Spin.
Arguments Done {A} a.
Arguments Raised {A} e.
Arguments Spin {A}.

#[global] Instance outcome_bind : MBind outcome :=
  fun A B (k : A -> outcome B) (x : outcome A) =>
    match x with
    | Done a => k a
    | Raised e => Raised e
    | Spin => Spin
    end.

(* ===================================================================== *)
(** * Data model                                                          *)
(* ===================================================================== *)

(** The three keys [_create_chunk] puts in [metadata]. *)
Record Metadata := {
  has_images : bool;
  image_count : Z;
  text_length : Z;
}.

Record DocumentChunk := {
  chunk_id : pystr;
  text : pystr;
  source_file : pystr;
  section : pystr;
  page_number : Z;
  images : list pystr;
  metadata : Metadata;
}.

Record ChunkingConfig := {
  max_chunk_size : Z;
  min_chunk_size : Z;
  chunk_overlap : Z;
  split_by_title : bool;
  split_by_paragraph : bool;
  force_max_size : bool;
  title_patterns : list pystr;
  distribute_images_evenly : bool;
}.

(* ===================================================================== *)
(** * Chunk factory                                                       *)
(* ===================================================================== *)

(** The string whose digest names a chunk:
    [f"{source_file}:{section}:{text[:100]}"]. *)
Definition chunk_key (source_file section text : pystr) : pystr :=
  source_file ++ lit ":" ++ section ++ lit ":" ++ slice text 0 100.

Definition _create_chunk (text source_file section : pystr)
    (images : list pystr) (page_number : Z) : DocumentChunk :=
  let chunk_id :=
    slice (MD5.hexdigest (encode (chunk_key source_file section text))) 0 12 in
  {| chunk_id := chunk_id;
     text := text;
     source_file := source_file;
     section := section;
     page_number := page_number;
     images := images;
     metadata := {| has_images := 0 <? len images;
                    image_count := len images;
                    text_length := len text |} |}.

(* ===================================================================== *)
(** * Character-window splitting                                          *)
(* ===================================================================== *)

(** [["。", "！", "？", ".", "!", "?"]] *)
Definition sentence_seps : list char :=
  [12290; 65281; 65311; 46; 33; 63]%N.

(** The [for sep in ...] loop: the first separator whose last occurrence
    in the window lies beyond 70% of [max_chunk_size] decides the cut. *)
Fixpoint cut_at_sentence (seps : list char) (window : pystr)
    (threshold : Z * Z) (start end_ : Z) : Z :=
  match seps with
  | [] => end_
  | sep :: rest =>
      let last_sep := rfind sep window in
      if int_gt_float last_sep threshold then start + last_sep + 1
      else cut_at_sentence rest window threshold start end_
  end.

(** The right edge of the window that starts at [start]. *)
Definition window_end (config : ChunkingConfig) (text : pystr) (start : Z) : Z :=
  let text_length := len text in
  let end_ := Z.min (start + max_chunk_size config) text_length in
  if end_ <? text_length then
    cut_at_sentence sentence_seps (slice text start end_)
      (times_0_7 (max_chunk_size config)) start end_
  else end_.

(** The start of the next window. *)
Definition next_start (config : ChunkingConfig) (text : pystr) (start end_ : Z) : Z :=
  if (0 <? chunk_overlap config) && (end_ <? len text)
  then Z.max (start + 1) (end_ - chunk_overlap config)
  else end_.

(** One iteration of the [while] body. *)
Definition char_step (config : ChunkingConfig)
    (text source_file section : pystr) (images : list pystr) (page_number : Z)
    (start : Z) (chunks : list DocumentChunk) : Z * list DocumentChunk :=
  let end_ := window_end config text start in
  let chunk_text := strip (slice text start end_) in
  let chunks' :=
    match chunk_text with
    | [] => chunks
    | _ :: _ =>
        chunks ++ [_create_chunk chunk_text source_file section
                     (match chunks with [] => images | _ :: _ => [] end)
                     page_number]
    end in
  (next_start config text start end_, chunks').

(** [while start < text_length: ...] *)
Fixpoint char_loop (fuel : nat) (config : ChunkingConfig)
    (text source_file section : pystr) (images : list pystr) (page_number : Z)
    (start : Z) (chunks : list DocumentChunk) : outcome (list DocumentChunk) :=
  if start <? len text then
    match fuel with
    | O => Spin
    | S fuel' =>
        let '(start', chunks') :=
          char_step config text source_file section images page_number start chunks in
        char_loop fuel' config text source_file section images page_number start' chunks'
    end
  else Done chunks.

Definition _split_by_characters (fuel : nat) (config : ChunkingConfig)
    (text source_file section : pystr) (images : list pystr) (page_number : Z)
    : outcome (list DocumentChunk) :=
  char_loop fuel config text source_file section images page_number 0 [].

(* ===================================================================== *)
(** * Fenced code blocks                                                  *)
(* ===================================================================== *)

Definition fence : pystr := lit "```".

(** [f"__CODE_BLOCK_{i}__"] *)
Definition code_placeholder (i : nat) : pystr :=
  lit "__CODE_BLOCK_" ++ str_of_nat i ++ lit "__".

(** Length of the match of [```[\s\S]*?```] anchored at the head of [s]:
    an opening fence and the nearest closing fence after it. *)
Definition fence_match (s : pystr) : option nat :=
  if startswith fence s then
    k ← find fence (drop 3 s); Some (3 + k + 3)%nat
  else None.

(** [re.sub(code_block_pattern, protect_code_block, text)]: the protected
    text and the list [code_blocks], scanning left to right; [n] blocks
    were found so far and [skip] characters of the current match remain. *)
Fixpoint protect_go (s : pystr) (skip n : nat) : pystr * list pystr :=
  match s with
  | [] => ([], [])
  | c :: s' =>
      match skip with
      | S k => protect_go s' k n
      | O =>
          match fence_match s with
          | Some m =>
              let '(out, blocks) := protect_go s' (m - 1) (S n) in
              (code_placeholder n ++ out, take m s :: blocks)
          | None =>
              let '(out, blocks) := protect_go s' 0 n in
              (c :: out, blocks)
          end
      end
  end.

Definition protect_code_blocks (text : pystr) : pystr * list pystr :=
  protect_go text 0 0.

(** [restore_code_blocks]: one [str.replace] per block, in list order. *)
Fixpoint restore_from (i : nat) (code_blocks : list pystr) (t : pystr) : pystr :=
  match code_blocks with
  | [] => t
  | code_block :: rest =>
      restore_from (S i) rest (replace (code_placeholder i) code_block t)
  end.

Definition restore_code_blocks (code_blocks : list pystr) (t : pystr) : pystr :=
  restore_from 0 code_blocks t.

(* ===================================================================== *)
(** * Paragraph-aware segmentation                                        *)
(* ===================================================================== *)

Definition is_nonempty {A} (l : list A) : bool :=
  match l with [] => false | _ :: _ => true end.

(** [para.startswith("__CODE_BLOCK_") and para.endswith("__")] *)
Definition is_code_placeholder (para : pystr) : bool :=
  startswith (lit "__CODE_BLOCK_") para && endswith (lit "__") para.

(** A decimal parser for ASCII input, an instance of [int(s)]: blanks
    around, one optional sign, digits with single underscores between
    them.  [None] stands for [ValueError]. *)
Definition is_digit (c : char) : bool := (48 <=? c)%N && (c <=? 57)%N.

Fixpoint digits_value (s : pystr) (acc : Z) (after_digit : bool) : option Z :=
  match s with
  | [] => if after_digit then Some acc else None
  | c :: s' =>
      if is_digit c then digits_value s' (10 * acc + (Z.of_N c - 48)) true
      else if char_eqb c 95%N && after_digit then digits_value s' acc false
      else None
  end.

Definition int_ascii (s : pystr) : option Z :=
  match strip s with
  | 43%N :: r => digits_value r 0 false
  | 45%N :: r => Z.opp <$> digits_value r 0 false
  | r => digits_value r 0 false
  end.

Section Segmenter.

(** [int(s)] of the Python runtime; [None] stands for [ValueError]. *)
Variable py_int : pystr -> option Z.

Variable config : ChunkingConfig.
Variables (source_file section_name : pystr) (page : Z).

(** [actual_para_len]: the length of the block a placeholder stands
    for, when its index parses and is below [len(code_blocks)]. *)
Definition actual_len (code_blocks : list pystr) (para : pystr) : outcome Z :=
  let para_len := len para in
  if is_code_placeholder para then
    match py_int (replace (lit "__") [] (replace (lit "__CODE_BLOCK_") [] para)) with
    | Some idx =>
        if idx <? len code_blocks then
          match index code_blocks idx with
          | Some code_block => Done (len code_block)
          | None => Raised IndexError
          end
        else Done para_len
    | None => Done para_len
    end
  else Done para_len.

(** [if current_chunk_text: chunks.append(self._create_chunk(...))] *)
Definition flush (code_blocks : list pystr) (images : list pystr)
    (chunks : list DocumentChunk) (current_chunk_text : list pystr)
    : list DocumentChunk :=
  match current_chunk_text with
  | [] => chunks
  | _ :: _ =>
      let chunk_text :=
        restore_code_blocks code_blocks (join [newline] current_chunk_text) in
      chunks ++ [_create_chunk chunk_text source_file section_name
                   (match chunks with [] => images | _ :: _ => [] end) page]
  end.

(** The loop state: [chunks], [current_chunk_text], [current_length]. *)
Definition seg_state : Type := list DocumentChunk * list pystr * Z.

(** The body of [for para in paragraphs]. *)
Definition para_step (fuel : nat) (code_blocks images : list pystr)
    (st : seg_state) (para : pystr) : outcome seg_state :=
  let '(chunks, current_chunk_text, current_length) := st in
  actual_para_len ← actual_len code_blocks para;
  if (max_chunk_size config <? actual_para_len)
     && negb (is_code_placeholder para) then
    let chunks1 := flush code_blocks images chunks current_chunk_text in
    let current_length1 :=
      if is_nonempty current_chunk_text then 0 else current_length in
    let restored_para := restore_code_blocks code_blocks para in
    sub_chunks ← _split_by_characters fuel config restored_para
                    source_file section_name [] page;
    Done (chunks1 ++ sub_chunks, [], current_length1)
  else if max_chunk_size config <? current_length + actual_para_len then
    let chunks1 := flush code_blocks images chunks current_chunk_text in
    match (if (0 <? chunk_overlap config) && negb (is_code_placeholder para)
           then last current_chunk_text else None) with
    | Some overlap_text =>
        Done (chunks1, [overlap_text; para], len overlap_text + actual_para_len)
    | None => Done (chunks1, [para], actual_para_len)
    end
  else
    Done (chunks, current_chunk_text ++ [para], current_length + actual_para_len).

Fixpoint para_loop (fuel : nat) (code_blocks images : list pystr)
    (paragraphs : list pystr) (st : seg_state) : outcome seg_state :=
  match paragraphs with
  | [] => Done st
  | para :: rest =>
      st' ← para_step fuel code_blocks images st para;
      para_loop fuel code_blocks images rest st'
  end.

(** [[p.strip() for p in protected_text.split("\n") if p.strip()]] *)
Definition paragraphs_of (protected_text : pystr) : list pystr :=
  List.filter is_nonempty (map strip (split_on newline protected_text)).

Definition _split_text_with_overlap (fuel : nat) (text : pystr)
    (images : list pystr) : outcome (list DocumentChunk) :=
  let '(protected_text, code_blocks) := protect_code_blocks text in
  if len text <=? max_chunk_size config then
    Done [_create_chunk text source_file section_name images page]
  else if split_by_paragraph config then
    st ← para_loop fuel code_blocks images (paragraphs_of protected_text) ([], [], 0);
    let '(chunks, current_chunk_text, _) := st in
    Done (flush code_blocks images chunks current_chunk_text)
  else
    _split_by_characters fuel config text source_file section_name images page.

End Segmenter.

(* ===================================================================== *)
(** * Image distributor                                                   *)
(* ===================================================================== *)

(** [chunk.images = imgs] followed by the two metadata assignments. *)
Definition assign_images (chunk : DocumentChunk) (imgs : list pystr)
    (has : bool) : DocumentChunk :=
  {| chunk_id := chunk_id chunk;
     text := text chunk;
     source_file := source_file chunk;
     section := section chunk;
     page_number := page_number chunk;
     images := imgs;
     metadata := {| has_images := has;
                    image_count := len imgs;
                    text_length := text_length (metadata chunk) |} |}.

(** The slice [images[start_idx:end_idx]] that chunk [i] of [n] receives. *)
Definition even_slice (images : list pystr) (n : Z) (i : nat) : list pystr :=
  let images_per_chunk := Z.max 1 (len images / n) in
  let start_idx := Z.of_nat i * images_per_chunk in
  let end_idx :=
    if Z.of_nat i =? n - 1 then len images else start_idx + images_per_chunk in
  slice images start_idx end_idx.

Definition _distribute_images_to_chunks (config : ChunkingConfig)
    (chunks : list DocumentChunk) (images : list pystr) : list DocumentChunk :=
  match images, chunks with
  | [], _ => chunks
  | _, [] => chunks
  | _ :: _, first :: rest =>
      if distribute_images_evenly config then
        imap (fun i chunk =>
                let imgs := even_slice images (len chunks) i in
                assign_images chunk imgs (0 <? len imgs))
             chunks
      else assign_images first images true :: rest
  end.

(* ===================================================================== *)
(** * Docx section grouper                                                *)
(* ===================================================================== *)

(** An entry of [elements]: [{"type": ..., "text": ..., "images": ...}]. *)
Record Element := {
  elem_type : pystr;
  elem_text : pystr;
  elem_images : list pystr;
}.

(** [section_data]: [{"section": ..., "texts": ..., "images": ..., "page": ...}]. *)
Record SectionData := {
  sec_section : pystr;
  sec_texts : list pystr;
  sec_images : list pystr;
  sec_page : Z;
}.

(** [f"[IMG:{img_path}]"] *)
Definition img_placeholder (img_path : pystr) : pystr :=
  lit "[IMG:" ++ img_path ++ lit "]".

(** ["文档开始"] and ["文档内容"] *)
Definition section_start : pystr := [25991; 26723; 24320; 22987]%N.
Definition section_content : pystr := [25991; 26723; 20869; 23481]%N.

Section Docx.

Variable py_int : pystr -> option Z.
(** [re.match(pattern, s)] as a truth value. *)
Variable re_match : pystr -> pystr -> bool.
Variable config : ChunkingConfig.

Definition _is_custom_title (text : pystr) : bool :=
  existsb (fun pattern => re_match pattern (strip text)) (title_patterns config).

Definition new_section (title : pystr) : SectionData :=
  {| sec_section := title; sec_texts := []; sec_images := []; sec_page := 0 |}.

(** The [for img_path in images] loop of the [else] branch. *)
Definition add_images (sd : SectionData) (imgs : list pystr) : SectionData :=
  fold_left
    (fun sd img_path =>
       {| sec_section := sec_section sd;
          sec_texts := sec_texts sd ++ [img_placeholder img_path];
          sec_images := sec_images sd ++ [img_path];
          sec_page := sec_page sd |})
    imgs sd.

Definition add_text (sd : SectionData) (t : pystr) : SectionData :=
  {| sec_section := sec_section sd;
     sec_texts := sec_texts sd ++ [t];
     sec_images := sec_images sd;
     sec_page := sec_page sd |}.

(** [if section_data["texts"] or section_data["images"]: sections.append(...)] *)
Definition save_section (sections : list SectionData) (sd : SectionData)
    : list SectionData :=
  if is_nonempty (sec_texts sd) || is_nonempty (sec_images sd)
  then sections ++ [sd] else sections.

(** The body of [for elem in elements]. *)
Definition group_step (st : list SectionData * SectionData) (elem : Element)
    : list SectionData * SectionData :=
  let '(sections, section_data) := st in
  let t := elem_text elem in
  let is_title :=
    str_eqb (elem_type elem) (lit "heading")
    || (is_nonempty t && split_by_title config && _is_custom_title t) in
  if is_title && is_nonempty t then
    (save_section sections section_data, new_section t)
  else
    let sd1 := if is_nonempty t then add_text section_data t else section_data in
    (sections, add_images sd1 (elem_images elem)).

Definition group_sections (elements : list Element) : list SectionData :=
  let '(sections, section_data) :=
    fold_left group_step elements ([], new_section section_start) in
  match save_section sections section_data with
  | [] =>
      [ {| sec_section := section_content;
           sec_texts := List.filter is_nonempty (map elem_text elements);
           sec_images := concat (map elem_images elements);
           sec_page := 0 |} ]
  | sections' => sections'
  end.

(** The body of [for section_info in sections]. *)
Definition section_chunks (fuel : nat) (source_file : pystr)
    (section_info : SectionData) : outcome (list DocumentChunk) :=
  let section_text := join [newline] (sec_texts section_info) in
  let section_images := sec_images section_info in
  if max_chunk_size config <? len section_text then
    _split_text_with_overlap py_int config source_file
      (sec_section section_info) (sec_page section_info)
      fuel section_text section_images
  else if is_nonempty (strip section_text) then
    Done [_create_chunk section_text source_file (sec_section section_info)
            section_images (sec_page section_info)]
  else Done [].

Fixpoint sections_to_chunks (fuel : nat) (source_file : pystr)
    (sections : list SectionData) (chunks : list DocumentChunk)
    : outcome (list DocumentChunk) :=
  match sections with
  | [] => Done chunks
  | section_info :: rest =>
      sub_chunks ← section_chunks fuel source_file section_info;
      sections_to_chunks fuel source_file rest (chunks ++ sub_chunks)
  end.

Definition _docx_elements_to_chunks (fuel : nat) (elements : list Element)
    (source_file : pystr) : outcome (list DocumentChunk) :=
  sections_to_chunks fuel source_file (group_sections elements) [].

End Docx.

(* ===================================================================== *)
(** * Pdf section grouper                                                 *)
(* ===================================================================== *)

(** A block of the layout partitioner: [element.category], [element.text]
    ([None] when absent) and [element.metadata.page_number] ([None] when
    the attribute is absent or holds [None]). *)
Record PdfElement := {
  category : pystr;
  block_text : option pystr;
  block_page : option Z;
}.

(** [element.text.strip() if element.text else ""] *)
Definition stripped_text (element : PdfElement) : pystr :=
  match block_text element with
  | Some (c :: s) => strip (c :: s)
  | _ => []
  end.

(** [_get_page_number]: [element.metadata.page_number or 0]. *)
Definition _get_page_number (element : PdfElement) : Z :=
  default 0 (block_page element).

Section Pdf.

Variable py_int : pystr -> option Z.
Variable re_match : pystr -> pystr -> bool.
Variable config : ChunkingConfig.

(** The state of the first pass: [sections], [section_data], [image_index]. *)
Definition pdf_state : Type := list SectionData * SectionData * nat.

(** [if section_data["texts"]: sections.append(section_data)] *)
Definition save_text_section (sections : list SectionData) (sd : SectionData)
    : list SectionData :=
  if is_nonempty (sec_texts sd) then sections ++ [sd] else sections.

(** The body of [for element in elements]. *)
Definition pdf_step (extracted_images : list pystr) (st : pdf_state)
    (element : PdfElement) : pdf_state :=
  let '(sections, section_data, image_index) := st in
  let t := stripped_text element in
  if str_eqb (category element) (lit "Image") then
    match extracted_images !! image_index with
    | Some img_path =>
        (sections, add_images section_data [img_path], S image_index)
    | None => st
    end
  else
    let is_title :=
      str_eqb (category element) (lit "Title")
      || str_eqb (category element) (lit "Header")
      || (is_nonempty t && split_by_title config
          && _is_custom_title re_match config t) in
    if is_title && is_nonempty t then
      (save_text_section sections section_data,
       {| sec_section := t; sec_texts := []; sec_images := [];
          sec_page := _get_page_number element |},
       image_index)
    else if is_nonempty t then (sections, add_text section_data t, image_index)
    else st.

Definition _elements_to_chunks_optimized (fuel : nat) (elements : list PdfElement)
    (source_file : pystr) (extracted_images : list pystr)
    : outcome (list DocumentChunk) :=
  let '(sections0, section_data, image_index) :=
    fold_left (pdf_step extracted_images) elements
      ([], new_section section_start, 0%nat) in
  let sections :=
    match save_text_section sections0 section_data with
    | [] =>
        [ {| sec_section := section_content;
             sec_texts :=
               map stripped_text
                 (List.filter
                    (fun e => is_nonempty (default [] (block_text e))
                              && negb (str_eqb (category e) (lit "Image")))
                    elements);
             sec_images := extracted_images;
             sec_page := 0 |} ]
    | sections' => sections'
    end in
  let remaining_images := drop image_index extracted_images in
  chunks ← sections_to_chunks py_int config fuel source_file sections [];
  if is_nonempty remaining_images && is_nonempty chunks
  then Done (_distribute_images_to_chunks config chunks remaining_images)
  else Done chunks.

End Pdf.

(* ===================================================================== *)
(** * Markdown adapter                                                    *)
(* ===================================================================== *)

(** The characters of [s] before the first [stop] (all of [s] without one):
    what [[^x]*] matches at the head of [s]. *)
Fixpoint take_until (stop : char) (s : pystr) : pystr :=
  match s with
  | [] => []
  | c :: s' => if char_eqb c stop then [] else c :: take_until stop s'
  end.

(** The number of leading [#]. *)
Fixpoint count_hashes (s : pystr) : nat :=
  match s with
  | c :: s' => if char_eqb c 35%N then S (count_hashes s') else O
  | [] => O
  end.

(** The number of leading white-space characters: what [\s*] matches. *)
Fixpoint count_spaces (s : pystr) : nat :=
  match s with
  | c :: s' => if isspace c then S (count_spaces s') else O
  | [] => O
  end.

(** [\s+.+$] after the hashes, by backtracking: [\s+] takes [j] characters
    of the white-space run, [j] from the whole run down to one, and [.+]
    needs a character that is not a newline right after them; it then runs
    to the end of the line.  The length matched. *)
Fixpoint heading_tail (j : nat) (after : pystr) : option nat :=
  match j with
  | O => None
  | S j' =>
      match drop j after with
      | c :: rest =>
          if char_eqb c newline then heading_tail j' after
          else Some (j + length (take_until newline (c :: rest)))%nat
      | [] => heading_tail j' after
      end
  end.

(** Length of the match of [^#{1,3}\s+.+$] at a line start [s]. *)
Definition heading_match (s : pystr) : option nat :=
  let h := count_hashes s in
  if (1 <=? h)%nat && (h <=? 3)%nat then
    m ← heading_tail (count_spaces (drop h s)) (drop h s); Some (h + m)%nat
  else None.

(** [re.split(r"(^#{1,3}\s+.+$)", s, flags=re.MULTILINE)]: the texts
    between the matches with the matches themselves in between.  [bol]
    tells that [s] starts a line; [skip] characters of the current match
    remain. *)
Fixpoint split_sections_go (s : pystr) (bol : bool) (skip : nat) : list pystr :=
  match s with
  | [] => [[]]
  | c :: s' =>
      match skip with
      | S k => split_sections_go s' (char_eqb c newline) k
      | O =>
          match (if bol then heading_match s else None) with
          | Some m =>
              [] :: take m s :: split_sections_go s' (char_eqb c newline) (m - 1)
          | None =>
              match split_sections_go s' (char_eqb c newline) 0 with
              | h :: t => (c :: h) :: t
              | [] => [[c]]
              end
          end
      end
  end.

Definition split_sections (s : pystr) : list pystr := split_sections_go s true 0.

(** [re.match(r"^#{1,3}\s+", part)] as a truth value. *)
Definition is_heading (part : pystr) : bool :=
  let h := count_hashes part in
  (1 <=? h)%nat && (h <=? 3)%nat
  && match drop h part with c :: _ => isspace c | [] => false end.

(** [re.sub(r"^#+\s*", "", part)] *)
Definition heading_title (part : pystr) : pystr :=
  match count_hashes part with
  | O => part
  | h => lstrip (drop h part)
  end.

(** The match of the image pattern at the head of [s]: ["!["], the
    alternative text (any characters but ["]"]), ["]("], the path (one or
    more characters but [")"]) and [")"].  The alternative text, the path
    and the length matched. *)
Definition img_ref_match (s : pystr) : option (pystr * pystr * nat) :=
  match s with
  | 33%N :: 91%N :: s1 =>
      let alt := take_until 93%N s1 in
      match drop (length alt) s1 with
      | 93%N :: 40%N :: s2 =>
          let path := take_until 41%N s2 in
          match path, drop (length path) s2 with
          | _ :: _, 41%N :: _ => Some (alt, path, (length alt + length path + 5)%nat)
          | _, _ => None
          end
      | _ => None
      end
  | _ => None
  end.

(** [re.findall] of the image pattern with the path as its only group:
    the paths of the matches, leftmost first, not overlapping. *)
Fixpoint img_refs_go (s : pystr) (skip : nat) : list pystr :=
  match s with
  | [] => []
  | _ :: s' =>
      match skip with
      | S k => img_refs_go s' k
      | O =>
          match img_ref_match s with
          | Some (_, path, m) => path :: img_refs_go s' (m - 1)
          | None => img_refs_go s' 0
          end
      end
  end.

Definition img_refs (s : pystr) : list pystr := img_refs_go s 0.

(** ["[图片: " + alt + "]"] *)
Definition img_label (alt : pystr) : pystr :=
  [91; 22270; 29255; 58; 32]%N ++ alt ++ [93%N].

(** [re.sub] of the image pattern by [img_label] of its alternative text. *)
Fixpoint clean_img_refs_go (s : pystr) (skip : nat) : pystr :=
  match s with
  | [] => []
  | c :: s' =>
      match skip with
      | S k => clean_img_refs_go s' k
      | O =>
          match img_ref_match s with
          | Some (alt, _, m) => img_label alt ++ clean_img_refs_go s' (m - 1)
          | None => c :: clean_img_refs_go s' 0
          end
      end
  end.

Definition clean_img_refs (s : pystr) : pystr := clean_img_refs_go s 0.

Section Markdown.

Variable py_int : pystr -> option Z.
Variable config : ChunkingConfig.

(** The loop state: [chunks], [current_section], [current_text],
    [current_images]. *)
Definition md_state : Type := list DocumentChunk * pystr * list pystr * list pystr.

(** The [for img_ref in img_refs] loop: the mapped path of a reference
    joins [current_images] unless it is there already. *)
Definition collect_images (image_map : gmap pystr pystr)
    (current_images refs : list pystr) : list pystr :=
  fold_left
    (fun current_images img_ref =>
       match image_map !! img_ref with
       | Some full_path =>
           if existsb (str_eqb full_path) current_images then current_images
           else current_images ++ [full_path]
       | None => current_images
       end)
    refs current_images.

(** [if current_text: ... chunks.extend(sub_chunks)]: the chunks with those
    of the section that ends. *)
Definition md_save (fuel : nat) (source_file : pystr) (code_blocks : list pystr)
    (chunks : list DocumentChunk) (current_section : pystr)
    (current_text current_images : list pystr) : outcome (list DocumentChunk) :=
  match current_text with
  | [] => Done chunks
  | _ :: _ =>
      let text := restore_code_blocks code_blocks (join [newline] current_text) in
      sub_chunks ← _split_text_with_overlap py_int config source_file
                      current_section 0 fuel text current_images;
      Done (chunks ++ sub_chunks)
  end.

(** The body of [for part in parts]. *)
Definition md_step (fuel : nat) (source_file : pystr)
    (image_map : gmap pystr pystr) (code_blocks : list pystr)
    (st : md_state) (part0 : pystr) : outcome md_state :=
  let '(chunks, current_section, current_text, current_images) := st in
  let part := strip part0 in
  if negb (is_nonempty part) then Done st
  else if is_heading part then
    chunks1 ← md_save fuel source_file code_blocks chunks current_section
                 current_text current_images;
    Done (chunks1, heading_title part, [],
          if is_nonempty current_text then [] else current_images)
  else
    let restored_part := restore_code_blocks code_blocks part in
    let current_images1 :=
      collect_images image_map current_images (img_refs restored_part) in
    let clean_text := clean_img_refs restored_part in
    Done (chunks, current_section,
          (if is_nonempty (strip clean_text) then current_text ++ [clean_text]
           else current_text),
          current_images1).

Fixpoint md_loop (fuel : nat) (source_file : pystr)
    (image_map : gmap pystr pystr) (code_blocks : list pystr)
    (parts : list pystr) (st : md_state) : outcome md_state :=
  match parts with
  | [] => Done st
  | part :: rest =>
      st' ← md_step fuel source_file image_map code_blocks st part;
      md_loop fuel source_file image_map code_blocks rest st'
  end.

Definition _split_markdown_optimized (fuel : nat) (content source_file : pystr)
    (image_map : gmap pystr pystr) : outcome (list DocumentChunk) :=
  let '(protected_content, code_blocks) := protect_code_blocks content in
  let parts := split_sections protected_content in
  st ← md_loop fuel source_file image_map code_blocks parts
         ([], section_start, [], []);
  let '(chunks, current_section, current_text, current_images) := st in
  md_save fuel source_file code_blocks chunks current_section
    current_text current_images.

End Markdown.

(* ===================================================================== *)
(** * Format dispatch                                                     *)
(* ===================================================================== *)

(** [PurePath.name]: the last component, empty and ["."] components dropped. *)
Definition path_name (p : pystr) : pystr :=
  default []
    (last (List.filter (fun comp => is_nonempty comp && negb (str_eqb comp (lit ".")))
             (split_on 47%N p))).

(** [PurePath.suffix]: from the last dot of the name, unless that dot is
    its first or last character. *)
Definition path_suffix (p : pystr) : pystr :=
  let name := path_name p in
  let i := rfind 46%N name in
  if (0 <? i) && (i <? len name - 1) then slice name i (len name) else [].

(** [str.lower] on ASCII letters. *)
Definition lower_ascii (s : pystr) : pystr :=
  map (fun c => if (65 <=? c)%N && (c <=? 90)%N then (c + 32)%N else c) s.

(** ["不支持的文件格式: "] *)
Definition unsupported_msg : pystr :=
  [19981; 25903; 25345; 30340; 25991; 20214; 26684; 24335; 58; 32]%N.

Section Dispatch.

(** The file system together with the record of the accesses made to
    it: whatever a format adapter reads or writes shows in its world. *)
Variable world : Type.

(** [Path(file_path).suffix] and [str.lower] of the Python runtime. *)
Variable suffix_of : pystr -> pystr.
Variable lower : pystr -> pystr.

(** The three format adapters. *)
Variables _parse_docx _parse_markdown _parse_pdf :
  pystr -> world -> outcome (list DocumentChunk) * world.

Definition parse (file_path : pystr) (w : world)
    : outcome (list DocumentChunk) * world :=
  let suffix := lower (suffix_of file_path) in
  if str_eqb suffix (lit ".docx") then _parse_docx file_path w
  else if str_eqb suffix (lit ".md") then _parse_markdown file_path w
  else if str_eqb suffix (lit ".pdf") then _parse_pdf file_path w
  else (Raised (ValueError (unsupported_msg ++ suffix)), w).

End Dispatch.

(* ===================================================================== *)
(** * Directory walk                                                      *)
(* ===================================================================== *)

Section Directory.

Variable world : Type.
Variable suffix_of : pystr -> pystr.
Variable lower : pystr -> pystr.
Variables _parse_docx _parse_markdown _parse_pdf :
  pystr -> world -> outcome (list DocumentChunk) * world.

(** [Path(dir_path).glob(pattern)], run to its end in a given world: the
    paths found, or the exception it raises (a [ValueError] for an invalid
    pattern such as ["***"]).  The directory is listed when the [for]
    statement starts, outside the [try]. *)
Variable glob : pystr -> pystr -> world -> outcome (list pystr).

(** The inner loop: [try: chunks = self.parse(...); all_chunks.extend(chunks)
    except Exception: ...] for each file. *)
Fixpoint parse_files (files : list pystr) (all_chunks : list DocumentChunk)
    (w : world) : outcome (list DocumentChunk) * world :=
  match files with
  | [] => (Done all_chunks, w)
  | file_path :: rest =>
      match parse world suffix_of lower _parse_docx _parse_markdown _parse_pdf
              file_path w with
      | (Done chunks, w') => parse_files rest (all_chunks ++ chunks) w'
      | (Raised _, w') => parse_files rest all_chunks w'
      | (Spin, w') => (Spin, w')
      end
  end.

(** [for ext in extensions: for file_path in dir_path.glob(f"*{ext}"): ...] *)
Fixpoint parse_extensions (dir_path : pystr) (extensions : list pystr)
    (all_chunks : list DocumentChunk) (w : world)
    : outcome (list DocumentChunk) * world :=
  match extensions with
  | [] => (Done all_chunks, w)
  | ext :: rest =>
      match glob dir_path (lit "*" ++ ext) w with
      | Done files =>
          match parse_files files all_chunks w with
          | (Done all_chunks', w') => parse_extensions dir_path rest all_chunks' w'
          | r => r
          end
      | Raised e => (Raised e, w)
      | Spin => (Spin, w)
      end
  end.

(** [extensions=None] stands for [[".docx", ".md"]]. *)
Definition parse_directory (dir_path : pystr) (extensions : option (list pystr))
    (w : world) : outcome (list DocumentChunk) * world :=
  parse_extensions dir_path (default [lit ".docx"; lit ".md"] extensions) [] w.

End Directory.

(* ===================================================================== *)
(** * Statistics of a parse ([api/endpoints/documents.py])                *)
(* ===================================================================== *)

(** [sum(...)] *)
Definition py_sum (l : list Z) : Z := fold_left Z.add l 0.

(** [max(...)] and [min(...)] of an iterable that is not empty; [None]
    stands for the [ValueError] on an empty one. *)
Definition py_max (l : list Z) : option Z :=
  match l with
  | [] => None
  | x :: rest => Some (fold_left (fun m y => if m <? y then y else m) rest x)
  end.

Definition py_min (l : list Z) : option Z :=
  match l with
  | [] => None
  | x :: rest => Some (fold_left (fun m y => if y <? m then y else m) rest x)
  end.

(** The [statistics] dictionary of [parse_document]. *)
Record Statistics := {
  total_chunks : Z;
  chunks_with_images : Z;
  total_images : Z;
  avg_chunk_size : Z;
  stat_max_chunk_size : Z;
  stat_min_chunk_size : Z;
}.

(** [None] stands for an exception raised while the dictionary is built. *)
Definition statistics (chunks : list DocumentChunk) : option Statistics :=
  let sizes := map (fun c => len (text c)) chunks in
  avg ← (if is_nonempty chunks
         then (if len chunks =? 0 then None else Some (py_sum sizes / len chunks))
         else Some 0);
  mx ← (if is_nonempty chunks then py_max sizes else Some 0);
  mn ← (if is_nonempty chunks then py_min sizes else Some 0);
  Some {| total_chunks := len chunks;
          chunks_with_images :=
            py_sum (map (fun _ => 1)
                      (List.filter (fun c => is_nonempty (images c)) chunks));
          total_images := py_sum (map (fun c => len (images c)) chunks);
          avg_chunk_size := avg;
          stat_max_chunk_size := mx;
          stat_min_chunk_size := mn |}.

(* ===================================================================== *)
(** * Vocabulary of the properties                                        *)
(* ===================================================================== *)

(** A lowercase hexadecimal digit. *)
Definition is_hex (c : char) : Prop := In c MD5.hexdigits.

(** The 12-character identifier of a chunk with the given key fields. *)
Definition digest12 (source_file section text : pystr) : pystr :=
  take 12 (MD5.hexdigest
             (encode (source_file ++ lit ":" ++ section ++ lit ":" ++ take 100 text))).

(** A configuration for the examples: only the four options the
    segmenter and the distributor read vary. *)
Definition example_config (max overlap : Z) (by_paragraph evenly : bool)
    : ChunkingConfig :=
  {| max_chunk_size := max;
     min_chunk_size := 1;
     chunk_overlap := overlap;
     split_by_title := true;
     split_by_paragraph := by_paragraph;
     force_max_size := true;
     title_patterns := [];
     distribute_images_evenly := evenly |}.

(** ["\n".join(l)] *)
Definition lines (l : list pystr) : pystr := join [newline] l.

(** A chunk made by the factory for section [sec] of [sf], with no image. *)
Definition bare (sf sec : pystr) (page : Z) (c : DocumentChunk) : Prop :=
  exists t, c = _create_chunk t sf sec [] page.

(** The shape of every chunk list the segmenter builds: factory-made
    chunks of this section, the first with the image list it was handed
    or none, the others with none. *)
Definition emitted (sf sec : pystr) (page : Z) (imgs : list pystr)
    (chunks : list DocumentChunk) : Prop :=
  match chunks with
  | [] => True
  | c :: rest =>
      (exists t, c = _create_chunk t sf sec imgs page
                 \/ c = _create_chunk t sf sec [] page)
      /\ Forall (bare sf sec page) rest
  end.

(** The identifier of a chunk is the digest of its own key fields. *)
Definition well_identified (c : DocumentChunk) : Prop :=
  chunk_id c = digest12 (source_file c) (section c) (text c).

(** Invariant I2 on one chunk: the path of every [[IMG:path]] token of the
    text is in the image list. *)
Definition image_consistent (c : DocumentChunk) : Prop :=
  forall path, contains (img_placeholder path) (text c) = true -> In path (images c).

(** [images_per_chunk] of the even policy, as a natural number. *)
Definition per_chunk (imgs : list pystr) (n : nat) : nat :=
  Nat.max 1 (length imgs / n).









(** A paragraph unit that the loop neither force-splits nor treats as a
    code block. *)
Definition plain_unit (config : ChunkingConfig) (p : pystr) : Prop :=
  is_code_placeholder p = false /\ len p <= max_chunk_size config.

(** The three metadata entries agree with the fields they describe. *)
Definition metadata_consistent (c : DocumentChunk) : Prop :=
  has_images (metadata c) = (0 <? len (images c))
  /\ image_count (metadata c) = len (images c)
  /\ text_length (metadata c) = len (text c).

(** A paragraph that looks like a code-block placeholder and whose index
    parses to a negative number below [-len(code_blocks)]: the one input on
    which [code_blocks[idx]] raises. *)
Definition index_out_of_range (py_int : pystr -> option Z)
    (code_blocks : list pystr) (para : pystr) : Prop :=
  is_code_placeholder para = true
  /\ exists idx,
       py_int (replace (lit "__") [] (replace (lit "__CODE_BLOCK_") [] para)) = Some idx
       /\ idx < - len code_blocks.

(** Fuel that suffices for every forced split of a list of paragraphs. *)
Definition forced_split_fuel (code_blocks paragraphs : list pystr) : nat :=
  list_sum (map (fun para => length (restore_code_blocks code_blocks para)) paragraphs).

(** A text of white space only: the texts for which [s.strip()] is empty. *)
Definition blank (s : pystr) : bool := forallb isspace s.

(** A chunk with something to index: its text is not blank. *)
Definition has_text (c : DocumentChunk) : Prop := blank (text c) = false.

(** Position [i] of [t] lies in a window [t[s:e]] whose stripped content
    is the text of one of the chunks. *)
Definition covered (t : pystr) (chunks : list DocumentChunk) (i : nat) : Prop :=
  exists ch s e,
    In ch chunks /\ text ch = strip (slice t s e) /\ 0 <= s <= Z.of_nat i /\ Z.of_nat i < e.

(** What the window loop has achieved before an iteration: every
    character before [start] that is not white space is covered. *)
Definition covered_below (t : pystr) (start : Z) (chunks : list DocumentChunk) : Prop :=
  forall (i : nat) (c : char),
    Z.of_nat i < start -> t !! i = Some c -> isspace c = false -> covered t chunks i.

(** The elements at which the docx grouper opens a new section: a heading,
    or a text matching a custom title pattern when [split_by_title] is on;
    in both cases with a text that is not empty. *)
Definition opens_section (re_match : pystr -> pystr -> bool) (config : ChunkingConfig)
    (elem : Element) : bool :=
  (str_eqb (elem_type elem) (lit "heading")
   || (is_nonempty (elem_text elem) && split_by_title config
       && _is_custom_title re_match config (elem_text elem)))
  && is_nonempty (elem_text elem).

(** The elements under the headings: those that open no section. *)
Definition body_elements (re_match : pystr -> pystr -> bool) (config : ChunkingConfig)
    (elements : list Element) : list Element :=
  List.filter (fun e => negb (opens_section re_match config e)) elements.

(** Some element under the headings has a text or an image. *)
Definition has_body (re_match : pystr -> pystr -> bool) (config : ChunkingConfig)
    (elements : list Element) : bool :=
  existsb (fun e => is_nonempty (elem_text e) || is_nonempty (elem_images e))
    (body_elements re_match config elements).

(** Every image of the section has its [[IMG:path]] token among the texts. *)
Definition tokens_present (sd : SectionData) : Prop :=
  Forall (fun img => In (img_placeholder img) (sec_texts sd)) (sec_images sd).

(** The number of [Image] blocks among the elements of a pdf. *)
Definition image_blocks (elements : list PdfElement) : nat :=
  length (List.filter (fun e => str_eqb (category e) (lit "Image")) elements).

(** An image path that [image_map] holds for some reference. *)
Definition resolved (image_map : gmap pystr pystr) (img : pystr) : Prop :=
  exists img_ref, image_map !! img_ref = Some img.

(** What holds of every chunk of a Markdown document: it is of this file
    and on page 0, its identifier and metadata are those of its fields, its
    text is not blank, and its images are distinct paths of [image_map]. *)
Definition md_sound (sf : pystr) (image_map : gmap pystr pystr)
    (c : DocumentChunk) : Prop :=
  source_file c = sf
  /\ page_number c = 0
  /\ well_identified c
  /\ metadata_consistent c
  /\ has_text c
  /\ NoDup (images c)
  /\ Forall (resolved image_map) (images c).

(** The blocks at which the pdf grouper opens a new section: a [Title] or
    [Header] block, or a text matching a custom title pattern when
    [split_by_title] is on; never an [Image] block, and always with a text
    that is not empty once stripped. *)
Definition pdf_opens_section (re_match : pystr -> pystr -> bool)
    (config : ChunkingConfig) (element : PdfElement) : bool :=
  negb (str_eqb (category element) (lit "Image"))
  && (str_eqb (category element) (lit "Title")
      || str_eqb (category element) (lit "Header")
      || (is_nonempty (stripped_text element) && split_by_title config
          && _is_custom_title re_match config (stripped_text element)))
  && is_nonempty (stripped_text element).

(** Where the section name and the page of a pdf chunk can come from: the
    two default sections on page 0, or one block that opens a section. *)
Definition pdf_origin (re_match : pystr -> pystr -> bool) (config : ChunkingConfig)
    (elements : list PdfElement) (sec : pystr) (page : Z) : Prop :=
  (sec = section_start /\ page = 0)
  \/ (sec = section_content /\ page = 0)
  \/ Exists (fun e => pdf_opens_section re_match config e = true
                      /\ sec = stripped_text e /\ page = _get_page_number e)
       elements.

(** Where the section name of a docx chunk can come from. *)
Definition docx_origin (re_match : pystr -> pystr -> bool) (config : ChunkingConfig)
    (elements : list Element) (sec : pystr) : Prop :=
  sec = section_start
  \/ sec = section_content
  \/ Exists (fun e => opens_section re_match config e = true /\ sec = elem_text e)
       elements.

(** The configuration with other values for the two options that the
    parser stores but never reads. *)
Definition with_unused (config : ChunkingConfig) (min_size : Z) (force : bool)
    : ChunkingConfig :=
  {| max_chunk_size := max_chunk_size config;
     min_chunk_size := min_size;
     chunk_overlap := chunk_overlap config;
     split_by_title := split_by_title config;
     split_by_paragraph := split_by_paragraph config;
     force_max_size := force;
     title_patterns := title_patterns config;
     distribute_images_evenly := distribute_images_evenly config |}.

(** The underscore, the one character of the text that a placeholder is
    made of besides letters and digits. *)
Definition underscore : char := 95%N.

(** A protected text over a source without underscores: characters that
    are not underscores and placeholders numbered from [lo] on. *)
Inductive protected_form (lo : nat) : pystr -> Prop :=
  | pf_nil : protected_form lo []
  | pf_char (c : char) (rest : pystr) :
      c <> underscore -> protected_form lo rest -> protected_form lo (c :: rest)
  | pf_placeholder (j : nat) (rest : pystr) :
      (lo <= j)%nat -> protected_form lo rest ->
      protected_form lo (code_placeholder j ++ rest).

(* ===================================================================== *)
(** * Basic facts about the string model                                  *)
(* ===================================================================== *)

Lemma str_eqb_eq (a b : pystr) : str_eqb a b = true <-> a = b.
Proof.
  revert b. induction a as [|x a IH]; intros [|y b]; simpl; try (split; congruence).
  rewrite andb_true_iff, IH. unfold char_eqb. rewrite N.eqb_eq.
  split; [intros [-> ->]; reflexivity | intros [= -> ->]; auto].
Qed.

Lemma str_eqb_neq (a b : pystr) : a <> b -> str_eqb a b = false.
Proof.
  intros H. destruct (str_eqb a b) eqn:E; [|reflexivity].
  apply str_eqb_eq in E. contradiction.
Qed.

Lemma slice_nonneg {A} (l : list A) (lo hi : Z) :
  0 <= lo -> 0 <= hi ->
  slice l lo hi = take (Z.to_nat hi - Z.to_nat lo) (drop (Z.to_nat lo) l).
Proof.
  intros Hlo Hhi. unfold slice, slice_bound, len.
  destruct (Z.ltb_spec lo 0); [lia|]. destruct (Z.ltb_spec hi 0); [lia|].
  destruct (Z_le_gt_dec (Z.of_nat (length l)) lo).
  - rewrite !drop_ge by lia. rewrite !take_nil. reflexivity.
  - rewrite (Z.min_l lo) by lia.
    destruct (Z_le_gt_dec (Z.of_nat (length l)) hi).
    + rewrite Z.min_r by lia. rewrite !take_ge; [reflexivity| |]; rewrite length_drop; lia.
    + rewrite Z.min_l by lia. f_equal. lia.
Qed.

Lemma slice_prefix {A} (l : list A) (n : Z) :
  0 <= n -> slice l 0 n = take (Z.to_nat n) l.
Proof.
  intros Hn. rewrite slice_nonneg by lia. simpl. rewrite Nat.sub_0_r. reflexivity.
Qed.

(* ===================================================================== *)
(** * Chunk identity                                                      *)
(* ===================================================================== *)

(** The RFC 1321 test suite, and a message of more than one block. *)
Example md5_test_suite :
  MD5.hexdigest (encode (lit "")) = lit "d41d8cd98f00b204e9800998ecf8427e"
  /\ MD5.hexdigest (encode (lit "abc")) = lit "900150983cd24fb0d6963f7d28e17f72"
  /\ MD5.hexdigest (encode (lit "message digest")) = lit "f96b697d7cb7938d525a2f31aaf161d0"
  /\ MD5.hexdigest
       (encode (lit "The quick brown fox jumps over the lazy dog. The quick brown fox jumps over the lazy dog."))
     = lit "f168d89e05b664041ee6745f050caa4b".
Proof. repeat split; vm_compute; reflexivity. Qed.

(** [10 * 0.7 == 7.0] and [3 * 0.7 == 2.0999999999999996]: a separator at
    index 7 of a 10-character window is not beyond the threshold, one at
    index 8 is. *)
Example seventy_percent_threshold :
  times_0_7 10 = (7 * 2 ^ 50, -50)
  /\ times_0_7 3 = (4728779608739020, -51)
  /\ int_gt_float 7 (times_0_7 10) = false
  /\ int_gt_float 8 (times_0_7 10) = true
  /\ int_gt_float 2 (times_0_7 3) = false
  /\ int_gt_float 3 (times_0_7 3) = true.
Proof. repeat split; vm_compute; reflexivity. Qed.

Lemma hex_nibble_is_hex (x : Z) : is_hex (MD5.hex_nibble x).
Proof.
  unfold is_hex, MD5.hex_nibble.
  apply nth_In.
  assert (0 <= x mod 16 < 16) by (apply Z.mod_pos_bound; lia).
  change (length MD5.hexdigits) with 16%nat. lia.
Qed.

Lemma hexdigest_shape (msg : list Z) :
  length (MD5.hexdigest msg) = 32%nat /\ Forall is_hex (MD5.hexdigest msg).
Proof.
  unfold MD5.hexdigest, MD5.digest.
  destruct (MD5.absorb (MD5.pad msg) [] MD5.init) as [A B C D].
  split.
  - reflexivity.
  - simpl. repeat (constructor; [apply hex_nibble_is_hex|]). constructor.
Qed.

Lemma create_chunk_id (t sf sec : pystr) (imgs : list pystr) (page : Z) :
  chunk_id (_create_chunk t sf sec imgs page) = digest12 sf sec t.
Proof.
  unfold _create_chunk, digest12, chunk_key. simpl chunk_id.
  rewrite !slice_prefix by lia. reflexivity.
Qed.

(* ===================================================================== *)
(** * What the segmenter emits                                            *)
(* ===================================================================== *)

Section Emitted.

Variable py_int : pystr -> option Z.
Variable config : ChunkingConfig.
Variables (sf sec : pystr) (page : Z).

Lemma emitted_of_bare imgs chunks : Forall (bare sf sec page) chunks -> emitted sf sec page imgs chunks.
Proof.
  intros H. destruct H as [|c rest [t Ht] Hrest]; simpl; [exact I|].
  split; [exists t; auto | assumption].
Qed.

Lemma bare_of_emitted chunks : emitted sf sec page [] chunks -> Forall (bare sf sec page) chunks.
Proof.
  destruct chunks as [|c rest]; simpl; [constructor|].
  intros [[t [Ht|Ht]] Hrest]; constructor; try assumption; exists t; assumption.
Qed.

Lemma emitted_app imgs chunks more :
  emitted sf sec page imgs chunks -> Forall (bare sf sec page) more -> emitted sf sec page imgs (chunks ++ more).
Proof.
  destruct chunks as [|c rest]; simpl.
  - intros _. apply emitted_of_bare.
  - intros [Hc Hrest] Hmore. split; [assumption|].
    apply Forall_app. split; assumption.
Qed.

Lemma emitted_snoc imgs chunks t :
  emitted sf sec page imgs chunks ->
  emitted sf sec page imgs
    (chunks ++ [_create_chunk t sf sec
                  (match chunks with [] => imgs | _ :: _ => [] end) page]).
Proof.
  destruct chunks as [|c rest]; simpl.
  - intros _. split; [exists t; auto | constructor].
  - intros [Hc Hrest]. split; [assumption|].
    apply Forall_app. split; [assumption|].
    constructor; [exists t; reflexivity | constructor].
Qed.

Lemma char_step_emitted text imgs start chunks :
  emitted sf sec page imgs chunks ->
  emitted sf sec page imgs (snd (char_step config text sf sec imgs page start chunks)).
Proof.
  intros H. unfold char_step. simpl.
  destruct (strip _); [assumption|]. apply emitted_snoc. assumption.
Qed.

Lemma char_loop_S fuel text imgs start chunks :
  char_loop (S fuel) config text sf sec imgs page start chunks =
  if start <? len text then
    let st := char_step config text sf sec imgs page start chunks in
    char_loop fuel config text sf sec imgs page (fst st) (snd st)
  else Done chunks.
Proof.
  cbn [char_loop]. destruct (char_step _ _ _ _ _ _ _ _); reflexivity.
Qed.

Lemma char_loop_exit fuel text imgs start chunks :
  len text <= start ->
  char_loop fuel config text sf sec imgs page start chunks = Done chunks.
Proof.
  intros H. destruct fuel; cbn [char_loop];
    destruct (Z.ltb_spec start (len text)); solve [lia | reflexivity].
Qed.

Lemma char_loop_emitted fuel text imgs start chunks out :
  emitted sf sec page imgs chunks ->
  char_loop fuel config text sf sec imgs page start chunks = Done out ->
  emitted sf sec page imgs out.
Proof.
  revert start chunks. induction fuel as [|fuel IH]; intros start chunks H.
  - cbn [char_loop]. destruct (start <? len text); [discriminate|].
    intros [= <-]. assumption.
  - rewrite char_loop_S. destruct (start <? len text); [|intros [= <-]; assumption].
    cbv zeta. apply IH. apply char_step_emitted. assumption.
Qed.

Lemma flush_emitted code_blocks imgs chunks buf :
  emitted sf sec page imgs chunks ->
  emitted sf sec page imgs (flush sf sec page code_blocks imgs chunks buf).
Proof.
  intros H. unfold flush. destruct buf; [assumption|]. apply emitted_snoc. assumption.
Qed.

Lemma para_step_emitted fuel code_blocks imgs chunks buf cl para chunks' buf' cl' :
  emitted sf sec page imgs chunks ->
  para_step py_int config sf sec page fuel code_blocks imgs (chunks, buf, cl) para
    = Done (chunks', buf', cl') ->
  emitted sf sec page imgs chunks'.
Proof.
  intros H. unfold para_step.
  destruct (actual_len py_int code_blocks para) as [a| |]; cbn; try discriminate.
  destruct (andb _ _).
  - destruct (_split_by_characters _ _ _ _ _ _ _) as [sub| |] eqn:Hsub;
      cbn; try discriminate.
    intros [= <- <- <-]. apply emitted_app; [apply flush_emitted; assumption|].
    apply bare_of_emitted. eapply char_loop_emitted; [|exact Hsub]. exact I.
  - destruct (Z.ltb _ _).
    + destruct (if andb _ _ then last buf else None); intros [= <- <- <-];
        apply flush_emitted; assumption.
    + intros [= <- <- <-]. assumption.
Qed.

Lemma para_loop_emitted fuel code_blocks imgs paragraphs chunks buf cl chunks' buf' cl' :
  emitted sf sec page imgs chunks ->
  para_loop py_int config sf sec page fuel code_blocks imgs paragraphs (chunks, buf, cl)
    = Done (chunks', buf', cl') ->
  emitted sf sec page imgs chunks'.
Proof.
  revert chunks buf cl. induction paragraphs as [|para rest IH]; intros chunks buf cl H.
  - cbn. intros [= <- <- <-]. assumption.
  - cbn [para_loop].
    destruct (para_step _ _ _ _ _ _ _ _ _ _) as [[[c1 b1] l1]| |] eqn:Hstep;
      cbn; try discriminate.
    apply IH. eapply para_step_emitted; eassumption.
Qed.

(** Every chunk list the segmenter returns has the emitted shape. *)
Lemma segmenter_emits fuel text imgs chunks :
  _split_text_with_overlap py_int config sf sec page fuel text imgs = Done chunks ->
  emitted sf sec page imgs chunks.
Proof.
  unfold _split_text_with_overlap.
  destruct (protect_code_blocks text) as [protected_text code_blocks].
  destruct (Z.leb _ _).
  - intros [= <-]. simpl. split; [eauto | constructor].
  - destruct (split_by_paragraph config).
    + destruct (para_loop _ _ _ _ _ _ _ _ _ _) as [[[c1 b1] l1]| |] eqn:Hloop;
        cbn; try discriminate.
      intros [= <-]. apply flush_emitted.
      eapply para_loop_emitted; [|exact Hloop]. exact I.
    + apply char_loop_emitted. exact I.
Qed.

End Emitted.

Lemma digest12_shape (sf sec t : pystr) :
  length (digest12 sf sec t) = 12%nat /\ Forall is_hex (digest12 sf sec t).
Proof.
  unfold digest12.
  destruct (hexdigest_shape
              (encode (sf ++ lit ":" ++ sec ++ lit ":" ++ take 100 t))) as [Hlen Hhex].
  split.
  - rewrite length_take, Hlen. reflexivity.
  - apply Forall_take. assumption.
Qed.

Lemma create_chunk_well_identified (t sf sec : pystr) (imgs : list pystr) (page : Z) :
  well_identified (_create_chunk t sf sec imgs page).
Proof. unfold well_identified. rewrite create_chunk_id. reflexivity. Qed.

Lemma emitted_well_identified sf sec page imgs chunks :
  emitted sf sec page imgs chunks -> Forall well_identified chunks.
Proof.
  destruct chunks as [|c rest]; simpl; [constructor|].
  intros [[t [-> | ->]] Hrest]; (constructor; [apply create_chunk_well_identified|]);
    (eapply Forall_impl; [exact Hrest|]);
    intros c' [t' ->]; apply create_chunk_well_identified.
Qed.

Lemma emitted_images sf sec page imgs chunks :
  emitted sf sec page imgs chunks ->
  match chunks with
  | [] => True
  | c :: rest =>
      (images c = imgs \/ images c = []) /\ Forall (fun c' => images c' = []) rest
  end.
Proof.
  destruct chunks as [|c rest]; simpl; [auto|].
  intros [[t [-> | ->]] Hrest]; (split; [simpl; auto|]);
    (eapply Forall_impl; [exact Hrest|]); intros c' [t' ->]; reflexivity.
Qed.

Section DocxFacts.
Variable py_int : pystr -> option Z.
Variable re_match : pystr -> pystr -> bool.
Variable config : ChunkingConfig.

Lemma section_chunks_well_identified fuel sf info chunks :
  section_chunks py_int config fuel sf info = Done chunks ->
  Forall well_identified chunks.
Proof.
  unfold section_chunks. destruct (Z.ltb _ _).
  - intros H. eapply emitted_well_identified, segmenter_emits, H.
  - destruct (is_nonempty _); intros [= <-]; repeat constructor.
    apply create_chunk_well_identified.
Qed.

Lemma sections_to_chunks_well_identified fuel sf sections chunks out :
  Forall well_identified chunks ->
  sections_to_chunks py_int config fuel sf sections chunks = Done out ->
  Forall well_identified out.
Proof.
  revert chunks. induction sections as [|info rest IH]; intros chunks H.
  - cbn. intros [= <-]. assumption.
  - cbn [sections_to_chunks].
    destruct (section_chunks _ _ _ _ _) as [sub| |] eqn:Hsub; cbn; try discriminate.
    apply IH. apply Forall_app. split; [assumption|].
    eapply section_chunks_well_identified, Hsub.
Qed.
End DocxFacts.

Lemma distribute_keeps_identity (config : ChunkingConfig)
    (chunks : list DocumentChunk) (imgs : list pystr) :
  Forall well_identified chunks ->
  Forall well_identified (_distribute_images_to_chunks config chunks imgs).
Proof.
  intros H. unfold _distribute_images_to_chunks.
  destruct imgs as [|img imgs]; [exact H|].
  destruct chunks as [|c0 rest]; [exact H|].
  destruct (distribute_images_evenly config).
  - apply Forall_lookup_2. intros i c Hic. rewrite list_lookup_imap in Hic.
    destruct ((c0 :: rest) !! i) as [c'|] eqn:E; [|discriminate].
    injection Hic as <-. exact (Forall_lookup_1 _ _ _ _ H E).
  - inversion H as [|? ? H0 Hrest]; subst. constructor; assumption.
Qed.

Lemma pdf_chunks_well_identified (py_int : pystr -> option Z)
    (re_match : pystr -> pystr -> bool) (config : ChunkingConfig) (fuel : nat)
    (elements : list PdfElement) (sf : pystr) (extracted : list pystr)
    (chunks : list DocumentChunk) :
  _elements_to_chunks_optimized py_int re_match config fuel elements sf extracted
    = Done chunks ->
  Forall well_identified chunks.
Proof.
  unfold _elements_to_chunks_optimized.
  destruct (fold_left _ _ _) as [[sections0 section_data] image_index].
  destruct (sections_to_chunks _ _ _ _ _ _) as [out| |] eqn:Hout; cbn; try discriminate.
  apply sections_to_chunks_well_identified in Hout; [|constructor].
  destruct (andb _ _); intros [= <-]; [apply distribute_keeps_identity|]; exact Hout.
Qed.

(** C2: the identifier of a chunk is the first 12 hexadecimal digits of the
    MD5 digest of [source_file + ":" + section + ":" + text[:100]]: it has
    12 characters, all lowercase hexadecimal digits; it depends on nothing
    but those three fields; and every chunk the segmenter, the docx
    pipeline or the pdf pipeline returns carries the identifier computed
    from its own fields, so equal inputs give equal identifier sequences. *)
Theorem chunk_id_is_pure_digest :
  (forall t sf sec imgs page,
      chunk_id (_create_chunk t sf sec imgs page)
      = take 12 (MD5.hexdigest
                   (encode (sf ++ lit ":" ++ sec ++ lit ":" ++ take 100 t))))
  /\ (forall t sf sec imgs page,
        length (chunk_id (_create_chunk t sf sec imgs page)) = 12%nat
        /\ Forall is_hex (chunk_id (_create_chunk t sf sec imgs page)))
  /\ (forall t1 t2 sf sec imgs1 imgs2 page1 page2,
        take 100 t1 = take 100 t2 ->
        chunk_id (_create_chunk t1 sf sec imgs1 page1)
        = chunk_id (_create_chunk t2 sf sec imgs2 page2))
  /\ (forall py_int config sf sec page fuel t imgs chunks,
        _split_text_with_overlap py_int config sf sec page fuel t imgs = Done chunks ->
        map chunk_id chunks = map (fun c => digest12 sf sec (text c)) chunks)
  /\ (forall py_int re_match config fuel elements sf chunks,
        _docx_elements_to_chunks py_int re_match config fuel elements sf = Done chunks ->
        Forall well_identified chunks)
  /\ (forall py_int re_match config fuel elements sf extracted chunks,
        _elements_to_chunks_optimized py_int re_match config fuel elements sf extracted
          = Done chunks ->
        Forall well_identified chunks).
Proof.
  split; [|split; [|split; [|split; [|split]]]].
  - intros. apply create_chunk_id.
  - intros. rewrite create_chunk_id. apply digest12_shape.
  - intros * H. rewrite !create_chunk_id. unfold digest12. rewrite H. reflexivity.
  - intros * H. apply segmenter_emits in H.
    apply map_ext_Forall.
    destruct chunks as [|c rest]; [constructor|]. simpl in H.
      destruct H as [[t' [-> | ->]] Hrest];
        (constructor; [apply create_chunk_id|]);
        (eapply Forall_impl; [exact Hrest|]); intros c' [t'' ->]; apply create_chunk_id.
  - intros * H. unfold _docx_elements_to_chunks in H.
    eapply sections_to_chunks_well_identified; [|exact H]. constructor.
  - intros * H. eapply pdf_chunks_well_identified, H.
Qed.

Lemma chunk_id_is_pure_digest_witness :
  let run := _split_text_with_overlap int_ascii (example_config 10 0 true true)
               (lit "guide.md") (lit "Intro") 0 0
               (lines [lit "aaaaa"; lit "bbbbb"; lit "ccccc"]) [] in
  let chunks := [_create_chunk (lines [lit "aaaaa"; lit "bbbbb"]) (lit "guide.md") (lit "Intro") [] 0;
                 _create_chunk (lit "ccccc") (lit "guide.md") (lit "Intro") [] 0] in
  run = Done chunks
  /\ map chunk_id chunks = map (fun c => digest12 (lit "guide.md") (lit "Intro") (text c)) chunks
  /\ map chunk_id chunks = [lit "9d6b99c2d28d"; lit "493668d9d51a"].
Proof.
  split; [vm_compute; reflexivity|]. split.
  - apply (proj1 (proj2 (proj2 (proj2 chunk_id_is_pure_digest)))
             int_ascii (example_config 10 0 true true) (lit "guide.md") (lit "Intro") 0 0%nat
             (lines [lit "aaaaa"; lit "bbbbb"; lit "ccccc"]) []).
    vm_compute. reflexivity.
  - vm_compute. reflexivity.
Defined.

(* ===================================================================== *)
(** * Short sections                                                      *)
(* ===================================================================== *)




(* ===================================================================== *)
(** * Images of the chunks of a section                                   *)
(* ===================================================================== *)

(** C3 (amended): the segmenter hands the section's image list to the first
    chunk it emits at most, and no image to any later chunk, whatever
    tokens their texts contain; a section within [max_chunk_size] is one
    chunk carrying the whole list. *)
Theorem images_go_to_first_chunk_only
    (py_int : pystr -> option Z) (config : ChunkingConfig)
    (sf sec : pystr) (page : Z) (fuel : nat) (t : pystr) (imgs : list pystr)
    (chunks : list DocumentChunk) :
  _split_text_with_overlap py_int config sf sec page fuel t imgs = Done chunks ->
  match chunks with
  | [] => True
  | c :: rest =>
      (images c = imgs \/ images c = [])
      /\ Forall (fun c' => images c' = []) rest
  end
  /\ (len t <= max_chunk_size config ->
      exists c, chunks = [c] /\ images c = imgs).
Proof.
  intros H. split.
  - eapply emitted_images, segmenter_emits, H.
  - intros Hshort. unfold _split_text_with_overlap in H.
    destruct (protect_code_blocks t) as [protected_text code_blocks].
    destruct (Z.leb_spec (len t) (max_chunk_size config)); [|lia].
    injection H as <-. eexists. split; reflexivity.
Qed.

Lemma images_go_to_first_chunk_only_witness :
  let t := lines [lit "aaaaa"; lit "[IMG:img/p.png]"] in
  let config := example_config 16 0 true true in
  let c1 := _create_chunk (lit "aaaaa") (lit "d.docx") (lit "T") [lit "img/p.png"] 0 in
  let c2 := _create_chunk (lit "[IMG:img/p.png]") (lit "d.docx") (lit "T") [] 0 in
  _split_text_with_overlap int_ascii config (lit "d.docx") (lit "T") 0 0 t [lit "img/p.png"]
  = Done [c1; c2]
  /\ ((images c1 = [lit "img/p.png"] \/ images c1 = [])
      /\ Forall (fun c' => images c' = []) [c2])
  /\ (len t <= max_chunk_size config ->
      exists c, [c1; c2] = [c] /\ images c = [lit "img/p.png"]).
Proof.
  split; [vm_compute; reflexivity|].
  apply (images_go_to_first_chunk_only int_ascii (example_config 16 0 true true)
           (lit "d.docx") (lit "T") 0 0%nat
           (lines [lit "aaaaa"; lit "[IMG:img/p.png]"]) [lit "img/p.png"]
           [_create_chunk (lit "aaaaa") (lit "d.docx") (lit "T") [lit "img/p.png"] 0;
            _create_chunk (lit "[IMG:img/p.png]") (lit "d.docx") (lit "T") [] 0]).
  vm_compute. reflexivity.
Defined.

(** C3 as stated fails: the docx pipeline puts the token of an inline image
    in the text of the second chunk of a split section, and that chunk's
    image list is empty. *)
Lemma token_in_later_chunk_without_image :
  let elements :=
    [ {| elem_type := lit "heading"; elem_text := lit "T"; elem_images := [] |};
      {| elem_type := lit "paragraph"; elem_text := lit "aaaaa"; elem_images := [] |};
      {| elem_type := lit "paragraph"; elem_text := []; elem_images := [lit "img/p.png"] |} ] in
  exists c1 c2,
    _docx_elements_to_chunks int_ascii (fun _ _ => false)
      (example_config 16 0 true true) 0 elements (lit "d.docx")
    = Done [c1; c2]
    /\ text c2 = lit "[IMG:img/p.png]"
    /\ contains (img_placeholder (lit "img/p.png")) (text c2) = true
    /\ images c2 = []
    /\ ~ image_consistent c2.
Proof.
  eexists _, _. split; [vm_compute; reflexivity|].
  split; [reflexivity|]. split; [vm_compute; reflexivity|]. split; [reflexivity|].
  intros H. specialize (H (lit "img/p.png")).
  assert (Hin : In (lit "img/p.png") []) by (apply H; vm_compute; reflexivity).
  destruct Hin.
Qed.

(* ===================================================================== *)
(** * Unsupported formats                                                 *)
(* ===================================================================== *)

(** C9: when the lowercased suffix of the path is none of [.docx], [.md],
    [.pdf], [parse] raises the unsupported-format error ([ValueError] with
    the message of the source followed by the suffix) and leaves the world
    as it found it: no adapter runs, so nothing is read or written. *)
Theorem parse_unsupported_raises_before_io
    (world : Type) (suffix_of lower : pystr -> pystr)
    (_parse_docx _parse_markdown _parse_pdf :
       pystr -> world -> outcome (list DocumentChunk) * world)
    (file_path : pystr) (w : world) :
  ~ In (lower (suffix_of file_path)) [lit ".docx"; lit ".md"; lit ".pdf"] ->
  parse world suffix_of lower _parse_docx _parse_markdown _parse_pdf file_path w
  = (Raised (ValueError (unsupported_msg ++ lower (suffix_of file_path))), w).
Proof.
  intros H. unfold parse.
  rewrite !str_eqb_neq; [reflexivity| | |]; intros E; apply H; rewrite E; simpl; auto.
Qed.

(** The world of the witness is the list of the paths accessed so far. *)
Lemma parse_unsupported_raises_before_io_witness :
  let touch := fun (p : pystr) (w : list pystr) =>
                 (Done ([] : list DocumentChunk), w ++ [p]) in
  ~ In (lower_ascii (path_suffix (lit "notes/report.TXT")))
       [lit ".docx"; lit ".md"; lit ".pdf"]
  /\ parse (list pystr) path_suffix lower_ascii touch touch touch
       (lit "notes/report.TXT") []
     = (Raised (ValueError (unsupported_msg ++ lit ".txt")), []).
Proof.
  assert (H : ~ In (lower_ascii (path_suffix (lit "notes/report.TXT")))
                [lit ".docx"; lit ".md"; lit ".pdf"]).
  { vm_compute. intros [H|[H|[H|[]]]]; discriminate. }
  split; [exact H|].
  exact (parse_unsupported_raises_before_io (list pystr) path_suffix lower_ascii
           _ _ _ (lit "notes/report.TXT") [] H).
Defined.

(* ===================================================================== *)
(** * Even distribution of orphan images                                  *)
(* ===================================================================== *)

Lemma In_slice {A} (l : list A) (lo hi : Z) (x : A) : In x (slice l lo hi) -> In x l.
Proof.
  unfold slice. rewrite <- !list_elem_of_In. intros H.
  apply (subseteq_drop (Z.to_nat (slice_bound (len l) lo)) l).
  eapply subseteq_take. exact H.
Qed.

Lemma per_chunk_spec (imgs : list pystr) (n : nat) :
  n <> 0%nat -> Z.max 1 (len imgs / Z.of_nat n) = Z.of_nat (per_chunk imgs n).
Proof.
  intros Hn. unfold per_chunk, len. rewrite Nat2Z.inj_max, Nat2Z.inj_div. reflexivity.
Qed.

Lemma even_slice_nat (imgs : list pystr) (n i : nat) :
  n <> 0%nat ->
  even_slice imgs (Z.of_nat n) i =
  if decide (i = n - 1)%nat then drop (i * per_chunk imgs n) imgs
  else take (per_chunk imgs n) (drop (i * per_chunk imgs n) imgs).
Proof.
  intros Hn. unfold even_slice. rewrite per_chunk_spec by assumption.
  set (per := per_chunk imgs n).
  destruct (Z.eqb_spec (Z.of_nat i) (Z.of_nat n - 1)) as [E|E];
    destruct (decide (i = n - 1)%nat) as [D|D]; try lia.
  - rewrite slice_nonneg by (unfold len; lia).
    replace (Z.to_nat (Z.of_nat i * Z.of_nat per)) with (i * per)%nat by lia.
    apply take_ge. rewrite length_drop. unfold len. lia.
  - rewrite slice_nonneg by lia.
    replace (Z.to_nat (Z.of_nat i * Z.of_nat per)) with (i * per)%nat by lia.
    f_equal. lia.
Qed.

Lemma distribute_even (config : ChunkingConfig) (chunks : list DocumentChunk)
    (imgs : list pystr) :
  distribute_images_evenly config = true -> chunks <> [] -> imgs <> [] ->
  _distribute_images_to_chunks config chunks imgs
  = imap (fun i chunk =>
            assign_images chunk (even_slice imgs (len chunks) i)
              (0 <? len (even_slice imgs (len chunks) i))) chunks.
Proof.
  intros He Hc Hi. unfold _distribute_images_to_chunks. rewrite He.
  destruct imgs; [contradiction|]. destruct chunks; [contradiction|]. reflexivity.
Qed.

Lemma concat_even_slices (imgs : list pystr) (n : nat) (l : list DocumentChunk) (k : nat) :
  (k + length l = n)%nat -> l <> [] ->
  concat (map images
            (imap (fun i chunk =>
                     assign_images chunk (even_slice imgs (Z.of_nat n) (k + i))
                       (0 <? len (even_slice imgs (Z.of_nat n) (k + i)))) l))
  = drop (k * per_chunk imgs n) imgs.
Proof.
  revert k. induction l as [|c l IH]; intros k Hk Hne; [contradiction|].
  assert (Hn : n <> 0%nat) by (simpl in Hk; lia).
  cbn [imap map concat]. cbn [assign_images images].
  rewrite Nat.add_0_r, even_slice_nat by assumption.
  destruct l as [|c' l'].
  - simpl in Hk. destruct (decide (k = n - 1)%nat); [|lia].
    cbn. apply app_nil_r.
  - simpl in Hk. destruct (decide (k = n - 1)%nat); [lia|].
    erewrite imap_ext.
    + rewrite (IH (S k)); [|simpl; lia|discriminate].
      replace (S k * per_chunk imgs n)%nat
        with (k * per_chunk imgs n + per_chunk imgs n)%nat by lia.
      rewrite <- drop_drop. apply take_drop.
    + intros i x _. unfold compose. replace (k + S i)%nat with (S k + i)%nat by lia.
      reflexivity.
Qed.

(** C4 (amended): under the even policy, with at least one orphan image and
    one chunk, chunk [i] of [n] receives the contiguous slice
    [images[i*per : (i+1)*per]] when it is not the last and
    [images[(n-1)*per :]] when it is, where [per = max(1, len(images) // n)];
    the slices in chunk order make up the orphan list.  With at least as
    many images as chunks, every chunk but the last receives exactly [per]
    images and the last all that remain; with fewer images than chunks,
    [per = 1], the first [len(images)] chunks receive one image each and
    the others none.  Five images over three chunks give slices of sizes 1,
    1 and 3. *)
Theorem even_policy_slices (config : ChunkingConfig)
    (chunks : list DocumentChunk) (imgs : list pystr) :
  distribute_images_evenly config = true -> chunks <> [] -> imgs <> [] ->
  let n := length chunks in
  let per := per_chunk imgs n in
  let out := _distribute_images_to_chunks config chunks imgs in
  length out = n
  /\ (forall i c, out !! i = Some c ->
        images c = if decide (i = n - 1)%nat then drop (i * per) imgs
                   else take per (drop (i * per) imgs))
  /\ concat (map images out) = imgs
  /\ ((n <= length imgs)%nat ->
      forall i c, out !! i = Some c ->
        if decide (i = n - 1)%nat
        then length (images c) = (length imgs - (n - 1) * per)%nat
             /\ (per <= length (images c))%nat
        else length (images c) = per)
  /\ ((length imgs < n)%nat ->
      per = 1%nat
      /\ forall i c, out !! i = Some c ->
           length (images c) = if decide (i < length imgs)%nat then 1%nat else 0%nat)
  /\ (n = 3%nat -> length imgs = 5%nat ->
      map (fun c => length (images c)) out = [1; 1; 3]%nat).
Proof.
  intros He Hc Hi n per out.
  assert (Hn : n <> 0%nat) by (subst n; destruct chunks; [contradiction | discriminate]).
  assert (Hout : out = imap (fun i chunk =>
            assign_images chunk (even_slice imgs (Z.of_nat n) i)
              (0 <? len (even_slice imgs (Z.of_nat n) i))) chunks)
    by (apply distribute_even; assumption).
  assert (Hlookup : forall i c, out !! i = Some c ->
            images c = if decide (i = n - 1)%nat then drop (i * per) imgs
                       else take per (drop (i * per) imgs)).
  { intros i c Hic. rewrite Hout, list_lookup_imap in Hic.
    destruct (chunks !! i) as [c0|]; [|discriminate].
    injection Hic as <-. cbn [assign_images images]. apply even_slice_nat. assumption. }
  assert (Hbound : forall i c, out !! i = Some c -> (i < n)%nat).
  { intros i c Hic. apply lookup_lt_Some in Hic.
    rewrite Hout, length_imap in Hic. exact Hic. }
  split; [rewrite Hout; apply length_imap|]. split; [exact Hlookup|]. split.
  - rewrite Hout.
    exact (concat_even_slices imgs n chunks 0 eq_refl Hc).
  - split; [|split].
    + intros Hmany i c Hic.
      pose proof (Hbound i c Hic) as Hi_n.
      assert (Hper : per = (length imgs / n)%nat /\ (1 <= per)%nat).
      { subst per. unfold per_chunk.
        assert (1 <= length imgs / n)%nat by (apply Nat.div_le_lower_bound; lia).
        lia. }
      destruct Hper as [Hper Hper1].
      assert (Hfit : (n * per <= length imgs)%nat).
      { rewrite Hper. apply Nat.Div0.mul_div_le. }
      rewrite (Hlookup i c Hic).
      destruct (decide (i = n - 1)%nat) as [-> | Hnot].
      * rewrite length_drop. split; [reflexivity | nia].
      * rewrite length_take, length_drop. nia.
    + intros Hfew.
      assert (Hper : per = 1%nat).
      { subst per. unfold per_chunk. rewrite Nat.div_small by exact Hfew. reflexivity. }
      split; [exact Hper|]. intros i c Hic.
      pose proof (Hbound i c Hic) as Hi_n.
      rewrite (Hlookup i c Hic), Hper, Nat.mul_1_r.
      destruct (decide (i = n - 1)%nat) as [-> | Hnot];
        destruct (decide (_ < length imgs)%nat); try lia;
        rewrite ?length_take, length_drop; lia.
    + intros H3 H5.
      assert (length out = 3%nat) as Hlen by (rewrite Hout, length_imap; exact H3).
      destruct out as [|c0 [|c1 [|c2 [|]]]]; try discriminate.
      pose proof (Hlookup 0%nat c0 eq_refl) as H0.
      pose proof (Hlookup 1%nat c1 eq_refl) as H1.
      pose proof (Hlookup 2%nat c2 eq_refl) as H2.
      subst per. unfold per_chunk in H0, H1, H2. rewrite H3, H5 in H0, H1, H2.
      destruct imgs as [|i1 [|i2 [|i3 [|i4 [|i5 [|]]]]]]; try discriminate.
      cbn in H0, H1, H2. cbn [map]. rewrite H0, H1, H2. reflexivity.
Qed.

Lemma even_policy_slices_witness :
  let mk := fun t => _create_chunk t (lit "r.pdf") (lit "S") [] 1 in
  let chunks := [mk (lit "one"); mk (lit "two"); mk (lit "three")] in
  let imgs := [lit "1.png"; lit "2.png"; lit "3.png"; lit "4.png"; lit "5.png"] in
  let out := _distribute_images_to_chunks (example_config 100 0 true true) chunks imgs in
  map images out = [[lit "1.png"]; [lit "2.png"]; [lit "3.png"; lit "4.png"; lit "5.png"]]
  /\ length out = 3%nat
  /\ concat (map images out) = imgs
  /\ map (fun c => length (images c)) out = [1; 1; 3]%nat
  /\ map (fun c => length (images c))
       (_distribute_images_to_chunks (example_config 100 0 true true) chunks [lit "1.png"])
     = [1; 0; 0]%nat.
Proof.
  pose proof (even_policy_slices (example_config 100 0 true true)
    [_create_chunk (lit "one") (lit "r.pdf") (lit "S") [] 1;
     _create_chunk (lit "two") (lit "r.pdf") (lit "S") [] 1;
     _create_chunk (lit "three") (lit "r.pdf") (lit "S") [] 1]
    [lit "1.png"; lit "2.png"; lit "3.png"; lit "4.png"; lit "5.png"]
    eq_refl ltac:(discriminate) ltac:(discriminate)) as (Hlen & _ & Hcat & _ & _ & Hsizes).
  split; [vm_compute; reflexivity|].
  split; [exact Hlen|]. split; [exact Hcat|].
  split; [exact (Hsizes eq_refl eq_refl) | vm_compute; reflexivity].
Defined.

(** C4 as stated fails: five orphan images over three chunks are not split
    2, 2, 1; the quotient is 1 and the last chunk takes the remaining 3. *)
Lemma five_over_three_is_not_2_2_1 :
  let mk := fun t => _create_chunk t (lit "r.pdf") (lit "S") [] 1 in
  let out := _distribute_images_to_chunks (example_config 100 0 true true)
               [mk (lit "one"); mk (lit "two"); mk (lit "three")]
               [lit "1.png"; lit "2.png"; lit "3.png"; lit "4.png"; lit "5.png"] in
  map (fun c => length (images c)) out = [1; 1; 3]%nat
  /\ map (fun c => length (images c)) out <> [2; 2; 1]%nat.
Proof.
  split; [vm_compute; reflexivity | vm_compute; discriminate].
Qed.

(** C10: under the even policy every chunk the distributor touches gets its
    slice of the orphan list as its whole image list, whatever images it
    held before, with [image_count] and [has_images] recomputed from the
    slice; [chunk_id], [text], [source_file], [section], [page_number] and
    [text_length] stay as they were. *)
Theorem even_policy_overwrites_images_only (config : ChunkingConfig)
    (chunks : list DocumentChunk) (imgs : list pystr) :
  distribute_images_evenly config = true -> chunks <> [] -> imgs <> [] ->
  let out := _distribute_images_to_chunks config chunks imgs in
  length out = length chunks
  /\ forall i c, chunks !! i = Some c ->
       exists c', out !! i = Some c'
         /\ images c' = even_slice imgs (len chunks) i
         /\ (forall p, In p (images c') -> In p imgs)
         /\ chunk_id c' = chunk_id c
         /\ text c' = text c
         /\ source_file c' = source_file c
         /\ section c' = section c
         /\ page_number c' = page_number c
         /\ text_length (metadata c') = text_length (metadata c)
         /\ image_count (metadata c') = len (images c')
         /\ has_images (metadata c') = (0 <? len (images c')).
Proof.
  intros He Hc Hi out. subst out. rewrite distribute_even by assumption.
  split; [apply length_imap|].
  intros i c Hic. eexists. rewrite list_lookup_imap, Hic. split; [reflexivity|].
  cbn [assign_images images chunk_id text source_file section page_number metadata
       text_length image_count has_images].
  split; [reflexivity|]. split; [intros p; apply In_slice|].
  repeat split.
Qed.

Lemma even_policy_overwrites_images_only_witness :
  let c0 := _create_chunk (lit "one") (lit "r.pdf") (lit "S") [lit "inline.png"] 1 in
  let c1 := _create_chunk (lit "two") (lit "r.pdf") (lit "S") [] 1 in
  let imgs := [lit "1.png"; lit "2.png"; lit "3.png"] in
  let out := _distribute_images_to_chunks (example_config 100 0 true true) [c0; c1] imgs in
  map images out = [[lit "1.png"]; [lit "2.png"; lit "3.png"]]
  /\ length out = 2%nat
  /\ exists c', out !! 0%nat = Some c'
       /\ images c' = even_slice imgs 2 0
       /\ (forall p, In p (images c') -> In p imgs)
       /\ chunk_id c' = chunk_id c0
       /\ text c' = text c0
       /\ source_file c' = source_file c0
       /\ section c' = section c0
       /\ page_number c' = page_number c0
       /\ text_length (metadata c') = text_length (metadata c0)
       /\ image_count (metadata c') = len (images c')
       /\ has_images (metadata c') = (0 <? len (images c')).
Proof.
  pose proof (even_policy_overwrites_images_only (example_config 100 0 true true)
    [_create_chunk (lit "one") (lit "r.pdf") (lit "S") [lit "inline.png"] 1;
     _create_chunk (lit "two") (lit "r.pdf") (lit "S") [] 1]
    [lit "1.png"; lit "2.png"; lit "3.png"]
    eq_refl ltac:(discriminate) ltac:(discriminate)) as [Hlen Hall].
  split; [vm_compute; reflexivity|]. split; [exact Hlen|].
  exact (Hall 0%nat _ eq_refl).
Defined.

(** The pdf pipeline end to end: the one [Image] block is positioned in
    the text with the first extracted file; the second file is an orphan,
    and distributing it overwrites the image list of the chunk, whose text
    keeps the token of the first. *)
Example pdf_orphan_replaces_inline_image :
  let block := fun c t p => {| category := c; block_text := t; block_page := p |} in
  exists c,
    _elements_to_chunks_optimized int_ascii (fun _ _ => false)
      (example_config 100 0 true true) 0
      [block (lit "Title") (Some (lit "T")) (Some 3);
       block (lit "NarrativeText") (Some (lit " aaaa ")) (Some 3);
       block (lit "Image") None None]
      (lit "r.pdf") [lit "out/a.png"; lit "out/b.png"]
    = Done [c]
    /\ text c = lines [lit "aaaa"; lit "[IMG:out/a.png]"]
    /\ images c = [lit "out/b.png"]
    /\ metadata c = {| has_images := true; image_count := 1; text_length := 20 |}
    /\ section c = lit "T"
    /\ page_number c = 3
    /\ chunk_id c = lit "8fff840c7fad".
Proof.
  eexists. split; [vm_compute; reflexivity|]. repeat split.
Qed.

(* ===================================================================== *)
(** * Progress of the character-window loop                               *)
(* ===================================================================== *)

Lemma fl_round_nonneg (m e : Z) : 0 <= m -> 0 <= fst (fl_round m e).
Proof.
  intros Hm. unfold fl_round.
  destruct (_ <=? 53); [exact Hm|]. cbn [fst].
  assert (0 <= Z.abs m ≫ ((if Z.abs m =? 0 then 0 else Z.log2 (Z.abs m) + 1) - 53))
    by (apply Z.shiftr_nonneg; lia).
  assert (0 <= Z.sgn m) by lia.
  destruct (_ || _); nia.
Qed.

Lemma times_0_7_nonneg (n : Z) : 0 <= n -> 0 <= fst (times_0_7 n).
Proof.
  intros Hn. unfold times_0_7.
  pose proof (fl_round_nonneg n 0 Hn) as H.
  destruct (fl_round n 0) as [m e]. cbn [fst] in H.
  apply fl_round_nonneg. lia.
Qed.

Lemma int_gt_float_pos (i : Z) (f : Z * Z) :
  0 <= fst f -> int_gt_float i f = true -> 1 <= i.
Proof.
  destruct f as [m e]. cbn [fst]. intros Hm. unfold int_gt_float.
  destruct (0 <=? e) eqn:He; intros H; apply Z.ltb_lt in H.
  - assert (0 <= m * 2 ^ e) by (apply Z.mul_nonneg_nonneg; [lia | apply Z.pow_nonneg; lia]).
    lia.
  - assert (0 < 2 ^ (- e)) by (apply Z.pow_pos_nonneg; lia). nia.
Qed.

Lemma cut_at_sentence_bounds (seps : list char) (window : pystr)
    (threshold : Z * Z) (start end_ : Z) :
  0 <= fst threshold -> start < end_ ->
  start < cut_at_sentence seps window threshold start end_.
Proof.
  intros Ht He. induction seps as [|sep rest IH]; cbn [cut_at_sentence]; [exact He|].
  destruct (int_gt_float _ _) eqn:E; [|exact IH].
  apply int_gt_float_pos in E; [lia | exact Ht].
Qed.

Lemma window_end_progress (config : ChunkingConfig) (t : pystr) (start : Z) :
  1 <= max_chunk_size config -> start < len t ->
  start < window_end config t start.
Proof.
  intros Hmax Hstart. unfold window_end.
  destruct (_ <? len t).
  - apply cut_at_sentence_bounds; [apply times_0_7_nonneg; lia | lia].
  - lia.
Qed.

Lemma next_start_progress (config : ChunkingConfig) (t : pystr) (start : Z) :
  1 <= max_chunk_size config \/ 1 <= chunk_overlap config ->
  start < len t ->
  start < next_start config t start (window_end config t start).
Proof.
  intros Hcfg Hstart. unfold next_start.
  destruct (Z.ltb_spec 0 (chunk_overlap config)) as [Ho|Ho];
    destruct (Z.ltb_spec (window_end config t start) (len t)) as [He|He];
    cbn [andb]; try lia.
  all: apply window_end_progress; [lia | assumption].
Qed.

Lemma char_step_start (config : ChunkingConfig) (t sf sec : pystr)
    (imgs : list pystr) (page start : Z) (chunks : list DocumentChunk) :
  fst (char_step config t sf sec imgs page start chunks)
  = next_start config t start (window_end config t start).
Proof. reflexivity. Qed.

Lemma char_loop_terminates (config : ChunkingConfig) (t sf sec : pystr)
    (imgs : list pystr) (page : Z) :
  1 <= max_chunk_size config \/ 1 <= chunk_overlap config ->
  forall fuel start chunks,
    (Z.to_nat (len t - start) <= fuel)%nat ->
    exists out, char_loop fuel config t sf sec imgs page start chunks = Done out.
Proof.
  intros Hcfg. induction fuel as [|fuel IH]; intros start chunks Hfuel.
  - exists chunks. apply char_loop_exit. lia.
  - rewrite char_loop_S. destruct (Z.ltb_spec start (len t)); [|eexists; reflexivity].
    cbv zeta. apply IH. rewrite char_step_start.
    pose proof (next_start_progress config t start Hcfg ltac:(assumption)). lia.
Qed.

Lemma char_loop_more_fuel (config : ChunkingConfig) (t sf sec : pystr)
    (imgs : list pystr) (page : Z) (out : list DocumentChunk) :
  forall fuel fuel' start chunks,
    (fuel <= fuel')%nat ->
    char_loop fuel config t sf sec imgs page start chunks = Done out ->
    char_loop fuel' config t sf sec imgs page start chunks = Done out.
Proof.
  induction fuel as [|fuel IH]; intros fuel' start chunks Hle.
  - cbn [char_loop]. destruct (Z.ltb_spec start (len t)); [discriminate|].
    intros [= <-]. apply char_loop_exit. assumption.
  - destruct fuel' as [|fuel']; [lia|]. rewrite !char_loop_S.
    destruct (start <? len t); [|auto]. cbv zeta. apply IH. lia.
Qed.

(** X21: when [max_chunk_size >= 1] or [chunk_overlap >= 1], for a
    [max_chunk_size] that [float()] accepts and a text, source file and
    section name without lone surrogates (so that neither
    [max_chunk_size * 0.7] nor [.encode()] raises), every iteration of the
    character-window loop moves [start] strictly forward: to
    [max(start + 1, end - chunk_overlap)] when [chunk_overlap > 0] and the
    window ends before the text does, to [end] otherwise; so the loop
    terminates, and [_split_by_characters] returns the same chunk list for
    every amount of fuel of at least [len(text)]. *)
Theorem char_windows_advance_and_terminate (config : ChunkingConfig)
    (t sf sec : pystr) (imgs : list pystr) (page : Z) :
  1 <= max_chunk_size config \/ 1 <= chunk_overlap config ->
  float_accepts (max_chunk_size config) = true ->
  encodable t = true -> encodable sf = true -> encodable sec = true ->
  (forall start chunks, start < len t ->
     let end_ := window_end config t start in
     let start' := fst (char_step config t sf sec imgs page start chunks) in
     start < start'
     /\ start' = (if (0 <? chunk_overlap config) && (end_ <? len t)
                  then Z.max (start + 1) (end_ - chunk_overlap config)
                  else end_))
  /\ exists chunks, forall fuel, (length t <= fuel)%nat ->
       _split_by_characters fuel config t sf sec imgs page = Done chunks.
Proof.
  intros Hcfg _ _ _ _. split.
  - intros start chunks Hstart end_ start'. subst end_ start'.
    rewrite char_step_start. split; [|reflexivity].
    apply next_start_progress; assumption.
  - destruct (char_loop_terminates config t sf sec imgs page Hcfg (length t) 0 [])
      as [out Hout]; [unfold len; lia|].
    exists out. intros fuel Hfuel. unfold _split_by_characters.
    eapply char_loop_more_fuel; [exact Hfuel | exact Hout].
Qed.

Lemma char_windows_advance_and_terminate_witness :
  let config := example_config 10 3 false true in
  let t := lit "abcdefgh. jklmnop" in
  (1 <= max_chunk_size config \/ 1 <= chunk_overlap config)
  /\ float_accepts (max_chunk_size config) = true
  /\ encodable t = true
  /\ (fst (char_step config t (lit "f") (lit "s") [] 0 0 []) = 6
      /\ window_end config t 0 = 9)
  /\ (forall start chunks, start < len t ->
        let end_ := window_end config t start in
        let start' := fst (char_step config t (lit "f") (lit "s") [] 0 start chunks) in
        start < start'
        /\ start' = (if (0 <? chunk_overlap config) && (end_ <? len t)
                     then Z.max (start + 1) (end_ - chunk_overlap config)
                     else end_))
  /\ exists chunks, forall fuel, (length t <= fuel)%nat ->
       _split_by_characters fuel config t (lit "f") (lit "s") [] 0 = Done chunks.
Proof.
  assert (H : 1 <= max_chunk_size (example_config 10 3 false true)
              \/ 1 <= chunk_overlap (example_config 10 3 false true))
    by (left; vm_compute; discriminate).
  split; [exact H|]. split; [reflexivity|]. split; [reflexivity|].
  split; [split; vm_compute; reflexivity|].
  exact (char_windows_advance_and_terminate (example_config 10 3 false true)
           (lit "abcdefgh. jklmnop") (lit "f") (lit "s") [] 0 H
           eq_refl eq_refl eq_refl eq_refl).
Defined.

(** C8: the character-window loop is not guaranteed to terminate.  With
    [max_chunk_size = 0] and [chunk_overlap = 0], a configuration that
    [ChunkingConfig] and the API schema accept, the window of the text
    ["a"] is empty ([end = min(0 + 0, 1) = 0]); the clamp
    [max(start + 1, end - chunk_overlap)] sits in the [chunk_overlap > 0]
    branch only, so the [else] branch sets [start = end = 0]: the state
    after an iteration is the state before it, and [while start <
    text_length] never exits, whatever the number of iterations allowed. *)
Lemma zero_window_never_advances :
  let config := example_config 0 0 false true in
  (max_chunk_size config = 0 /\ chunk_overlap config = 0)
  /\ window_end config (lit "a") 0 = 0
  /\ next_start config (lit "a") 0 0 = 0
  /\ char_step config (lit "a") (lit "f") (lit "s") [] 0 0 [] = (0, [])
  /\ forall fuel, _split_by_characters fuel config (lit "a") (lit "f") (lit "s") [] 0 = Spin.
Proof.
  split; [split; reflexivity|].
  split; [vm_compute; reflexivity|].
  split; [vm_compute; reflexivity|].
  split; [vm_compute; reflexivity|].
  unfold _split_by_characters.
  induction fuel as [|fuel IH]; [reflexivity|].
  rewrite char_loop_S. exact IH.
Qed.

(* ===================================================================== *)
(** * The size bound                                                      *)
(* ===================================================================== *)

(** C1: evaluation at the failing input.  With [max_chunk_size = 10],
    [force_max_size] set and no overlap, three 5-character paragraphs give
    a first chunk of 11 characters: the buffer is budgeted by the sum of the
    paragraph lengths (10) and joined with a newline that the budget does
    not count.  The chunk holds no fenced block and is no forced-split unit.
    In character mode a fenced block of 14 characters is cut in two. *)
Lemma joined_paragraphs_exceed_max_chunk_size :
  let config := example_config 10 0 true true in
  let t := lines [lit "aaaaa"; lit "bbbbb"; lit "ccccc"] in
  (force_max_size config = true /\ max_chunk_size config = 10)
  /\ (exists c1 c2,
        _split_text_with_overlap int_ascii config (lit "a.md") (lit "S") 0 0 t []
        = Done [c1; c2]
        /\ text c1 = lines [lit "aaaaa"; lit "bbbbb"]
        /\ len (text c1) = 11
        /\ contains fence (text c1) = false
        /\ text c2 = lit "ccccc")
  /\ (exists d1 d2,
        _split_text_with_overlap int_ascii (example_config 10 0 false true)
          (lit "a.md") (lit "S") 0 2 (lit "```abcdefgh```") []
        = Done [d1; d2]
        /\ text d1 = lit "```abcdefg"
        /\ text d2 = lit "h```").
Proof.
  split; [split; reflexivity|]. split.
  - eexists _, _. split; [vm_compute; reflexivity|]. repeat split.
  - eexists _, _. split; [vm_compute; reflexivity|]. repeat split.
Qed.

(* ===================================================================== *)
(** * Size of the character windows                                       *)
(* ===================================================================== *)

Lemma rfind_from_le (c : char) (s : pystr) (i best : Z) :
  rfind_from c s i best <= Z.max best (i + len s - 1).
Proof.
  revert i best. induction s as [|x s IH]; intros i best; cbn [rfind_from].
  - unfold len. cbn. lia.
  - specialize (IH (i + 1) (if char_eqb x c then i else best)).
    unfold len in *. cbn [length]. destruct (char_eqb x c); lia.
Qed.

Lemma rfind_lt_len (c : char) (s : pystr) : rfind c s < len s.
Proof.
  unfold rfind. pose proof (rfind_from_le c s 0 (-1)). unfold len in *. lia.
Qed.

Lemma len_lstrip (s : pystr) : len (lstrip s) <= len s.
Proof.
  unfold len. induction s as [|x s IH]; cbn [lstrip]; [lia|].
  destruct (isspace x); cbn [length] in *; lia.
Qed.

Lemma len_strip (s : pystr) : len (strip s) <= len s.
Proof.
  unfold strip, rstrip. pose proof (len_lstrip (rev (lstrip s))) as H1.
  pose proof (len_lstrip s) as H2. unfold len in *.
  rewrite length_rev in *. lia.
Qed.

Lemma len_slice_le {A} (l : list A) (lo hi : Z) :
  0 <= lo -> 0 <= hi -> len (slice l lo hi) <= Z.max 0 (hi - lo).
Proof.
  intros Hlo Hhi. rewrite slice_nonneg by assumption. unfold len.
  rewrite length_take. lia.
Qed.

Lemma cut_at_sentence_le (seps : list char) (window : pystr)
    (threshold : Z * Z) (start end_ : Z) :
  len window <= end_ - start ->
  cut_at_sentence seps window threshold start end_ <= end_.
Proof.
  intros Hw. induction seps as [|sep rest IH]; cbn [cut_at_sentence]; [lia|].
  destruct (int_gt_float _ _); [|exact IH].
  pose proof (rfind_lt_len sep window). lia.
Qed.

Lemma window_end_bounds (config : ChunkingConfig) (t : pystr) (start : Z) :
  0 <= max_chunk_size config -> 0 <= start < len t ->
  start <= window_end config t start <= start + max_chunk_size config.
Proof.
  intros Hmax Hstart. unfold window_end.
  set (end_ := Z.min (start + max_chunk_size config) (len t)).
  destruct (end_ <? len t); [|lia].
  split.
  - destruct (Z.eq_dec end_ start) as [E|E].
    + assert (Hw : slice t start end_ = []).
      { rewrite E, slice_nonneg by lia. rewrite Nat.sub_diag. reflexivity. }
      rewrite Hw.
      assert (forall seps thr, 0 <= fst thr ->
                start <= cut_at_sentence seps [] thr start end_) as Hcut.
      { intros seps thr Hthr. induction seps as [|sep rest IH];
          cbn [cut_at_sentence]; [lia|].
        destruct (int_gt_float _ _) eqn:G; [|exact IH].
        apply int_gt_float_pos in G; [|exact Hthr]. lia. }
      apply Hcut. apply times_0_7_nonneg. exact Hmax.
    + apply Z.lt_le_incl. apply cut_at_sentence_bounds;
        [apply times_0_7_nonneg; exact Hmax | lia].
  - pose proof (cut_at_sentence_le sentence_seps (slice t start end_)
                  (times_0_7 (max_chunk_size config)) start end_) as H.
    pose proof (len_slice_le t start end_). lia.
Qed.

Lemma next_start_nonneg (config : ChunkingConfig) (t : pystr) (start end_ : Z) :
  0 <= start <= end_ -> 0 <= next_start config t start end_.
Proof.
  intros H. unfold next_start. destruct (andb _ _); lia.
Qed.

(** With [max_chunk_size >= 0], no chunk of
    [_split_by_characters] is longer than [max_chunk_size]. *)
Lemma char_loop_fits (config : ChunkingConfig) (t sf sec : pystr)
    (imgs : list pystr) (page : Z) :
  0 <= max_chunk_size config ->
  forall fuel start chunks out,
    0 <= start ->
    Forall (fun c => len (text c) <= max_chunk_size config) chunks ->
    char_loop fuel config t sf sec imgs page start chunks = Done out ->
    Forall (fun c => len (text c) <= max_chunk_size config) out.
Proof.
  intros Hmax. induction fuel as [|fuel IH]; intros start chunks out Hstart Hall.
  - cbn [char_loop]. destruct (start <? len t); [discriminate|].
    intros [= <-]. exact Hall.
  - rewrite char_loop_S. destruct (Z.ltb_spec start (len t)); [|intros [= <-]; exact Hall].
    cbv zeta. pose proof (window_end_bounds config t start Hmax ltac:(lia)) as Hw.
    apply IH.
    + rewrite char_step_start. apply next_start_nonneg. lia.
    + unfold char_step. cbn [snd].
      destruct (strip (slice t start (window_end config t start))) as [|x s] eqn:E;
        [exact Hall|].
      apply Forall_app. split; [exact Hall|]. repeat constructor.
      cbn [_create_chunk text]. rewrite <- E.
      pose proof (len_strip (slice t start (window_end config t start))).
      pose proof (len_slice_le t start (window_end config t start)). lia.
Qed.

(** X1: every chunk the character-window splitter returns is within
    [max_chunk_size], for every text and every non-negative bound. *)
Theorem character_windows_fit (config : ChunkingConfig) (fuel : nat)
    (t sf sec : pystr) (imgs : list pystr) (page : Z) (chunks : list DocumentChunk) :
  0 <= max_chunk_size config ->
  _split_by_characters fuel config t sf sec imgs page = Done chunks ->
  Forall (fun c => len (text c) <= max_chunk_size config) chunks.
Proof.
  intros Hmax H. unfold _split_by_characters in H.
  eapply char_loop_fits; [exact Hmax | | | exact H]; [lia | constructor].
Qed.

Lemma character_windows_fit_witness :
  let config := example_config 10 3 false true in
  let run := _split_by_characters 17 config (lit "abcdefgh. jklmnop")
               (lit "f") (lit "s") [] 0 in
  let mk := fun x => _create_chunk x (lit "f") (lit "s") [] 0 in
  run = Done [mk (lit "abcdefgh."); mk (lit "gh. jklmno"); mk (lit "mnop")]
  /\ Forall (fun c => len (text c) <= max_chunk_size config)
       [mk (lit "abcdefgh."); mk (lit "gh. jklmno"); mk (lit "mnop")].
Proof.
  split; [vm_compute; reflexivity|].
  apply (character_windows_fit (example_config 10 3 false true) 17
           (lit "abcdefgh. jklmnop") (lit "f") (lit "s") [] 0).
  - vm_compute. discriminate.
  - vm_compute. reflexivity.
Defined.

(* ===================================================================== *)
(** * Overlap seeding in paragraph mode                                   *)
(* ===================================================================== *)

Section Overlap.

Variable py_int : pystr -> option Z.
Variable config : ChunkingConfig.
Variables (sf sec : pystr) (page : Z).
Variable fuel : nat.
Variables code_blocks imgs : list pystr.

Local Abbreviation step := (para_step py_int config sf sec page fuel code_blocks imgs).
Local Abbreviation loop := (para_loop py_int config sf sec page fuel code_blocks imgs).
Local Abbreviation flush' := (flush sf sec page code_blocks imgs).







End Overlap.





(* ===================================================================== *)
(** * Joining and splitting on newlines                                   *)
(* ===================================================================== *)












(* ===================================================================== *)
(** * Reconstruction of a section from its chunks                         *)
(* ===================================================================== *)

Section Reconstruct.

Variable py_int : pystr -> option Z.
Variable config : ChunkingConfig.
Variables (sf sec : pystr) (page : Z).
Variable fuel : nat.
Variable imgs : list pystr.

Local Abbreviation ov := (0 <? chunk_overlap config).
Local Abbreviation nl := [newline].
Local Abbreviation loop := (para_loop py_int config sf sec page fuel [] imgs).

Lemma actual_len_plain (code_blocks : list pystr) (p : pystr) :
  is_code_placeholder p = false -> actual_len py_int code_blocks p = Done (len p).
Proof. intros H. unfold actual_len. rewrite H. reflexivity. Qed.

Lemma para_step_plain (chunks : list DocumentChunk) (buf : list pystr) (cl : Z)
    (p : pystr) :
  plain_unit config p ->
  para_step py_int config sf sec page fuel [] imgs (chunks, buf, cl) p
  = if max_chunk_size config <? cl + len p then
      Done (flush sf sec page [] imgs chunks buf,
            match (if ov then last buf else None) with
            | Some u => [u; p]
            | None => [p]
            end,
            match (if ov then last buf else None) with
            | Some u => len u + len p
            | None => len p
            end)
    else Done (chunks, buf ++ [p], cl + len p).
Proof.
  intros [Hp Hlen]. unfold para_step. rewrite actual_len_plain by assumption.
  cbn [mbind outcome_bind]. rewrite Hp.
  destruct (Z.ltb_spec (max_chunk_size config) (len p)); [lia|].
  cbn [andb negb]. rewrite andb_true_r.
  destruct (max_chunk_size config <? cl + len p); [|reflexivity].
  destruct (if ov then last buf else None); reflexivity.
Qed.




End Reconstruct.




(* ===================================================================== *)
(** * Metadata of the chunks                                              *)
(* ===================================================================== *)

Lemma create_chunk_consistent (t sf sec : pystr) (imgs : list pystr) (page : Z) :
  metadata_consistent (_create_chunk t sf sec imgs page).
Proof. repeat split. Qed.

Lemma emitted_consistent (sf sec : pystr) (page : Z) (imgs : list pystr)
    (chunks : list DocumentChunk) :
  emitted sf sec page imgs chunks -> Forall metadata_consistent chunks.
Proof.
  destruct chunks as [|c rest]; simpl; [constructor|].
  intros [[t [-> | ->]] Hrest]; (constructor; [apply create_chunk_consistent|]);
    (eapply Forall_impl; [exact Hrest|]);
    intros c' [t' ->]; apply create_chunk_consistent.
Qed.

Lemma sections_to_chunks_consistent (py_int : pystr -> option Z)
    (config : ChunkingConfig) (fuel : nat) (sf : pystr)
    (sections : list SectionData) :
  forall chunks out,
    Forall metadata_consistent chunks ->
    sections_to_chunks py_int config fuel sf sections chunks = Done out ->
    Forall metadata_consistent out.
Proof.
  induction sections as [|info rest IH]; intros chunks out H.
  - cbn. intros [= <-]. assumption.
  - cbn [sections_to_chunks].
    destruct (section_chunks _ _ _ _ _) as [sub| |] eqn:Hsub; cbn; try discriminate.
    apply IH. apply Forall_app. split; [assumption|].
    unfold section_chunks in Hsub. destruct (Z.ltb _ _).
    + eapply emitted_consistent, segmenter_emits, Hsub.
    + destruct (is_nonempty _); injection Hsub as <-; repeat constructor.
Qed.

Lemma distribute_consistent (config : ChunkingConfig)
    (chunks : list DocumentChunk) (imgs : list pystr) :
  Forall metadata_consistent chunks ->
  Forall metadata_consistent (_distribute_images_to_chunks config chunks imgs).
Proof.
  intros H. unfold _distribute_images_to_chunks.
  destruct imgs as [|img imgs]; [exact H|].
  destruct chunks as [|c0 rest]; [exact H|].
  destruct (distribute_images_evenly config).
  - apply Forall_lookup_2. intros i c Hic. rewrite list_lookup_imap in Hic.
    destruct ((c0 :: rest) !! i) as [c'|] eqn:E; [|discriminate].
    injection Hic as <-.
    destruct (Forall_lookup_1 _ _ _ _ H E) as (_ & _ & Ht).
    repeat split. exact Ht.
  - inversion H as [|? ? (_ & _ & Ht) Hrest]; subst.
    constructor; [|exact Hrest]. repeat split. exact Ht.
Qed.

(** X2: every chunk returned by the segmenter, by the docx pipeline and by the
    pdf pipeline (orphan images distributed, under either policy) has
    [has_images], [image_count] and [text_length] equal to what its own
    [images] and [text] give; the distributor keeps this on any list that
    has it. *)
Theorem metadata_stays_consistent :
  (forall py_int config sf sec page fuel t imgs chunks,
      _split_text_with_overlap py_int config sf sec page fuel t imgs = Done chunks ->
      Forall metadata_consistent chunks)
  /\ (forall py_int re_match config fuel elements sf chunks,
        _docx_elements_to_chunks py_int re_match config fuel elements sf = Done chunks ->
        Forall metadata_consistent chunks)
  /\ (forall py_int re_match config fuel elements sf extracted chunks,
        _elements_to_chunks_optimized py_int re_match config fuel elements sf extracted
          = Done chunks ->
        Forall metadata_consistent chunks)
  /\ (forall config chunks imgs,
        Forall metadata_consistent chunks ->
        Forall metadata_consistent (_distribute_images_to_chunks config chunks imgs)).
Proof.
  split; [|split; [|split]].
  - intros * H. eapply emitted_consistent, segmenter_emits, H.
  - intros * H. unfold _docx_elements_to_chunks in H.
    eapply sections_to_chunks_consistent; [|exact H]. constructor.
  - intros * H. unfold _elements_to_chunks_optimized in H.
    destruct (fold_left _ _ _) as [[sections0 section_data] image_index].
    destruct (sections_to_chunks _ _ _ _ _ _) as [out| |] eqn:Hout; cbn in H;
      try discriminate.
    apply sections_to_chunks_consistent in Hout; [|constructor].
    destruct (andb _ _); injection H as <-; [apply distribute_consistent|]; exact Hout.
  - intros *. apply distribute_consistent.
Qed.

Lemma metadata_stays_consistent_witness :
  let block := fun c t => {| category := c; block_text := t; block_page := Some 3 |} in
  let c := assign_images
             (_create_chunk (lines [lit "aaaa"; lit "[IMG:out/a.png]"]) (lit "r.pdf")
                (lit "T") [lit "out/a.png"] 3)
             [lit "out/b.png"; lit "out/c.png"] true in
  _elements_to_chunks_optimized int_ascii (fun _ _ => false)
    (example_config 100 0 true false) 0
    [block (lit "Title") (Some (lit "T"));
     block (lit "NarrativeText") (Some (lit " aaaa "));
     block (lit "Image") None]
    (lit "r.pdf") [lit "out/a.png"; lit "out/b.png"; lit "out/c.png"]
  = Done [c]
  /\ Forall metadata_consistent [c].
Proof.
  split; [vm_compute; reflexivity|].
  apply (proj1 (proj2 (proj2 metadata_stays_consistent))
           int_ascii (fun _ _ => false) (example_config 100 0 true false) 0%nat
           [ {| category := lit "Title"; block_text := Some (lit "T"); block_page := Some 3 |};
             {| category := lit "NarrativeText"; block_text := Some (lit " aaaa ");
                block_page := Some 3 |};
             {| category := lit "Image"; block_text := None; block_page := Some 3 |} ]
           (lit "r.pdf") [lit "out/a.png"; lit "out/b.png"; lit "out/c.png"]).
  vm_compute. reflexivity.
Defined.

(* ===================================================================== *)
(** * What the distributor leaves alone                                   *)
(* ===================================================================== *)

Lemma assign_images_keeps (c : DocumentChunk) (imgs : list pystr) (has : bool) :
  chunk_id (assign_images c imgs has) = chunk_id c
  /\ text (assign_images c imgs has) = text c
  /\ source_file (assign_images c imgs has) = source_file c
  /\ section (assign_images c imgs has) = section c
  /\ page_number (assign_images c imgs has) = page_number c.
Proof. repeat split. Qed.

(** X3: whatever the policy, the distributor returns as many chunks as it was
    given, in the same order, with the same [chunk_id], [text],
    [source_file], [section], [page_number] and metadata entry
    [text_length]: of a chunk it changes the image list and the metadata
    entries [has_images] and [image_count] only.  It returns the list
    untouched when there is no orphan image or no chunk; and under the
    concentrate policy the first chunk receives the whole orphan list while
    every other chunk is returned as it was. *)
Theorem distributor_touches_images_only (config : ChunkingConfig)
    (chunks : list DocumentChunk) (imgs : list pystr) :
  let out := _distribute_images_to_chunks config chunks imgs in
  length out = length chunks
  /\ map chunk_id out = map chunk_id chunks
  /\ map text out = map text chunks
  /\ map source_file out = map source_file chunks
  /\ map section out = map section chunks
  /\ map page_number out = map page_number chunks
  /\ map (fun c => text_length (metadata c)) out
     = map (fun c => text_length (metadata c)) chunks
  /\ (imgs = [] \/ chunks = [] -> out = chunks)
  /\ (distribute_images_evenly config = false -> imgs <> [] ->
      forall first rest, chunks = first :: rest ->
        exists first', out = first' :: rest
          /\ images first' = imgs
          /\ image_count (metadata first') = len imgs
          /\ has_images (metadata first') = true).
Proof.
  intros out.
  assert (Hlength : map (fun c => text_length (metadata c)) out
                    = map (fun c => text_length (metadata c)) chunks).
  { subst out. unfold _distribute_images_to_chunks.
    destruct imgs as [|img imgs]; [reflexivity|].
    destruct chunks as [|c0 rest]; [reflexivity|].
    destruct (distribute_images_evenly config); [|reflexivity].
    apply list_eq. intros i. rewrite !list_lookup_fmap, list_lookup_imap.
    destruct ((c0 :: rest) !! i); reflexivity. }
  assert (Hkeep : forall f : DocumentChunk -> pystr,
            (forall c i h, f (assign_images c i h) = f c) -> map f out = map f chunks).
  { intros f Hf. subst out. unfold _distribute_images_to_chunks.
    destruct imgs as [|img imgs]; [reflexivity|].
    destruct chunks as [|c0 rest]; [reflexivity|].
    destruct (distribute_images_evenly config).
    - apply list_eq. intros i. rewrite !list_lookup_fmap, list_lookup_imap.
      destruct ((c0 :: rest) !! i); [cbn; rewrite Hf|]; reflexivity.
    - cbn [map]. rewrite Hf. reflexivity. }
  assert (Hpage : map page_number out = map page_number chunks).
  { subst out. unfold _distribute_images_to_chunks.
    destruct imgs as [|img imgs]; [reflexivity|].
    destruct chunks as [|c0 rest]; [reflexivity|].
    destruct (distribute_images_evenly config); [|reflexivity].
    apply list_eq. intros i. rewrite !list_lookup_fmap, list_lookup_imap.
    destruct ((c0 :: rest) !! i); reflexivity. }
  split.
  { rewrite <- (length_map page_number out), Hpage. apply length_map. }
  split; [apply Hkeep; reflexivity|]. split; [apply Hkeep; reflexivity|].
  split; [apply Hkeep; reflexivity|]. split; [apply Hkeep; reflexivity|].
  split; [exact Hpage|]. split; [exact Hlength|]. split.
  - subst out. unfold _distribute_images_to_chunks.
    intros [-> | ->]; [reflexivity | destruct imgs; reflexivity].
  - intros Hpol Himgs first rest ->. subst out. unfold _distribute_images_to_chunks.
    rewrite Hpol. destruct imgs as [|img imgs]; [contradiction|].
    eexists. split; [reflexivity|]. repeat split.
Qed.

Lemma distributor_touches_images_only_witness :
  let c0 := _create_chunk (lit "one") (lit "r.pdf") (lit "S") [lit "inline.png"] 1 in
  let c1 := _create_chunk (lit "two") (lit "r.pdf") (lit "S") [lit "kept.png"] 1 in
  let imgs := [lit "1.png"; lit "2.png"] in
  let out := _distribute_images_to_chunks (example_config 100 0 true false) [c0; c1] imgs in
  map images out = [[lit "1.png"; lit "2.png"]; [lit "kept.png"]]
  /\ map (fun c => text_length (metadata c)) out = [3; 3]
  /\ exists first', out = first' :: [c1]
       /\ images first' = imgs
       /\ image_count (metadata first') = len imgs
       /\ has_images (metadata first') = true.
Proof.
  split; [vm_compute; reflexivity|].
  pose proof (distributor_touches_images_only (example_config 100 0 true false)
    [_create_chunk (lit "one") (lit "r.pdf") (lit "S") [lit "inline.png"] 1;
     _create_chunk (lit "two") (lit "r.pdf") (lit "S") [lit "kept.png"] 1]
    [lit "1.png"; lit "2.png"]) as (_ & _ & _ & _ & _ & _ & Hlength & _ & H).
  split; [exact Hlength|].
  exact (H eq_refl ltac:(discriminate) _ _ eq_refl).
Defined.

(* ===================================================================== *)
(** * Identifiers repeated by the overlap                                 *)
(* ===================================================================== *)



(* ===================================================================== *)
(** * Termination and exceptions of the segmenter                         *)
(* ===================================================================== *)

Section Totality.

Variable py_int : pystr -> option Z.
Variable config : ChunkingConfig.
Variables (sf sec : pystr) (page : Z).
Hypothesis Hprogress : 1 <= max_chunk_size config \/ 1 <= chunk_overlap config.

Lemma split_by_characters_total (t : pystr) (imgs : list pystr) :
  exists out, forall fuel, (length t <= fuel)%nat ->
    _split_by_characters fuel config t sf sec imgs page = Done out.
Proof.
  destruct (char_loop_terminates config t sf sec imgs page Hprogress (length t) 0 [])
    as [out Hout]; [unfold len; lia|].
  exists out. intros fuel Hfuel. unfold _split_by_characters.
  eapply char_loop_more_fuel; [exact Hfuel | exact Hout].
Qed.

Lemma actual_len_cases (code_blocks : list pystr) (para : pystr) :
  (exists a, actual_len py_int code_blocks para = Done a)
  \/ (actual_len py_int code_blocks para = Raised IndexError
      /\ index_out_of_range py_int code_blocks para).
Proof.
  unfold actual_len, index_out_of_range.
  destruct (is_code_placeholder para); [|eauto].
  destruct (py_int _) as [idx|]; [|eauto].
  destruct (Z.ltb_spec idx (len code_blocks)); [|eauto].
  unfold index, len in *.
  destruct (Z.ltb_spec idx 0).
  - destruct (Z.leb_spec 0 (idx + Z.of_nat (length code_blocks))).
    + destruct (lookup_lt_is_Some_2 code_blocks
                  (Z.to_nat (idx + Z.of_nat (length code_blocks)))) as [b ->]; [lia|].
      eauto.
    + right. split; [reflexivity|]. split; [reflexivity|]. exists idx. split; [reflexivity|lia].
  - destruct (lookup_lt_is_Some_2 code_blocks (Z.to_nat idx)) as [b ->]; [lia|]. eauto.
Qed.

(** One paragraph: the step returns, or raises [IndexError] on an index out
    of range, the same for every fuel that covers a forced split. *)
Lemma para_step_total (code_blocks imgs : list pystr) (st : seg_state) (para : pystr) :
  exists r,
    ((exists st', r = Done st')
     \/ (r = Raised IndexError /\ index_out_of_range py_int code_blocks para))
    /\ forall fuel, (length (restore_code_blocks code_blocks para) <= fuel)%nat ->
         para_step py_int config sf sec page fuel code_blocks imgs st para = r.
Proof.
  destruct st as [[chunks buf] cl]. unfold para_step.
  destruct (actual_len_cases code_blocks para) as [[a ->] | [-> Hbad]].
  - cbn [mbind outcome_bind]. destruct (andb _ _).
    + destruct (split_by_characters_total (restore_code_blocks code_blocks para) [])
        as [sub Hsub].
      eexists. split; [left; eexists; reflexivity|].
      intros fuel Hfuel. rewrite (Hsub fuel Hfuel). reflexivity.
    + destruct (Z.ltb _ _).
      * destruct (if andb _ _ then last buf else None);
          (eexists; split; [left; eexists; reflexivity | reflexivity]).
      * eexists; split; [left; eexists; reflexivity | reflexivity].
  - exists (Raised IndexError). split; [right; split; [reflexivity | exact Hbad]|].
    reflexivity.
Qed.

Lemma para_loop_total (code_blocks imgs paragraphs : list pystr) :
  forall st, exists r,
    ((exists st', r = Done st')
     \/ (r = Raised IndexError
         /\ Exists (index_out_of_range py_int code_blocks) paragraphs))
    /\ forall fuel, (forced_split_fuel code_blocks paragraphs <= fuel)%nat ->
         para_loop py_int config sf sec page fuel code_blocks imgs paragraphs st = r.
Proof.
  induction paragraphs as [|para rest IH]; intros st.
  - exists (Done st). split; [left; eexists; reflexivity | reflexivity].
  - destruct (para_step_total code_blocks imgs st para) as (r1 & [[st1 ->] | [-> Hbad]] & Hstep).
    + destruct (IH st1) as (r & Hr & Hloop). exists r. split.
      * destruct Hr as [Hr | [-> Hbad]]; [left; exact Hr|].
        right. split; [reflexivity|]. apply Exists_cons_tl. exact Hbad.
      * intros fuel Hfuel.
        change (forced_split_fuel code_blocks (para :: rest))
          with (length (restore_code_blocks code_blocks para)
                + forced_split_fuel code_blocks rest)%nat in Hfuel.
        cbn [para_loop]. rewrite Hstep by lia. cbn [mbind outcome_bind].
        apply Hloop. lia.
    + exists (Raised IndexError). split.
      * right. split; [reflexivity|]. apply Exists_cons_hd. exact Hbad.
      * intros fuel Hfuel.
        change (forced_split_fuel code_blocks (para :: rest))
          with (length (restore_code_blocks code_blocks para)
                + forced_split_fuel code_blocks rest)%nat in Hfuel.
        cbn [para_loop]. rewrite Hstep by lia. reflexivity.
Qed.

End Totality.

(** X5: take a [max_chunk_size] that [float()] accepts
    ([|max_chunk_size| < 2^1024 - 2^970], so that [max_chunk_size * 0.7]
    raises no [OverflowError]) and a text, source file and section name
    without lone surrogates (so that [.encode()] raises no
    [UnicodeEncodeError]).  When moreover [max_chunk_size >= 1] or
    [chunk_overlap >= 1], the segmenter terminates: from some amount of fuel
    on its outcome no longer changes, and it is a list of chunks, unless,
    in paragraph mode, a paragraph of the protected text looks like a
    code-block placeholder whose index parses below [-len(code_blocks)];
    then, and on these inputs only then, the uncaught [IndexError] of
    [code_blocks[idx]] comes out. *)
Theorem segmenter_returns_or_raises_index_error
    (py_int : pystr -> option Z) (config : ChunkingConfig)
    (sf sec : pystr) (page : Z) (t : pystr) (imgs : list pystr) :
  float_accepts (max_chunk_size config) = true ->
  encodable t = true -> encodable sf = true -> encodable sec = true ->
  1 <= max_chunk_size config \/ 1 <= chunk_overlap config ->
  exists r fuel0,
    (forall fuel, (fuel0 <= fuel)%nat ->
       _split_text_with_overlap py_int config sf sec page fuel t imgs = r)
    /\ ((exists chunks, r = Done chunks)
        \/ (r = Raised IndexError
            /\ split_by_paragraph config = true
            /\ max_chunk_size config < len t
            /\ Exists (index_out_of_range py_int (snd (protect_code_blocks t)))
                 (paragraphs_of (fst (protect_code_blocks t))))).
Proof.
  intros _ _ _ _ Hprogress. unfold _split_text_with_overlap.
  destruct (protect_code_blocks t) as [protected_text code_blocks]. cbn [fst snd].
  destruct (Z.leb_spec (len t) (max_chunk_size config)).
  - eexists _, 0%nat. split; [reflexivity | left; eexists; reflexivity].
  - destruct (split_by_paragraph config).
    + destruct (para_loop_total py_int config sf sec page Hprogress code_blocks imgs
                  (paragraphs_of protected_text) ([], [], 0))
        as (r & [[[[chunks buf] cl] ->] | [-> Hbad]] & Hloop).
      * eexists _, (forced_split_fuel code_blocks (paragraphs_of protected_text)).
        split; [intros fuel Hfuel; rewrite (Hloop fuel Hfuel); reflexivity|].
        left. eexists. reflexivity.
      * eexists _, (forced_split_fuel code_blocks (paragraphs_of protected_text)).
        split; [intros fuel Hfuel; rewrite (Hloop fuel Hfuel); reflexivity|].
        right. split; [reflexivity|]. split; [reflexivity|]. split; [assumption | exact Hbad].
    + destruct (split_by_characters_total config sf sec page Hprogress t imgs) as [out Hout].
      exists (Done out), (length t). split; [exact Hout | left; eexists; reflexivity].
Qed.

Lemma segmenter_returns_or_raises_index_error_witness :
  let config := example_config 12 1 true true in
  let t := lines [lit "aaaa"; lit "__CODE_BLOCK_-1__"; lit "bbbb"] in
  _split_text_with_overlap int_ascii config (lit "a.md") (lit "S") 0 0 t []
    = Raised IndexError
  /\ float_accepts (max_chunk_size config) = true
  /\ encodable t = true
  /\ exists r fuel0,
       (forall fuel, (fuel0 <= fuel)%nat ->
          _split_text_with_overlap int_ascii config (lit "a.md") (lit "S") 0 fuel t [] = r)
       /\ ((exists chunks, r = Done chunks)
           \/ (r = Raised IndexError
               /\ split_by_paragraph config = true
               /\ max_chunk_size config < len t
               /\ Exists (index_out_of_range int_ascii (snd (protect_code_blocks t)))
                    (paragraphs_of (fst (protect_code_blocks t))))).
Proof.
  split; [vm_compute; reflexivity|].
  split; [reflexivity|]. split; [reflexivity|].
  apply (segmenter_returns_or_raises_index_error int_ascii (example_config 12 1 true true)
           (lit "a.md") (lit "S") 0
           (lines [lit "aaaa"; lit "__CODE_BLOCK_-1__"; lit "bbbb"]) []);
    [reflexivity | reflexivity | reflexivity | reflexivity |].
  left. vm_compute. discriminate.
Defined.

(* ===================================================================== *)
(** * Blank texts                                                         *)
(* ===================================================================== *)

Lemma blank_app (a b : pystr) : blank (a ++ b) = blank a && blank b.
Proof. apply forallb_app. Qed.

Lemma blank_rev (s : pystr) : blank (rev s) = blank s.
Proof.
  induction s as [|c s IH]; [reflexivity|].
  simpl rev. rewrite blank_app, IH. simpl. rewrite andb_true_r. apply andb_comm.
Qed.

Lemma blank_lstrip (s : pystr) : blank (lstrip s) = blank s.
Proof.
  induction s as [|c s IH]; [reflexivity|]. simpl.
  destruct (isspace c) eqn:E; [exact IH|]. simpl. rewrite E. reflexivity.
Qed.

Lemma lstrip_nil (s : pystr) : lstrip s = [] <-> blank s = true.
Proof.
  induction s as [|c s IH]; simpl; [tauto|].
  destruct (isspace c); simpl; [exact IH|]. split; discriminate.
Qed.

Lemma blank_strip (s : pystr) : blank (strip s) = blank s.
Proof.
  unfold strip, rstrip. rewrite blank_rev, blank_lstrip, blank_rev. apply blank_lstrip.
Qed.

(** [not s.strip()] holds exactly for the blank texts. *)
Lemma strip_nil (s : pystr) : strip s = [] <-> blank s = true.
Proof.
  unfold strip, rstrip. split.
  - intros H. apply (f_equal (@rev char)) in H. rewrite rev_involutive in H. simpl in H.
    apply lstrip_nil in H. rewrite blank_rev, blank_lstrip in H. exact H.
  - intros H. rewrite <- blank_lstrip, <- blank_rev in H. apply lstrip_nil in H.
    rewrite H. reflexivity.
Qed.

Lemma strip_nonblank (s : pystr) : is_nonempty (strip s) = true -> blank (strip s) = false.
Proof.
  intros H. destruct (blank (strip s)) eqn:E; [|reflexivity].
  rewrite blank_strip in E. apply strip_nil in E. rewrite E in H. discriminate.
Qed.

Lemma blank_join_cons (sep p : pystr) (rest : list pystr) :
  blank p = false -> blank (join sep (p :: rest)) = false.
Proof.
  intros H. destruct rest as [|q rest]; [exact H|].
  cbn [join]. rewrite blank_app, H. reflexivity.
Qed.

Lemma replace_go_nonblank (old new s : pystr) (skip : nat) :
  blank new = false -> blank (drop skip s) = false ->
  blank (replace_go old new s skip) = false.
Proof.
  intros Hnew. revert skip. induction s as [|c s IH]; intros skip H.
  - rewrite drop_nil in H. discriminate.
  - cbn [replace_go]. destruct skip as [|k].
    + destruct (startswith old (c :: s)).
      * rewrite blank_app, Hnew. reflexivity.
      * simpl in H |- *. destruct (isspace c); [|reflexivity]. simpl in *.
        apply IH. exact H.
    + apply IH. exact H.
Qed.

Lemma replace_nonblank (old new s : pystr) :
  blank new = false -> blank s = false -> blank (replace old new s) = false.
Proof.
  intros Hnew Hs. unfold replace. destruct old.
  - rewrite blank_app, Hnew. reflexivity.
  - apply replace_go_nonblank; assumption.
Qed.

Lemma restore_nonblank (code_blocks : list pystr) (t : pystr) :
  Forall (fun b => blank b = false) code_blocks ->
  blank t = false -> blank (restore_code_blocks code_blocks t) = false.
Proof.
  unfold restore_code_blocks. generalize 0%nat as i.
  intros i H. revert i t. induction H as [|b rest Hb _ IH]; intros i t Ht; [exact Ht|].
  cbn [restore_from]. apply IH. apply replace_nonblank; assumption.
Qed.

(** A fenced block starts with a backquote. *)
Lemma protect_go_blocks_nonblank (s : pystr) :
  forall skip n, Forall (fun b => blank b = false) (snd (protect_go s skip n)).
Proof.
  induction s as [|c s IH]; intros skip n; [constructor|].
  cbn [protect_go]. destruct skip as [|k]; [|apply IH].
  destruct (fence_match (c :: s)) as [m|] eqn:Hm.
  - specialize (IH (m - 1)%nat (S n)). destruct (protect_go s (m - 1) (S n)) as [out blocks].
    cbn [snd] in *. constructor; [|exact IH].
    unfold fence_match in Hm. destruct (startswith fence (c :: s)) eqn:Hs; [|discriminate].
    destruct (find fence (drop 3 (c :: s))) as [k|]; [|discriminate].
    injection Hm as <-. cbn in Hs. apply andb_true_iff in Hs as [Hc _].
    apply N.eqb_eq in Hc. subst c. reflexivity.
  - specialize (IH 0%nat n). destruct (protect_go s 0 n) as [out blocks]. exact IH.
Qed.

Lemma paragraphs_nonblank (protected_text : pystr) :
  Forall (fun p => blank p = false) (paragraphs_of protected_text).
Proof.
  unfold paragraphs_of. apply Forall_forall. intros p Hp.
  apply list_elem_of_In, filter_In in Hp as [Hin Hne]. apply in_map_iff in Hin as (s & <- & _).
  apply strip_nonblank. exact Hne.
Qed.

(* ===================================================================== *)
(** * No blank chunk                                                      *)
(* ===================================================================== *)

Section HasText.

Variable py_int : pystr -> option Z.
Variable config : ChunkingConfig.
Variables (sf sec : pystr) (page : Z).

Lemma char_step_has_text text imgs start chunks :
  Forall has_text chunks ->
  Forall has_text (snd (char_step config text sf sec imgs page start chunks)).
Proof.
  intros H. unfold char_step. cbn [snd].
  destruct (strip _) as [|c s] eqn:E; [assumption|].
  apply Forall_app. split; [assumption|]. constructor; [|constructor].
  change (blank (c :: s) = false). rewrite <- E.
  apply strip_nonblank. rewrite E. reflexivity.
Qed.

Lemma char_loop_has_text fuel text imgs start chunks out :
  Forall has_text chunks ->
  char_loop fuel config text sf sec imgs page start chunks = Done out ->
  Forall has_text out.
Proof.
  revert start chunks. induction fuel as [|fuel IH]; intros start chunks H.
  - cbn [char_loop]. destruct (start <? len text); [discriminate|].
    intros [= <-]. assumption.
  - rewrite char_loop_S. destruct (start <? len text); [|intros [= <-]; assumption].
    cbv zeta. apply IH. apply char_step_has_text. assumption.
Qed.

Variable code_blocks : list pystr.
Hypothesis Hblocks : Forall (fun b => blank b = false) code_blocks.

Lemma flush_has_text imgs chunks (buf : list pystr) :
  Forall (fun p => blank p = false) buf ->
  Forall has_text chunks ->
  Forall has_text (flush sf sec page code_blocks imgs chunks buf).
Proof.
  intros Hbuf H. unfold flush. destruct buf as [|p rest]; [assumption|].
  apply Forall_app. split; [assumption|]. constructor; [|constructor].
  change (blank (restore_code_blocks code_blocks (join [newline] (p :: rest))) = false).
  apply restore_nonblank; [exact Hblocks|].
  apply blank_join_cons. inversion Hbuf; assumption.
Qed.

Lemma para_step_has_text fuel imgs chunks (buf : list pystr) cl para chunks' buf' cl' :
  blank para = false ->
  Forall (fun p => blank p = false) buf ->
  Forall has_text chunks ->
  para_step py_int config sf sec page fuel code_blocks imgs (chunks, buf, cl) para
    = Done (chunks', buf', cl') ->
  Forall has_text chunks' /\ Forall (fun p => blank p = false) buf'.
Proof.
  intros Hpara Hbuf H. unfold para_step.
  destruct (actual_len py_int code_blocks para) as [a| |]; cbn; try discriminate.
  destruct (andb _ _).
  - destruct (_split_by_characters _ _ _ _ _ _ _) as [sub| |] eqn:Hsub;
      cbn; try discriminate.
    intros [= <- <- <-]. split; [|constructor].
    apply Forall_app. split; [apply flush_has_text; assumption|].
    eapply char_loop_has_text; [|exact Hsub]. constructor.
  - destruct (Z.ltb _ _).
    + destruct (if andb _ _ then last buf else None) as [o|] eqn:Ho; intros [= <- <- <-].
      * split; [apply flush_has_text; assumption|].
        constructor; [|constructor; [assumption|constructor]].
        destruct (andb _ _); [|discriminate].
        apply last_Some in Ho as [l' ->]. apply Forall_app in Hbuf as [_ Hl].
        inversion Hl; assumption.
      * split; [apply flush_has_text; assumption|].
        constructor; [assumption|constructor].
    + intros [= <- <- <-]. split; [assumption|].
      apply Forall_app. split; [assumption|]. constructor; [assumption|constructor].
Qed.

Lemma para_loop_has_text fuel imgs paragraphs chunks (buf : list pystr) cl chunks' buf' cl' :
  Forall (fun p => blank p = false) paragraphs ->
  Forall (fun p => blank p = false) buf ->
  Forall has_text chunks ->
  para_loop py_int config sf sec page fuel code_blocks imgs paragraphs (chunks, buf, cl)
    = Done (chunks', buf', cl') ->
  Forall has_text chunks' /\ Forall (fun p => blank p = false) buf'.
Proof.
  intros Hps. revert chunks buf cl.
  induction Hps as [|para rest Hpara _ IH]; intros chunks buf cl Hbuf H.
  - cbn. intros [= <- <- <-]. split; assumption.
  - cbn [para_loop].
    destruct (para_step _ _ _ _ _ _ _ _ _ _) as [[[c1 b1] l1]| |] eqn:Hstep;
      cbn; try discriminate.
    destruct (para_step_has_text _ _ _ _ _ _ _ _ _ Hpara Hbuf H Hstep) as [H1 Hb1].
    apply IH; assumption.
Qed.

End HasText.

(** The segmenter emits no blank chunk, except the single chunk of a
    blank text within [max_chunk_size]. *)
Lemma segmenter_has_text (py_int : pystr -> option Z) (config : ChunkingConfig)
    (sf sec : pystr) (page : Z) (fuel : nat) (t : pystr) (imgs : list pystr)
    (chunks : list DocumentChunk) :
  blank t = false \/ max_chunk_size config < len t ->
  _split_text_with_overlap py_int config sf sec page fuel t imgs = Done chunks ->
  Forall has_text chunks.
Proof.
  intros Ht. unfold _split_text_with_overlap.
  pose proof (protect_go_blocks_nonblank t 0 0) as Hblocks.
  fold (protect_code_blocks t) in Hblocks.
  destruct (protect_code_blocks t) as [protected_text code_blocks]. cbn [snd] in Hblocks.
  destruct (Z.leb_spec (len t) (max_chunk_size config)).
  - intros [= <-]. destruct Ht as [Ht|Ht]; [|lia]. constructor; [exact Ht|constructor].
  - destruct (split_by_paragraph config).
    + destruct (para_loop _ _ _ _ _ _ _ _ _ _) as [[[c1 b1] l1]| |] eqn:Hloop;
        cbn; try discriminate.
      intros [= <-].
      destruct (para_loop_has_text py_int config sf sec page code_blocks Hblocks
                  _ _ _ _ _ _ _ _ _ (paragraphs_nonblank protected_text)
                  (Forall_nil_2 _) (Forall_nil_2 _) Hloop) as [H1 Hb1].
      apply flush_has_text; assumption.
    + apply char_loop_has_text. constructor.
Qed.

Lemma sections_to_chunks_has_text (py_int : pystr -> option Z) (config : ChunkingConfig)
    (fuel : nat) (sf : pystr) (sections : list SectionData)
    (chunks out : list DocumentChunk) :
  Forall has_text chunks ->
  sections_to_chunks py_int config fuel sf sections chunks = Done out ->
  Forall has_text out.
Proof.
  revert chunks. induction sections as [|info rest IH]; intros chunks H.
  - cbn. intros [= <-]. assumption.
  - cbn [sections_to_chunks].
    destruct (section_chunks _ _ _ _ _) as [sub| |] eqn:Hsub; cbn; try discriminate.
    apply IH. apply Forall_app. split; [assumption|].
    unfold section_chunks in Hsub.
    destruct (Z.ltb_spec (max_chunk_size config) (len (join [newline] (sec_texts info)))).
    + eapply segmenter_has_text; [right; eassumption | exact Hsub].
    + destruct (is_nonempty _) eqn:Hne; injection Hsub as <-; [|constructor].
      constructor; [|constructor].
      change (blank (join [newline] (sec_texts info)) = false).
      rewrite <- blank_strip. apply strip_nonblank. exact Hne.
Qed.

Lemma distribute_has_text (config : ChunkingConfig)
    (chunks : list DocumentChunk) (imgs : list pystr) :
  Forall has_text chunks ->
  Forall has_text (_distribute_images_to_chunks config chunks imgs).
Proof.
  intros H. unfold _distribute_images_to_chunks.
  destruct imgs as [|img imgs]; [exact H|].
  destruct chunks as [|c0 rest]; [exact H|].
  destruct (distribute_images_evenly config).
  - apply Forall_lookup_2. intros i c Hic. rewrite list_lookup_imap in Hic.
    destruct ((c0 :: rest) !! i) as [c'|] eqn:E; [|discriminate].
    injection Hic as <-. exact (Forall_lookup_1 _ _ _ _ H E).
  - inversion H as [|? ? H0 Hrest]; subst. constructor; assumption.
Qed.

(** X6: no chunk of the docx pipeline or of the pdf pipeline has a blank text:
    whatever the elements, every returned chunk contains a character that
    is not white space.  The segmenter called on its own keeps this for
    every text that is not blank or is longer than [max_chunk_size]. *)
Theorem pipelines_emit_no_blank_chunk :
  (forall py_int re_match config fuel elements sf chunks,
      _docx_elements_to_chunks py_int re_match config fuel elements sf = Done chunks ->
      Forall has_text chunks)
  /\ (forall py_int re_match config fuel elements sf extracted chunks,
        _elements_to_chunks_optimized py_int re_match config fuel elements sf extracted
          = Done chunks ->
        Forall has_text chunks)
  /\ (forall py_int config sf sec page fuel t imgs chunks,
        blank t = false \/ max_chunk_size config < len t ->
        _split_text_with_overlap py_int config sf sec page fuel t imgs = Done chunks ->
        Forall has_text chunks).
Proof.
  split; [|split].
  - intros * H. unfold _docx_elements_to_chunks in H.
    eapply sections_to_chunks_has_text; [|exact H]. constructor.
  - intros * H. unfold _elements_to_chunks_optimized in H.
    destruct (fold_left _ _ _) as [[sections0 section_data] image_index].
    destruct (sections_to_chunks _ _ _ _ _ _) as [out| |] eqn:Hout; cbn in H;
      try discriminate.
    apply sections_to_chunks_has_text in Hout; [|constructor].
    destruct (andb _ _); injection H as <-; [apply distribute_has_text|]; exact Hout.
  - intros *. apply segmenter_has_text.
Qed.

Lemma pipelines_emit_no_blank_chunk_witness :
  let elements :=
    [ {| elem_type := lit "heading"; elem_text := lit "Intro"; elem_images := [] |};
      {| elem_type := lit "paragraph"; elem_text := lit "Body text."; elem_images := [] |};
      {| elem_type := lit "heading"; elem_text := lit "Empty"; elem_images := [] |};
      {| elem_type := lit "heading"; elem_text := lit "Figure"; elem_images := [] |};
      {| elem_type := lit "paragraph"; elem_text := []; elem_images := [lit "img/p.png"] |} ] in
  let config := example_config 100 0 true true in
  exists c1 c2,
    _docx_elements_to_chunks int_ascii (fun _ _ => false) config 0 elements (lit "d.docx")
      = Done [c1; c2]
    /\ text c1 = lit "Body text."
    /\ text c2 = lit "[IMG:img/p.png]"
    /\ Forall has_text [c1; c2].
Proof.
  eexists _, _. split; [vm_compute; reflexivity|].
  split; [reflexivity|]. split; [reflexivity|].
  apply (proj1 pipelines_emit_no_blank_chunk int_ascii (fun _ _ => false)
           (example_config 100 0 true true) 0%nat
           [ {| elem_type := lit "heading"; elem_text := lit "Intro"; elem_images := [] |};
             {| elem_type := lit "paragraph"; elem_text := lit "Body text."; elem_images := [] |};
             {| elem_type := lit "heading"; elem_text := lit "Empty"; elem_images := [] |};
             {| elem_type := lit "heading"; elem_text := lit "Figure"; elem_images := [] |};
             {| elem_type := lit "paragraph"; elem_text := []; elem_images := [lit "img/p.png"] |} ]
           (lit "d.docx")).
  vm_compute. reflexivity.
Defined.

(* ===================================================================== *)
(** * Character windows leave nothing out                                 *)
(* ===================================================================== *)

Lemma blank_slice_lookup (t : pystr) (s e : Z) (i : nat) (c : char) :
  0 <= s <= Z.of_nat i -> Z.of_nat i < e ->
  t !! i = Some c ->
  blank (slice t s e) = true -> isspace c = true.
Proof.
  intros Hs He Hi Hb. rewrite slice_nonneg in Hb by lia.
  unfold blank in Hb. rewrite forallb_forall in Hb. apply Hb.
  apply list_elem_of_In. apply (list_elem_of_lookup_2 _ (i - Z.to_nat s)%nat).
  rewrite lookup_take_lt by lia. rewrite lookup_drop.
  replace (Z.to_nat s + (i - Z.to_nat s))%nat with i by lia. exact Hi.
Qed.

Lemma next_start_le_end (config : ChunkingConfig) (t : pystr) (start end_ : Z) :
  start < end_ -> next_start config t start end_ <= end_.
Proof.
  intros H. unfold next_start.
  destruct (Z.ltb_spec 0 (chunk_overlap config)); cbn [andb]; [|lia].
  destruct (Z.ltb_spec end_ (len t)); lia.
Qed.

Lemma covered_mono (t : pystr) (chunks more : list DocumentChunk) (i : nat) :
  covered t chunks i -> covered t (chunks ++ more) i.
Proof.
  intros (ch & s & e & Hin & H). exists ch, s, e. split; [|exact H].
  apply in_or_app. left. exact Hin.
Qed.

Section Coverage.

Variable config : ChunkingConfig.
Variables (t sf sec : pystr) (imgs : list pystr) (page : Z).
Hypothesis Hmax : 1 <= max_chunk_size config.

Lemma char_step_covers (start : Z) (chunks : list DocumentChunk) :
  0 <= start < len t ->
  covered_below t start chunks ->
  covered_below t (fst (char_step config t sf sec imgs page start chunks))
    (snd (char_step config t sf sec imgs page start chunks)).
Proof.
  intros Hstart Hinv i c Hi Hc Hsp.
  rewrite char_step_start in Hi.
  pose proof (window_end_progress config t start Hmax (proj2 Hstart)) as Hend.
  pose proof (next_start_le_end config t start _ Hend) as Hnext.
  unfold char_step. cbn [snd].
  destruct (Z_lt_ge_dec (Z.of_nat i) start) as [Hlt|Hge].
  - specialize (Hinv i c Hlt Hc Hsp).
    destruct (strip _); [exact Hinv | apply covered_mono; exact Hinv].
  - destruct (strip (slice t start (window_end config t start))) as [|x s'] eqn:E.
    + apply strip_nil in E.
      rewrite (blank_slice_lookup t start (window_end config t start) i c) in Hsp;
        [discriminate | lia | lia | exact Hc | exact E].
    + exists (_create_chunk (x :: s') sf sec
                (match chunks with [] => imgs | _ :: _ => [] end) page),
        start, (window_end config t start).
      split; [apply in_or_app; right; left; reflexivity|].
      split; [symmetry; exact E | lia].
Qed.

Lemma char_loop_covers (fuel : nat) :
  forall start chunks out,
    0 <= start ->
    covered_below t start chunks ->
    char_loop fuel config t sf sec imgs page start chunks = Done out ->
    covered_below t (len t) out.
Proof.
  induction fuel as [|fuel IH]; intros start chunks out Hstart Hinv.
  - cbn [char_loop]. destruct (Z.ltb_spec start (len t)); [discriminate|].
    intros [= <-]. intros i c Hi. apply Hinv. lia.
  - rewrite char_loop_S. destruct (Z.ltb_spec start (len t)).
    + cbv zeta. apply IH.
      * rewrite char_step_start.
        pose proof (next_start_progress config t start (or_introl Hmax)). lia.
      * apply char_step_covers; [lia | exact Hinv].
    + intros [= <-]. intros i c Hi. apply Hinv. lia.
Qed.

End Coverage.

(** X7: with [max_chunk_size >= 1], character windows lose nothing but white
    space: every character of the text that is not white space lies in a
    window [text[s:e]] whose stripped content is the text of a returned
    chunk.  (Consecutive windows touch or overlap: the next one starts at
    or before the end of the current one.) *)
Theorem character_windows_cover_text
    (config : ChunkingConfig) (fuel : nat) (t sf sec : pystr)
    (imgs : list pystr) (page : Z) (chunks : list DocumentChunk) :
  1 <= max_chunk_size config ->
  _split_by_characters fuel config t sf sec imgs page = Done chunks ->
  forall (i : nat) (c : char),
    t !! i = Some c -> isspace c = false -> covered t chunks i.
Proof.
  intros Hmax H i c Hc Hsp.
  unfold _split_by_characters in H.
  apply (char_loop_covers config t sf sec imgs page Hmax fuel 0 [] chunks) with (c := c);
    [lia | | exact H | | exact Hc | exact Hsp].
  - intros j d Hj. lia.
  - apply lookup_lt_Some in Hc. unfold len. lia.
Qed.

Lemma character_windows_cover_text_witness :
  let config := example_config 10 3 false true in
  let t := lit "Alpha beta. Gamma delta? Epsilon" in
  exists chunks,
    _split_by_characters 32 config t (lit "a.md") (lit "S") [] 0 = Done chunks
    /\ map text chunks
       = [lit "Alpha beta"; lit "eta. Gamma"; lit "mma delta?"; lit "ta? Epsilo"; lit "ilon"]
    /\ covered t chunks 31.
Proof.
  eexists. split; [vm_compute; reflexivity|]. split; [vm_compute; reflexivity|].
  apply (character_windows_cover_text (example_config 10 3 false true) 32
           (lit "Alpha beta. Gamma delta? Epsilon") (lit "a.md") (lit "S") [] 0 _)
    with (c := 110%N);
    [vm_compute; discriminate | vm_compute; reflexivity | reflexivity | reflexivity].
Defined.

(* ===================================================================== *)
(** * When the images of a section survive segmentation                   *)
(* ===================================================================== *)

Lemma nonblank_has_ink (t : pystr) :
  blank t = false -> exists (i : nat) (c : char), t !! i = Some c /\ isspace c = false.
Proof.
  induction t as [|x t IH]; [discriminate|]. simpl.
  destruct (isspace x) eqn:E.
  - intros H. destruct (IH H) as (i & c & Hi & Hc). exists (S i), c. split; assumption.
  - intros _. exists 0%nat, x. split; [reflexivity | exact E].
Qed.

(** Character windows of a text that is not blank give at least one chunk. *)
Lemma char_loop_nonempty (config : ChunkingConfig) (t sf sec : pystr)
    (imgs : list pystr) (page : Z) (fuel : nat) (out : list DocumentChunk) :
  1 <= max_chunk_size config ->
  blank t = false ->
  char_loop fuel config t sf sec imgs page 0 [] = Done out ->
  out <> [].
Proof.
  intros Hmax Hb H.
  destruct (nonblank_has_ink t Hb) as (i & c & Hi & Hc).
  assert (Hcov : covered t out i).
  { apply (char_loop_covers config t sf sec imgs page Hmax fuel 0 [] out) with (c := c);
      [lia | | exact H | | exact Hi | exact Hc].
    - intros j d Hj. lia.
    - apply lookup_lt_Some in Hi. unfold len. lia. }
  destruct Hcov as (ch & _ & _ & Hin & _). intros ->. destruct Hin.
Qed.

Lemma bare_no_images (sf sec : pystr) (page : Z) (chunks : list DocumentChunk) :
  Forall (bare sf sec page) chunks -> Forall (fun c => images c = []) chunks.
Proof. intros H. eapply Forall_impl; [exact H|]. intros c [t ->]. reflexivity. Qed.

Section ImageFate.

Variable py_int : pystr -> option Z.
Variable config : ChunkingConfig.
Variables (sf sec : pystr) (page : Z).
Variables (code_blocks imgs : list pystr).

Lemma flush_keeps_head chunks (buf : list pystr) :
  (chunks = [] /\ buf <> []) \/ (exists c rest, chunks = c :: rest /\ images c = imgs) ->
  exists c rest,
    flush sf sec page code_blocks imgs chunks buf = c :: rest /\ images c = imgs.
Proof.
  unfold flush. intros [[-> Hbuf] | (c & rest & -> & Hc)].
  - destruct buf; [contradiction|]. eexists _, _. split; reflexivity.
  - destruct buf; eexists _, _; split; try reflexivity; exact Hc.
Qed.

Lemma para_step_keeps_head fuel chunks (buf : list pystr) cl para chunks' buf' cl' :
  (chunks = [] /\ buf <> []) \/ (exists c rest, chunks = c :: rest /\ images c = imgs) ->
  para_step py_int config sf sec page fuel code_blocks imgs (chunks, buf, cl) para
    = Done (chunks', buf', cl') ->
  (chunks' = [] /\ buf' <> []) \/ (exists c rest, chunks' = c :: rest /\ images c = imgs).
Proof.
  intros H. unfold para_step.
  destruct (actual_len py_int code_blocks para) as [a| |]; cbn; try discriminate.
  destruct (andb _ _).
  - destruct (_split_by_characters _ _ _ _ _ _ _) as [sub| |]; cbn; try discriminate.
    intros [= <- <- <-]. right.
    destruct (flush_keeps_head chunks buf H) as (c & rest & -> & Hc).
    eexists _, _. split; [reflexivity | exact Hc].
  - destruct (Z.ltb _ _).
    + destruct (if andb _ _ then last buf else None); intros [= <- <- <-]; right;
        apply flush_keeps_head; exact H.
    + intros [= <- <- <-]. destruct H as [[-> Hbuf] | H]; [left | right; exact H].
      split; [reflexivity|]. destruct buf; discriminate.
Qed.

Lemma para_loop_keeps_head fuel paragraphs chunks (buf : list pystr) cl chunks' buf' cl' :
  (chunks = [] /\ buf <> []) \/ (exists c rest, chunks = c :: rest /\ images c = imgs) ->
  para_loop py_int config sf sec page fuel code_blocks imgs paragraphs (chunks, buf, cl)
    = Done (chunks', buf', cl') ->
  (chunks' = [] /\ buf' <> []) \/ (exists c rest, chunks' = c :: rest /\ images c = imgs).
Proof.
  revert chunks buf cl. induction paragraphs as [|para rest IH]; intros chunks buf cl H.
  - cbn. intros [= <- <- <-]. exact H.
  - cbn [para_loop].
    destruct (para_step _ _ _ _ _ _ _ _ _ _) as [[[c1 b1] l1]| |] eqn:Hstep;
      cbn; try discriminate.
    apply IH. eapply para_step_keeps_head; eassumption.
Qed.

Lemma flush_no_images chunks (buf : list pystr) :
  chunks <> [] /\ Forall (fun c => images c = []) chunks ->
  flush sf sec page code_blocks imgs chunks buf <> []
  /\ Forall (fun c => images c = []) (flush sf sec page code_blocks imgs chunks buf).
Proof.
  intros [Hne H]. unfold flush. destruct buf; [split; assumption|].
  destruct chunks as [|c rest]; [contradiction|]. split; [discriminate|].
  apply Forall_app. split; [exact H|]. constructor; [reflexivity | constructor].
Qed.

Lemma para_step_no_images fuel chunks (buf : list pystr) cl para chunks' buf' cl' :
  chunks <> [] /\ Forall (fun c => images c = []) chunks ->
  para_step py_int config sf sec page fuel code_blocks imgs (chunks, buf, cl) para
    = Done (chunks', buf', cl') ->
  chunks' <> [] /\ Forall (fun c => images c = []) chunks'.
Proof.
  intros H. unfold para_step.
  destruct (actual_len py_int code_blocks para) as [a| |]; cbn; try discriminate.
  destruct (andb _ _).
  - destruct (_split_by_characters _ _ _ _ _ _ _) as [sub| |] eqn:Hsub;
      cbn; try discriminate.
    intros [= <- <- <-].
    destruct (flush_no_images chunks buf H) as [Hne Hall]. split.
    + destruct (flush _ _ _ _ _ _ _); [contradiction | discriminate].
    + apply Forall_app. split; [exact Hall|].
      apply (bare_no_images sf sec page), (bare_of_emitted sf sec page).
      eapply char_loop_emitted; [|exact Hsub]. exact I.
  - destruct (Z.ltb _ _).
    + destruct (if andb _ _ then last buf else None); intros [= <- <- <-];
        apply flush_no_images; exact H.
    + intros [= <- <- <-]. exact H.
Qed.

Lemma para_loop_no_images fuel paragraphs chunks (buf : list pystr) cl chunks' buf' cl' :
  chunks <> [] /\ Forall (fun c => images c = []) chunks ->
  para_loop py_int config sf sec page fuel code_blocks imgs paragraphs (chunks, buf, cl)
    = Done (chunks', buf', cl') ->
  chunks' <> [] /\ Forall (fun c => images c = []) chunks'.
Proof.
  revert chunks buf cl. induction paragraphs as [|para rest IH]; intros chunks buf cl H.
  - cbn. intros [= <- <- <-]. exact H.
  - cbn [para_loop].
    destruct (para_step _ _ _ _ _ _ _ _ _ _) as [[[c1 b1] l1]| |] eqn:Hstep;
      cbn; try discriminate.
    apply IH. eapply para_step_no_images; eassumption.
Qed.

End ImageFate.

Lemma char_step_keeps_head (config : ChunkingConfig) (t sf sec : pystr)
    (imgs : list pystr) (page start : Z) (chunks : list DocumentChunk) :
  chunks = [] \/ (exists c rest, chunks = c :: rest /\ images c = imgs) ->
  snd (char_step config t sf sec imgs page start chunks) = []
  \/ (exists c rest, snd (char_step config t sf sec imgs page start chunks) = c :: rest
                     /\ images c = imgs).
Proof.
  intros H. unfold char_step. cbn [snd]. destruct (strip _) as [|x s']; [exact H|].
  right. destruct H as [-> | (c & rest & -> & Hc)]; eexists _, _; split;
    try reflexivity; exact Hc.
Qed.

Lemma char_loop_keeps_head (config : ChunkingConfig) (t sf sec : pystr)
    (imgs : list pystr) (page : Z) (fuel : nat) :
  forall start chunks out,
    chunks = [] \/ (exists c rest, chunks = c :: rest /\ images c = imgs) ->
    char_loop fuel config t sf sec imgs page start chunks = Done out ->
    out = [] \/ (exists c rest, out = c :: rest /\ images c = imgs).
Proof.
  induction fuel as [|fuel IH]; intros start chunks out H.
  - cbn [char_loop]. destruct (start <? len t); [discriminate|]. intros [= <-]. exact H.
  - rewrite char_loop_S. destruct (start <? len t); [|intros [= <-]; exact H].
    cbv zeta. apply IH. apply char_step_keeps_head. exact H.
Qed.

(** X8: what becomes of the image list of a section longer than
    [max_chunk_size] (>= 1).  In character mode the first chunk carries it
    (the text not being blank).  In paragraph mode the first chunk carries
    it when the first paragraph is a code-block placeholder or fits
    [max_chunk_size]; when the first paragraph is longer, it is cut into
    windows that get no image, and no later chunk gets any either: the
    image list of the section is in no chunk at all. *)
Theorem images_vanish_when_first_paragraph_is_cut
    (py_int : pystr -> option Z) (config : ChunkingConfig)
    (sf sec : pystr) (page : Z) (fuel : nat) (t : pystr) (imgs : list pystr)
    (chunks : list DocumentChunk) :
  1 <= max_chunk_size config ->
  max_chunk_size config < len t ->
  _split_text_with_overlap py_int config sf sec page fuel t imgs = Done chunks ->
  (split_by_paragraph config = false -> blank t = false ->
   exists c others, chunks = c :: others /\ images c = imgs)
  /\ (forall p rest,
        split_by_paragraph config = true ->
        paragraphs_of (fst (protect_code_blocks t)) = p :: rest ->
        (is_code_placeholder p = true \/ len p <= max_chunk_size config ->
         exists c others, chunks = c :: others /\ images c = imgs)
        /\ (is_code_placeholder p = false -> max_chunk_size config < len p ->
            chunks <> [] /\ Forall (fun c => images c = []) chunks)).
Proof.
  intros Hmax Hlong H. unfold _split_text_with_overlap in H.
  pose proof (protect_go_blocks_nonblank t 0 0) as Hblocks.
  pose proof (paragraphs_nonblank (fst (protect_code_blocks t))) as Hparas.
  fold (protect_code_blocks t) in Hblocks.
  destruct (protect_code_blocks t) as [protected_text code_blocks].
  cbn [fst snd] in *.
  destruct (Z.leb_spec (len t) (max_chunk_size config)); [lia|].
  split.
  - intros Hmode Hb. rewrite Hmode in H.
    pose proof (char_loop_nonempty config t sf sec imgs page fuel chunks Hmax Hb H) as Hne.
    destruct (char_loop_keeps_head config t sf sec imgs page fuel 0 [] chunks
                (or_introl eq_refl) H) as [-> | Hhead]; [contradiction | exact Hhead].
  - intros p rest Hmode Hps. rewrite Hmode, Hps in H. rewrite Hps in Hparas.
    destruct (para_loop _ _ _ _ _ _ _ _ _ _) as [[[c1 b1] l1]| |] eqn:Hloop;
      cbn in H; [|discriminate..]. injection H as <-.
    cbn [para_loop] in Hloop.
    destruct (para_step _ _ _ _ _ _ _ _ _ _) as [[[c0 b0] l0]| |] eqn:Hstep;
      cbn in Hloop; [|discriminate..].
    split.
    + intros Hfits.
      apply flush_keeps_head.
      eapply para_loop_keeps_head; [|exact Hloop].
      left. unfold para_step in Hstep.
      destruct (actual_len py_int code_blocks p) as [a| |] eqn:Ha; cbn in Hstep;
        try discriminate.
      assert (Hbranch : (max_chunk_size config <? a) && negb (is_code_placeholder p) = false).
      { destruct Hfits as [Hph | Hlen]; [rewrite Hph; apply andb_false_r|].
        destruct (is_code_placeholder p) eqn:Hph; [apply andb_false_r|].
        unfold actual_len in Ha. rewrite Hph in Ha. injection Ha as <-.
        destruct (Z.ltb_spec (max_chunk_size config) (len p)); [lia | reflexivity]. }
      rewrite Hbranch in Hstep.
      destruct (Z.ltb _ _); [destruct (andb _ _)|]; cbn in Hstep;
        injection Hstep as <- <- <-; split; try reflexivity; discriminate.
    + intros Hph Hbig.
      apply flush_no_images.
      eapply para_loop_no_images; [|exact Hloop].
      unfold para_step in Hstep. unfold actual_len in Hstep. rewrite Hph in Hstep.
      cbn in Hstep.
      destruct (Z.ltb_spec (max_chunk_size config) (len p)); [|lia]. cbn in Hstep.
      destruct (_split_by_characters _ _ _ _ _ _ _) as [sub| |] eqn:Hsub;
        cbn in Hstep; [|discriminate..].
      injection Hstep as <- <- <-. cbn [app]. split.
      * eapply char_loop_nonempty; [exact Hmax | | exact Hsub].
        apply restore_nonblank; [exact Hblocks|]. inversion Hparas; assumption.
      * apply (bare_no_images sf sec page), (bare_of_emitted sf sec page).
        eapply char_loop_emitted; [|exact Hsub]. exact I.
Qed.

Lemma images_vanish_when_first_paragraph_is_cut_witness :
  let config := example_config 10 0 true true in
  let t := lines [lit "aaaaaaaaaaaaaaa"; lit "see"; lit "[IMG:p.png]"] in
  exists chunks,
    _split_text_with_overlap int_ascii config (lit "d.docx") (lit "S") 0 20 t [lit "p.png"]
      = Done chunks
    /\ map text chunks
       = [lit "aaaaaaaaaa"; lit "aaaaa"; lit "see"; lit "[IMG:p.png"; lit "]"]
    /\ chunks <> []
    /\ Forall (fun c => images c = []) chunks.
Proof.
  eexists. split; [vm_compute; reflexivity|]. split; [vm_compute; reflexivity|].
  refine (proj2 (proj2 (images_vanish_when_first_paragraph_is_cut int_ascii
                          (example_config 10 0 true true) (lit "d.docx") (lit "S") 0 20%nat
                          (lines [lit "aaaaaaaaaaaaaaa"; lit "see"; lit "[IMG:p.png]"])
                          [lit "p.png"] _ _ _ _)
                   (lit "aaaaaaaaaaaaaaa") [lit "see"; lit "[IMG:p.png]"] _ _) _ _);
    vm_compute; solve [reflexivity | discriminate].
Defined.

(* ===================================================================== *)
(** * Sections of a docx document                                         *)
(* ===================================================================== *)

Lemma add_images_spec (sd : SectionData) (imgs : list pystr) :
  sec_section (add_images sd imgs) = sec_section sd
  /\ sec_texts (add_images sd imgs) = sec_texts sd ++ map img_placeholder imgs
  /\ sec_images (add_images sd imgs) = sec_images sd ++ imgs
  /\ sec_page (add_images sd imgs) = sec_page sd.
Proof.
  unfold add_images. revert sd. induction imgs as [|img imgs IH]; intros sd.
  - cbn. rewrite !app_nil_r. auto.
  - cbn [fold_left map]. destruct (IH {| sec_section := sec_section sd;
                                         sec_texts := sec_texts sd ++ [img_placeholder img];
                                         sec_images := sec_images sd ++ [img];
                                         sec_page := sec_page sd |}) as (H1 & H2 & H3 & H4).
    rewrite H1, H2, H3, H4. cbn. rewrite <- !app_assoc. auto.
Qed.

Lemma fold_left_invariant {S E : Type} (step : S -> E -> S) (Inv : list E -> S -> Prop)
    (init : S) :
  Inv [] init ->
  (forall done st e, Inv done st -> Inv (done ++ [e]) (step st e)) ->
  forall l, Inv l (fold_left step l init).
Proof.
  intros H0 Hstep l. induction l as [|e l IH] using rev_ind; [exact H0|].
  rewrite fold_left_app. cbn. apply Hstep. exact IH.
Qed.

Lemma is_nonempty_app {A} (a b : list A) :
  is_nonempty (a ++ b) = is_nonempty a || is_nonempty b.
Proof. destruct a; reflexivity. Qed.

Lemma is_nonempty_map {A B} (f : A -> B) (l : list A) :
  is_nonempty (map f l) = is_nonempty l.
Proof. destruct l; reflexivity. Qed.

Section DocxGrouping.

Variable re_match : pystr -> pystr -> bool.
Variable config : ChunkingConfig.

Lemma tokens_present_add_text (sd : SectionData) (t : pystr) :
  tokens_present sd -> tokens_present (add_text sd t).
Proof.
  unfold tokens_present. cbn. intros H. eapply Forall_impl; [exact H|].
  intros img Hin. apply in_or_app. left. exact Hin.
Qed.

Lemma tokens_present_add_images (sd : SectionData) (imgs : list pystr) :
  tokens_present sd -> tokens_present (add_images sd imgs).
Proof.
  unfold tokens_present. destruct (add_images_spec sd imgs) as (_ & -> & -> & _).
  intros H. apply Forall_app. split.
  - eapply Forall_impl; [exact H|]. intros img Hin. apply in_or_app. left. exact Hin.
  - apply Forall_forall. intros img Hin. apply in_or_app. right.
    apply in_map. apply list_elem_of_In. exact Hin.
Qed.

(** The state of the grouping loop after the elements [done]. *)
Lemma group_loop_invariant (elements : list Element) :
  let st := fold_left (group_step re_match config) elements
              ([], new_section section_start) in
  concat (map sec_images (fst st)) ++ sec_images (snd st)
    = concat (map elem_images (body_elements re_match config elements))
  /\ Forall tokens_present (fst st) /\ tokens_present (snd st)
  /\ is_nonempty (fst st) || is_nonempty (sec_texts (snd st))
       || is_nonempty (sec_images (snd st))
     = has_body re_match config elements.
Proof.
  cbv zeta.
  apply (fold_left_invariant (group_step re_match config)
           (fun done st =>
              concat (map sec_images (fst st)) ++ sec_images (snd st)
                = concat (map elem_images (body_elements re_match config done))
              /\ Forall tokens_present (fst st) /\ tokens_present (snd st)
              /\ is_nonempty (fst st) || is_nonempty (sec_texts (snd st))
                   || is_nonempty (sec_images (snd st))
                 = has_body re_match config done)).
  - cbn. repeat split; constructor.
  - intros done [sections sd] e (Himgs & Hsecs & Hsd & Hbody). cbn [fst snd] in *.
    unfold has_body, body_elements in *. rewrite List.filter_app. cbn [List.filter].
    unfold group_step. fold (opens_section re_match config e).
    destruct (opens_section re_match config e) eqn:Hopen; cbn [negb fst snd].
    + rewrite app_nil_r. unfold save_section.
      destruct (is_nonempty (sec_texts sd) || is_nonempty (sec_images sd)) eqn:Hsave.
      * rewrite map_app, concat_app. cbn. rewrite !app_nil_r.
        split; [exact Himgs|]. split; [apply Forall_app; split; [exact Hsecs|]; repeat constructor; exact Hsd|].
        split; [constructor|].
        rewrite <- Hbody. rewrite is_nonempty_app. cbn. revert Hsave.
        destruct (is_nonempty sections), (is_nonempty (sec_texts sd)),
          (is_nonempty (sec_images sd)); cbn; intros Hsave;
          solve [reflexivity | discriminate].
      * cbn. rewrite app_nil_r.
        apply orb_false_iff in Hsave as [Ht Hi].
        destruct (sec_images sd); [|discriminate]. rewrite app_nil_r in Himgs.
        split; [exact Himgs|]. split; [exact Hsecs|]. split; [constructor|].
        rewrite <- Hbody, Ht. cbn. rewrite !orb_false_r. reflexivity.
    + rewrite map_app, concat_app, existsb_app. cbn [map concat existsb].
      rewrite app_nil_r, orb_false_r.
      set (sd1 := if is_nonempty (elem_text e) then add_text sd (elem_text e) else sd).
      destruct (add_images_spec sd1 (elem_images e)) as (_ & Htx & Him & _).
      rewrite Htx, Him.
      assert (Hsd1 : sec_images sd1 = sec_images sd
                     /\ tokens_present sd1
                     /\ is_nonempty (sec_texts sd1)
                        = is_nonempty (sec_texts sd) || is_nonempty (elem_text e)).
      { unfold sd1. destruct (is_nonempty (elem_text e)).
        - split; [reflexivity|]. split; [apply tokens_present_add_text; exact Hsd|].
          cbn. rewrite is_nonempty_app. reflexivity.
        - split; [reflexivity|]. split; [exact Hsd|]. rewrite orb_false_r. reflexivity. }
      destruct Hsd1 as (Hi1 & Ht1 & Hn1). rewrite Hi1.
      split; [rewrite app_assoc, Himgs; reflexivity|].
      split; [exact Hsecs|].
      split; [apply tokens_present_add_images; exact Ht1|].
      rewrite <- Hbody. rewrite !is_nonempty_app, is_nonempty_map, Hn1.
      destruct (is_nonempty sections), (is_nonempty (sec_texts sd)),
        (is_nonempty (sec_images sd)), (is_nonempty (elem_text e)),
        (is_nonempty (elem_images e)); reflexivity.
Qed.

End DocxGrouping.

(** X9: the sections the docx grouper makes.  When some element under the
    headings has a text or an image, the images of the sections, in order,
    are those of the elements that open no section, each with its
    [[IMG:path]] token among the texts of its section: an image attached to
    a heading is in no section.  Otherwise there is one section,
    [section_content], with the texts and the images of all elements and no
    token. *)
Theorem docx_sections_keep_body_images_only
    (re_match : pystr -> pystr -> bool) (config : ChunkingConfig)
    (elements : list Element) :
  if has_body re_match config elements then
    concat (map sec_images (group_sections re_match config elements))
      = concat (map elem_images (body_elements re_match config elements))
    /\ Forall tokens_present (group_sections re_match config elements)
  else
    group_sections re_match config elements
    = [ {| sec_section := section_content;
           sec_texts := List.filter is_nonempty (map elem_text elements);
           sec_images := concat (map elem_images elements);
           sec_page := 0 |} ].
Proof.
  pose proof (group_loop_invariant re_match config elements) as H. cbv zeta in H.
  unfold group_sections.
  destruct (fold_left _ _ _) as [sections sd]. cbn [fst snd] in H.
  destruct H as (Himgs & Hsecs & Hsd & Hbody). rewrite <- Hbody.
  unfold save_section.
  destruct (is_nonempty (sec_texts sd) || is_nonempty (sec_images sd)) eqn:Hsave.
  - rewrite <- orb_assoc, Hsave, orb_true_r.
    destruct (sections ++ [sd]) as [|s0 l] eqn:E; [destruct sections; discriminate|].
    rewrite <- E. rewrite map_app, concat_app. cbn. rewrite app_nil_r.
    split; [exact Himgs|]. apply Forall_app. split; [exact Hsecs|].
    repeat constructor. exact Hsd.
  - rewrite <- orb_assoc, Hsave, orb_false_r.
    apply orb_false_iff in Hsave as [_ Hi].
    destruct (sec_images sd); [|discriminate]. rewrite app_nil_r in Himgs.
    destruct sections as [|s0 l]; cbn [is_nonempty]; [reflexivity|].
    split; [exact Himgs | exact Hsecs].
Qed.

(* ===================================================================== *)
(** * Sections of a pdf document                                          *)
(* ===================================================================== *)

Section PdfGrouping.

Variable re_match : pystr -> pystr -> bool.
Variable config : ChunkingConfig.
Variable extracted_images : list pystr.

Lemma pdf_loop_invariant (elements : list PdfElement) :
  let st := fold_left (pdf_step re_match config extracted_images) elements
              ([], new_section section_start, 0%nat) in
  snd st = Nat.min (image_blocks elements) (length extracted_images)
  /\ concat (map sec_images (fst (fst st))) ++ sec_images (snd (fst st))
     = take (snd st) extracted_images
  /\ Forall tokens_present (fst (fst st)) /\ tokens_present (snd (fst st))
  /\ (sec_texts (snd (fst st)) = [] -> sec_images (snd (fst st)) = []).
Proof.
  cbv zeta.
  apply (fold_left_invariant (pdf_step re_match config extracted_images)
           (fun done st =>
              snd st = Nat.min (image_blocks done) (length extracted_images)
              /\ concat (map sec_images (fst (fst st))) ++ sec_images (snd (fst st))
                 = take (snd st) extracted_images
              /\ Forall tokens_present (fst (fst st)) /\ tokens_present (snd (fst st))
              /\ (sec_texts (snd (fst st)) = [] -> sec_images (snd (fst st)) = []))).
  - cbn. rewrite take_0. repeat split; constructor.
  - intros done [[sections sd] k] e (Hk & Himgs & Hsecs & Hsd & Hempty).
    cbn [fst snd] in *. unfold image_blocks in *.
    rewrite List.filter_app, length_app. cbn [List.filter].
    unfold pdf_step.
    destruct (str_eqb (category e) (lit "Image")) eqn:Hcat; cbn [length].
    + destruct (extracted_images !! k) as [img_path|] eqn:Hlook; cbn [fst snd].
      * pose proof (lookup_lt_Some _ _ _ Hlook) as Hlt.
        destruct (add_images_spec sd [img_path]) as (_ & Htx & Him & _).
        split; [lia|]. split.
        { rewrite Him, app_assoc, Himgs. symmetry. apply take_S_r. exact Hlook. }
        split; [exact Hsecs|]. split; [apply tokens_present_add_images; exact Hsd|].
        rewrite Htx. intros E. destruct (sec_texts sd); discriminate.
      * apply lookup_ge_None in Hlook.
        split; [lia|]. split; [exact Himgs|]. split; [exact Hsecs|].
        split; [exact Hsd | exact Hempty].
    + rewrite Nat.add_0_r.
      destruct (andb _ (is_nonempty (stripped_text e))); cbn [fst snd].
      * split; [exact Hk|]. unfold save_text_section.
        destruct (sec_texts sd) eqn:Ht; cbn [is_nonempty].
        { rewrite (Hempty eq_refl), app_nil_r in Himgs. rewrite app_nil_r.
          split; [exact Himgs|]. split; [exact Hsecs|]. split; [constructor | reflexivity]. }
        { rewrite map_app, concat_app. cbn. rewrite !app_nil_r.
          split; [exact Himgs|].
          split; [apply Forall_app; split; [exact Hsecs|]; repeat constructor; exact Hsd|].
          split; [constructor | reflexivity]. }
      * destruct (is_nonempty (stripped_text e)); cbn [fst snd].
        { split; [exact Hk|]. split; [exact Himgs|]. split; [exact Hsecs|].
          split; [apply tokens_present_add_text; exact Hsd|].
          cbn. intros E. destruct (sec_texts sd); discriminate. }
        { split; [exact Hk|]. split; [exact Himgs|]. split; [exact Hsecs|].
          split; [exact Hsd | exact Hempty]. }
Qed.

End PdfGrouping.

(** X10: the first pass of the pdf pipeline hands the extracted images to the
    [Image] blocks in order, one each, until either runs out: [image_index]
    ends as the smaller of the two counts; the images of the saved sections,
    in order, are the first [image_index] extracted images, each with its
    [[IMG:path]] token among the texts of its section; what the orphan
    distribution receives is [extracted_images[image_index:]], the rest. *)
Theorem pdf_images_positioned_in_order
    (re_match : pystr -> pystr -> bool) (config : ChunkingConfig)
    (extracted_images : list pystr) (elements : list PdfElement) :
  let '(sections, section_data, image_index) :=
    fold_left (pdf_step re_match config extracted_images) elements
      ([], new_section section_start, 0%nat) in
  image_index = Nat.min (image_blocks elements) (length extracted_images)
  /\ concat (map sec_images (save_text_section sections section_data))
     = take image_index extracted_images
  /\ Forall tokens_present (save_text_section sections section_data)
  /\ concat (map sec_images (save_text_section sections section_data))
       ++ drop image_index extracted_images
     = extracted_images.
Proof.
  pose proof (pdf_loop_invariant re_match config extracted_images elements) as H.
  cbv zeta in H. destruct (fold_left _ _ _) as [[sections sd] k]. cbn [fst snd] in H.
  destruct H as (Hk & Himgs & Hsecs & Hsd & Hempty).
  split; [exact Hk|].
  assert (Hsaved : concat (map sec_images (save_text_section sections sd))
                   = take k extracted_images
                   /\ Forall tokens_present (save_text_section sections sd)).
  { unfold save_text_section. destruct (sec_texts sd) eqn:Ht; cbn [is_nonempty].
    - rewrite (Hempty eq_refl), app_nil_r in Himgs. split; assumption.
    - rewrite map_app, concat_app. cbn. rewrite app_nil_r. split; [exact Himgs|].
      apply Forall_app. split; [exact Hsecs|]. repeat constructor. exact Hsd. }
  destruct Hsaved as [Hs1 Hs2].
  split; [exact Hs1|]. split; [exact Hs2|]. rewrite Hs1. apply take_drop.
Qed.

(* ===================================================================== *)
(** * Chunks of a Markdown document                                       *)
(* ===================================================================== *)

(** The heading and image patterns on inputs whose results were obtained
    from Python's [re]. *)
Example markdown_patterns :
  split_sections (lit "intro" ++ [newline] ++ lit "# A" ++ [newline] ++ lit "body"
                  ++ [newline] ++ lit "#### deep" ++ [newline] ++ lit "##  B")
    = [lit "intro" ++ [newline]; lit "# A";
       [newline] ++ lit "body" ++ [newline] ++ lit "#### deep" ++ [newline]; lit "##  B"; []]
  /\ split_sections (lit "# " ++ [newline; newline] ++ lit "foo")
     = [[]; lit "# " ++ [newline; newline] ++ lit "foo"; []]
  /\ split_sections (lit "a# b") = [lit "a# b"]
  /\ split_sections (lit "#  ") = [[]; lit "#  "; []]
  /\ split_sections (lit "# " ++ [newline]) = [lit "# " ++ [newline]]
  /\ map is_heading [lit "# a"; lit "### a"; lit "#### a"; lit "#a"; lit "a"; lit "##"]
     = [true; true; false; false; false; false]
  /\ map heading_title [lit "##  Title "; lit "####x"; lit "plain"; lit "# #a"]
     = [lit "Title "; lit "x"; lit "plain"; lit "#a"]
  /\ img_refs (lit "x ![a](p.png) ![](q) ![b]() ![c] (r) ![![d](s)](t)")
     = [lit "p.png"; lit "q"; lit "s"]
  /\ clean_img_refs (lit "x ![a](p.png) ![b]() !![c](r)(u)")
     = lit "x " ++ img_label (lit "a") ++ lit " ![b]() !" ++ img_label (lit "c") ++ lit "(u)".
Proof. repeat split; vm_compute; reflexivity. Qed.

Lemma emitted_made (sf sec : pystr) (page : Z) (imgs : list pystr)
    (chunks : list DocumentChunk) :
  emitted sf sec page imgs chunks ->
  Forall (fun c => exists t i, c = _create_chunk t sf sec i page /\ (i = imgs \/ i = []))
    chunks.
Proof.
  destruct chunks as [|c rest]; [constructor|]. intros [(t & Ht) Hrest]. constructor.
  - destruct Ht as [-> | ->]; eexists _, _; split; try reflexivity; auto.
  - eapply Forall_impl; [exact Hrest|]. intros c' [t' ->].
    eexists _, _. split; [reflexivity | auto].
Qed.

Section MarkdownFacts.

Variable py_int : pystr -> option Z.
Variable config : ChunkingConfig.
Variable sf : pystr.
Variable image_map : gmap pystr pystr.
Variable code_blocks : list pystr.
Hypothesis Hblocks : Forall (fun b => blank b = false) code_blocks.

Lemma collect_images_resolved (refs current_images : list pystr) :
  NoDup current_images /\ Forall (resolved image_map) current_images ->
  NoDup (collect_images image_map current_images refs)
  /\ Forall (resolved image_map) (collect_images image_map current_images refs).
Proof.
  unfold collect_images. revert current_images.
  induction refs as [|img_ref refs IH]; intros cur [Hnd Hres]; [split; assumption|].
  cbn [fold_left]. apply IH.
  destruct (image_map !! img_ref) as [full_path|] eqn:Hlook; [|split; assumption].
  destruct (existsb (str_eqb full_path) cur) eqn:Hex; [split; assumption|].
  split.
  - apply NoDup_app. split; [exact Hnd|]. split; [|apply NoDup_singleton].
    intros x Hx Hx'. apply list_elem_of_singleton in Hx'. subst x.
    assert (Hin : existsb (str_eqb full_path) cur = true).
    { apply existsb_exists. exists full_path. split; [apply list_elem_of_In; exact Hx|].
      apply str_eqb_eq. reflexivity. }
    congruence.
  - apply Forall_app. split; [exact Hres|]. constructor; [|constructor].
    exists img_ref. exact Hlook.
Qed.

Lemma md_save_sound fuel chunks current_section (current_text current_images : list pystr) out :
  Forall (md_sound sf image_map) chunks ->
  Forall (fun p => blank p = false) current_text ->
  NoDup current_images /\ Forall (resolved image_map) current_images ->
  md_save py_int config fuel sf code_blocks chunks current_section
    current_text current_images = Done out ->
  Forall (md_sound sf image_map) out.
Proof.
  intros Hchunks Htext [Hnd Hres]. unfold md_save.
  destruct current_text as [|p rest]; [intros [= <-]; exact Hchunks|].
  destruct (_split_text_with_overlap _ _ _ _ _ _ _ _) as [sub| |] eqn:Hsub;
    cbn; try discriminate.
  intros [= <-]. apply Forall_app. split; [exact Hchunks|].
  pose proof (segmenter_emits _ _ _ _ _ _ _ _ _ Hsub) as Hem.
  assert (Hink : Forall has_text sub).
  { eapply segmenter_has_text; [left | exact Hsub].
    apply restore_nonblank; [exact Hblocks|]. apply blank_join_cons.
    inversion Htext; assumption. }
  pose proof (emitted_made _ _ _ _ _ Hem) as Hmade.
  pose proof (emitted_well_identified _ _ _ _ _ Hem) as Hid.
  pose proof (emitted_consistent _ _ _ _ _ Hem) as Hmeta.
  apply Forall_lookup_2. intros i c Hic.
  pose proof (Forall_lookup_1 _ _ _ _ Hink Hic) as H1.
  pose proof (Forall_lookup_1 _ _ _ _ Hmade Hic) as (t & imgs & -> & Himgs).
  pose proof (Forall_lookup_1 _ _ _ _ Hid Hic) as H3.
  pose proof (Forall_lookup_1 _ _ _ _ Hmeta Hic) as H4.
  split; [reflexivity|]. split; [reflexivity|]. split; [exact H3|]. split; [exact H4|].
  split; [exact H1|].
  destruct Himgs as [-> | ->]; cbn; split; try assumption; constructor.
Qed.

Lemma md_step_sound fuel chunks current_section (current_text current_images : list pystr)
    part chunks' current_section' current_text' current_images' :
  Forall (md_sound sf image_map) chunks ->
  Forall (fun p => blank p = false) current_text ->
  NoDup current_images /\ Forall (resolved image_map) current_images ->
  md_step py_int config fuel sf image_map code_blocks
    (chunks, current_section, current_text, current_images) part
    = Done (chunks', current_section', current_text', current_images') ->
  Forall (md_sound sf image_map) chunks'
  /\ Forall (fun p => blank p = false) current_text'
  /\ NoDup current_images' /\ Forall (resolved image_map) current_images'.
Proof.
  intros Hchunks Htext Himgs. unfold md_step.
  destruct (negb (is_nonempty (strip part))); [intros [= <- <- <- <-]; auto|].
  destruct (is_heading (strip part)).
  - destruct (md_save _ _ _ _ _ _ _ _ _) as [chunks1| |] eqn:Hsave; cbn; try discriminate.
    intros [= <- <- <- <-].
    split; [exact (md_save_sound _ _ _ _ _ _ Hchunks Htext Himgs Hsave)|]. split; [constructor|].
    destruct (is_nonempty current_text); [split; constructor | exact Himgs].
  - intros [= <- <- <- <-]. split; [exact Hchunks|]. split.
    + destruct (is_nonempty (strip (clean_img_refs _))) eqn:Hne; [|exact Htext].
      apply Forall_app. split; [exact Htext|]. constructor; [|constructor].
      rewrite <- blank_strip. apply strip_nonblank. exact Hne.
    + apply collect_images_resolved. exact Himgs.
Qed.

Lemma md_loop_sound fuel parts :
  forall chunks current_section (current_text current_images : list pystr)
         chunks' current_section' current_text' current_images',
    Forall (md_sound sf image_map) chunks ->
    Forall (fun p => blank p = false) current_text ->
    NoDup current_images /\ Forall (resolved image_map) current_images ->
    md_loop py_int config fuel sf image_map code_blocks parts
      (chunks, current_section, current_text, current_images)
      = Done (chunks', current_section', current_text', current_images') ->
    Forall (md_sound sf image_map) chunks'
    /\ Forall (fun p => blank p = false) current_text'
    /\ NoDup current_images' /\ Forall (resolved image_map) current_images'.
Proof.
  induction parts as [|part rest IH]; intros * Hchunks Htext Himgs.
  - cbn. intros [= <- <- <- <-]. auto.
  - cbn [md_loop].
    destruct (md_step _ _ _ _ _ _ _ _) as [[[[c1 s1] t1] i1]| |] eqn:Hstep;
      cbn; try discriminate.
    destruct (md_step_sound _ _ _ _ _ _ _ _ _ _ Hchunks Htext Himgs Hstep)
      as (H1 & H2 & H3).
    apply IH; assumption.
Qed.

End MarkdownFacts.

(** X11: every chunk of a Markdown document is of the source file and on page
    0, carries the identifier and the metadata of its own fields, has a
    text that is not blank, and has for images distinct paths that
    [image_map] holds: a reference the map does not know adds nothing, and
    a path referred to twice in a section is listed once. *)
Theorem markdown_chunks_are_sound
    (py_int : pystr -> option Z) (config : ChunkingConfig) (fuel : nat)
    (content sf : pystr) (image_map : gmap pystr pystr)
    (chunks : list DocumentChunk) :
  _split_markdown_optimized py_int config fuel content sf image_map = Done chunks ->
  Forall (md_sound sf image_map) chunks.
Proof.
  unfold _split_markdown_optimized.
  pose proof (protect_go_blocks_nonblank content 0 0) as Hblocks.
  fold (protect_code_blocks content) in Hblocks.
  destruct (protect_code_blocks content) as [protected_content code_blocks].
  cbn [snd] in Hblocks.
  destruct (md_loop _ _ _ _ _ _ _ _) as [[[[c1 s1] t1] i1]| |] eqn:Hloop;
    cbn; try discriminate.
  intros Hsave.
  destruct (md_loop_sound py_int config sf image_map code_blocks Hblocks fuel _
              _ _ _ _ _ _ _ _ (Forall_nil_2 _) (Forall_nil_2 _)
              (conj (NoDup_nil_2) (Forall_nil_2 _)) Hloop) as (H1 & H2 & H3).
  exact (md_save_sound py_int config sf image_map code_blocks Hblocks fuel
           _ _ _ _ _ H1 H2 H3 Hsave).
Qed.

Lemma markdown_chunks_are_sound_witness :
  let nl := [newline] in
  let content :=
    lit "Intro ![logo](logo.png)" ++ nl ++ lit "# Guide" ++ nl ++
    lit "See ![fig](a.png) and again ![fig](a.png) and ![x](missing.png)." ++ nl ++
    lit "```" ++ nl ++ lit "# not a heading" ++ nl ++ lit "```" ++ nl ++
    lit "## Empty" ++ nl ++ lit "### Last" ++ nl ++ lit "End." in
  let image_map : gmap pystr pystr :=
    {[ lit "a.png" := lit "docs/a.png"; lit "logo.png" := lit "docs/logo.png" ]} in
  exists chunks,
    _split_markdown_optimized int_ascii (example_config 200 0 true true) 0
      content (lit "docs/g.md") image_map = Done chunks
    /\ map section chunks = [section_start; lit "Guide"; lit "Last"]
    /\ map images chunks = [[lit "docs/logo.png"]; [lit "docs/a.png"]; []]
    /\ map chunk_id chunks = [lit "42ca9c1625fe"; lit "1e8e9c709840"; lit "f7658a3d1205"]
    /\ Forall (md_sound (lit "docs/g.md") image_map) chunks.
Proof.
  eexists. split; [vm_compute; reflexivity|].
  split; [vm_compute; reflexivity|]. split; [vm_compute; reflexivity|].
  split; [vm_compute; reflexivity|].
  apply (markdown_chunks_are_sound int_ascii (example_config 200 0 true true) 0%nat
           (lit "Intro ![logo](logo.png)" ++ [newline] ++ lit "# Guide" ++ [newline] ++
            lit "See ![fig](a.png) and again ![fig](a.png) and ![x](missing.png)." ++ [newline] ++
            lit "```" ++ [newline] ++ lit "# not a heading" ++ [newline] ++ lit "```" ++ [newline] ++
            lit "## Empty" ++ [newline] ++ lit "### Last" ++ [newline] ++ lit "End.")
           (lit "docs/g.md")
           {[ lit "a.png" := lit "docs/a.png"; lit "logo.png" := lit "docs/logo.png" ]}).
  vm_compute. reflexivity.
Defined.

(* ===================================================================== *)
(** * Statistics of a parse                                               *)
(* ===================================================================== *)

Lemma py_sum_acc (l : list Z) (a : Z) : fold_left Z.add l a = a + py_sum l.
Proof.
  unfold py_sum. revert a. induction l as [|x l IH]; intros a; cbn [fold_left]; [lia|].
  rewrite (IH (a + x)), (IH (0 + x)). lia.
Qed.

Lemma py_sum_cons (x : Z) (l : list Z) : py_sum (x :: l) = x + py_sum l.
Proof. unfold py_sum. cbn. apply py_sum_acc. Qed.

Lemma py_sum_bounds (lo hi : Z) (l : list Z) :
  Forall (fun x => lo <= x <= hi) l ->
  len l * lo <= py_sum l <= len l * hi.
Proof.
  unfold len. induction 1 as [|x l Hx _ IH]; [cbn; lia|].
  rewrite py_sum_cons. cbn [length]. lia.
Qed.

Lemma py_max_spec (x : Z) (rest : list Z) :
  exists m, py_max (x :: rest) = Some m
            /\ In m (x :: rest) /\ Forall (fun y => y <= m) (x :: rest).
Proof.
  cbn [py_max]. eexists. split; [reflexivity|].
  revert x. induction rest as [|y rest IH]; intros x.
  - cbn. split; [auto|]. constructor; [lia | constructor].
  - cbn [fold_left]. destruct (IH (if x <? y then y else x)) as [Hin Hall].
    inversion Hall as [|? ? Hhead Htail]; subst. split.
    + destruct Hin as [<- | Hin]; [|right; right; exact Hin].
      destruct (Z.ltb_spec x y); [right; left | left]; reflexivity.
    + destruct (Z.ltb_spec x y); repeat constructor; try assumption; lia.
Qed.

Lemma py_min_spec (x : Z) (rest : list Z) :
  exists m, py_min (x :: rest) = Some m
            /\ In m (x :: rest) /\ Forall (fun y => m <= y) (x :: rest).
Proof.
  cbn [py_min]. eexists. split; [reflexivity|].
  revert x. induction rest as [|y rest IH]; intros x.
  - cbn. split; [auto|]. constructor; [lia | constructor].
  - cbn [fold_left]. destruct (IH (if y <? x then y else x)) as [Hin Hall].
    inversion Hall as [|? ? Hhead Htail]; subst. split.
    + destruct Hin as [<- | Hin]; [|right; right; exact Hin].
      destruct (Z.ltb_spec y x); [right; left | left]; reflexivity.
    + destruct (Z.ltb_spec y x); repeat constructor; try assumption; lia.
Qed.

Lemma with_images_bounds (chunks : list DocumentChunk) :
  0 <= py_sum (map (fun _ => 1) (List.filter (fun c => is_nonempty (images c)) chunks))
    <= len chunks
  /\ py_sum (map (fun _ => 1) (List.filter (fun c => is_nonempty (images c)) chunks))
     <= py_sum (map (fun c => len (images c)) chunks).
Proof.
  unfold len. induction chunks as [|c chunks [IH1 IH2]]; [cbn; lia|].
  cbn [List.filter map length]. rewrite (py_sum_cons (Z.of_nat (length (images c)))).
  destruct (images c) as [|img imgs]; cbn [is_nonempty map length].
  - lia.
  - rewrite py_sum_cons. lia.
Qed.

(** X12: building the statistics never fails, not even for an empty chunk
    list, for which every entry is 0.  Otherwise [min_chunk_size] and
    [max_chunk_size] are the lengths of the shortest and of the longest
    chunk text, [avg_chunk_size] lies between them, and
    [chunks_with_images] is at most [total_chunks] and at most
    [total_images]. *)
Theorem statistics_are_total_and_ordered (chunks : list DocumentChunk) :
  exists s,
    statistics chunks = Some s
    /\ total_chunks s = len chunks
    /\ 0 <= chunks_with_images s <= total_chunks s
    /\ chunks_with_images s <= total_images s
    /\ stat_min_chunk_size s <= avg_chunk_size s <= stat_max_chunk_size s
    /\ match chunks with
       | [] =>
           s = {| total_chunks := 0; chunks_with_images := 0; total_images := 0;
                  avg_chunk_size := 0; stat_max_chunk_size := 0;
                  stat_min_chunk_size := 0 |}
       | _ :: _ =>
           Forall (fun c => stat_min_chunk_size s <= len (text c) <= stat_max_chunk_size s)
             chunks
           /\ Exists (fun c => len (text c) = stat_min_chunk_size s) chunks
           /\ Exists (fun c => len (text c) = stat_max_chunk_size s) chunks
       end.
Proof.
  destruct (with_images_bounds chunks) as [Hw1 Hw2].
  destruct chunks as [|c rest].
  - eexists. split; [reflexivity|]. cbn. repeat split; lia.
  - unfold statistics.
    set (sizes := map (fun c0 => len (text c0)) (c :: rest)).
    destruct (py_max_spec (len (text c)) (map (fun c0 => len (text c0)) rest))
      as (mx & Hmx & Hinx & Hallx).
    destruct (py_min_spec (len (text c)) (map (fun c0 => len (text c0)) rest))
      as (mn & Hmn & Hinn & Halln).
    change (len (text c) :: map (fun c0 => len (text c0)) rest) with sizes in *.
    cbn [is_nonempty]. rewrite Hmx, Hmn.
    assert (Hlen : 0 < len (c :: rest)) by (unfold len; cbn; lia).
    destruct (Z.eqb_spec (len (c :: rest)) 0) as [E|_]; [lia|].
    assert (Hboth : Forall (fun x => mn <= x <= mx) sizes).
    { apply Forall_forall. intros x Hx.
      rewrite Forall_forall in Hallx, Halln. split; [apply Halln | apply Hallx]; exact Hx. }
    pose proof (py_sum_bounds mn mx sizes Hboth) as Hsum.
    assert (Hlens : len sizes = len (c :: rest)) by (unfold sizes, len; rewrite length_map; reflexivity).
    rewrite Hlens in Hsum.
    eexists. split; [reflexivity|]. cbn [total_chunks chunks_with_images total_images
      avg_chunk_size stat_max_chunk_size stat_min_chunk_size].
    split; [reflexivity|]. split; [exact Hw1|]. split; [exact Hw2|].
    split.
    { split; [apply Z.div_le_lower_bound | apply Z.div_le_upper_bound]; lia. }
    split.
    { unfold sizes in Hboth. rewrite Forall_map in Hboth. exact Hboth. }
    split; apply Exists_exists.
    + apply in_map_iff in Hinn as (c0 & Hc0 & Hin0). exists c0.
      split; [apply list_elem_of_In; exact Hin0 | exact Hc0].
    + apply in_map_iff in Hinx as (c0 & Hc0 & Hin0). exists c0.
      split; [apply list_elem_of_In; exact Hin0 | exact Hc0].
Qed.

(* ===================================================================== *)
(** * Walking a directory                                                 *)
(* ===================================================================== *)

Section DirectoryFacts.

Variable world : Type.
Variable suffix_of : pystr -> pystr.
Variable lower : pystr -> pystr.
Variables _parse_docx _parse_markdown _parse_pdf :
  pystr -> world -> outcome (list DocumentChunk) * world.
Variable glob : pystr -> pystr -> world -> outcome (list pystr).

Local Abbreviation parse' :=
  (parse world suffix_of lower _parse_docx _parse_markdown _parse_pdf).
Local Abbreviation parse_files' :=
  (parse_files world suffix_of lower _parse_docx _parse_markdown _parse_pdf).
Local Abbreviation parse_extensions' :=
  (parse_extensions world suffix_of lower _parse_docx _parse_markdown _parse_pdf glob).

Lemma parse_unsupported (file_path : pystr) (w : world) :
  ~ In (lower (suffix_of file_path)) [lit ".docx"; lit ".md"; lit ".pdf"] ->
  exists msg, parse' file_path w = (Raised (ValueError msg), w).
Proof.
  intros H. unfold parse. eexists.
  rewrite !str_eqb_neq; [reflexivity| | |]; intros E; apply H; rewrite E; simpl; auto.
Qed.

Lemma parse_files_never_raises (files : list pystr) :
  forall all_chunks w e, fst (parse_files' files all_chunks w) <> Raised e.
Proof.
  induction files as [|f rest IH]; intros all_chunks w e; cbn [parse_files].
  - discriminate.
  - destruct (parse' f w) as [[chunks|e'|] w']; [apply IH | apply IH | discriminate].
Qed.

Lemma parse_files_returns (files : list pystr) :
  (forall f w, fst (parse' f w) <> Spin) ->
  forall all_chunks w, exists out w', parse_files' files all_chunks w = (Done out, w').
Proof.
  intros Hspin. induction files as [|f rest IH]; intros all_chunks w; cbn [parse_files].
  - eauto.
  - specialize (Hspin f w).
    destruct (parse' f w) as [[chunks|e'|] w']; [apply IH | apply IH |].
    contradiction Hspin. reflexivity.
Qed.

Lemma parse_files_unsupported (files : list pystr) (all_chunks : list DocumentChunk)
    (w : world) :
  Forall (fun f => ~ In (lower (suffix_of f)) [lit ".docx"; lit ".md"; lit ".pdf"]) files ->
  parse_files' files all_chunks w = (Done all_chunks, w).
Proof.
  induction 1 as [|f rest Hf _ IH]; cbn [parse_files]; [reflexivity|].
  destruct (parse_unsupported f w Hf) as [msg ->]. exact IH.
Qed.

(** An exception that leaves the walk was raised by [glob]. *)
Lemma parse_extensions_raises_with_glob (dir_path : pystr) (extensions : list pystr) :
  forall all_chunks w e,
    fst (parse_extensions' dir_path extensions all_chunks w) = Raised e ->
    exists ext w', In ext extensions /\ glob dir_path (lit "*" ++ ext) w' = Raised e.
Proof.
  induction extensions as [|ext rest IH]; intros all_chunks w e; cbn [parse_extensions].
  - discriminate.
  - destruct (glob dir_path (lit "*" ++ ext) w) as [files|e'|] eqn:Hglob.
    + pose proof (parse_files_never_raises files all_chunks w) as Hfiles.
      destruct (parse_files' files all_chunks w) as [[out|e'|] w'].
      * intros H. destruct (IH out w' e H) as (ext' & w'' & Hin & Hraise).
        exists ext', w''. split; [right; exact Hin | exact Hraise].
      * intros _. contradiction (Hfiles e'). reflexivity.
      * discriminate.
    + intros [= ->]. exists ext, w. split; [left; reflexivity | exact Hglob].
    + discriminate.
Qed.

Lemma parse_extensions_returns (dir_path : pystr) (extensions : list pystr) :
  (forall f w, fst (parse' f w) <> Spin) ->
  (forall ext w, In ext extensions ->
     exists files, glob dir_path (lit "*" ++ ext) w = Done files) ->
  forall all_chunks w,
    exists out w', parse_extensions' dir_path extensions all_chunks w = (Done out, w').
Proof.
  intros Hspin. induction extensions as [|ext rest IH]; intros Hglob all_chunks w;
    cbn [parse_extensions]; [eauto|].
  destruct (Hglob ext w (or_introl eq_refl)) as [files ->].
  destruct (parse_files_returns files Hspin all_chunks w) as (out & w' & ->).
  apply IH. intros ext' w'' Hin. apply Hglob. right. exact Hin.
Qed.

Lemma parse_extensions_unsupported (dir_path : pystr) (extensions : list pystr)
    (all_chunks : list DocumentChunk) (w : world) :
  (forall ext, In ext extensions ->
     exists files,
       glob dir_path (lit "*" ++ ext) w = Done files
       /\ Forall (fun f => ~ In (lower (suffix_of f)) [lit ".docx"; lit ".md"; lit ".pdf"])
            files) ->
  parse_extensions' dir_path extensions all_chunks w = (Done all_chunks, w).
Proof.
  induction extensions as [|ext rest IH]; intros Hglob; cbn [parse_extensions];
    [reflexivity|].
  destruct (Hglob ext (or_introl eq_refl)) as (files & -> & Hfiles).
  rewrite parse_files_unsupported by exact Hfiles.
  apply IH. intros ext' Hin. apply Hglob. right. exact Hin.
Qed.

End DirectoryFacts.

(** X13: [parse_directory] lets no exception of [parse] escape: a file
    whose parse fails is skipped and the walk goes on (the [print] calls
    are taken to succeed).  The only exceptions
    it raises are those of [Path.glob], which the [for] statement runs
    outside the [try], for one of the patterns [*ext] (an invalid pattern
    such as ["***"] raises [ValueError]).  When every listing succeeds and
    no parse diverges, it returns a chunk list.  When, in the world it
    starts from, the files that each pattern finds all have a suffix other
    than [.docx], [.md], [.pdf] (for instance with [extensions=[".txt"]]),
    it returns no chunk and leaves the world as it found it, without any
    error. *)
Theorem parse_directory_swallows_failures
    (world : Type) (suffix_of lower : pystr -> pystr)
    (_parse_docx _parse_markdown _parse_pdf :
       pystr -> world -> outcome (list DocumentChunk) * world)
    (glob : pystr -> pystr -> world -> outcome (list pystr))
    (dir_path : pystr) (extensions : option (list pystr)) (w : world) :
  let exts := default [lit ".docx"; lit ".md"] extensions in
  let run :=
    parse_directory world suffix_of lower _parse_docx _parse_markdown _parse_pdf glob
      dir_path extensions w in
  (forall e, fst run = Raised e ->
     exists ext w', In ext exts /\ glob dir_path (lit "*" ++ ext) w' = Raised e)
  /\ ((forall f w',
         fst (parse world suffix_of lower _parse_docx _parse_markdown _parse_pdf f w')
         <> Spin) ->
      (forall ext w', In ext exts ->
         exists files, glob dir_path (lit "*" ++ ext) w' = Done files) ->
      exists chunks w', run = (Done chunks, w'))
  /\ ((forall ext, In ext exts ->
         exists files,
           glob dir_path (lit "*" ++ ext) w = Done files
           /\ Forall (fun f => ~ In (lower (suffix_of f))
                                  [lit ".docx"; lit ".md"; lit ".pdf"]) files) ->
      run = (Done [], w)).
Proof.
  cbv zeta. unfold parse_directory. split; [|split].
  - intros e. apply parse_extensions_raises_with_glob.
  - intros Hspin Hglob. apply parse_extensions_returns; assumption.
  - intros Hglob. apply parse_extensions_unsupported. exact Hglob.
Qed.

(** The world of the witness is the list of the paths read so far; its
    [glob] rejects the pattern ["***"] as [Path.glob] does. *)
Lemma parse_directory_swallows_failures_witness :
  let touch := fun (p : pystr) (w : list pystr) =>
                 (Done ([] : list DocumentChunk), w ++ [p]) in
  let glob := fun (dir_path pattern : pystr) (w : list pystr) =>
                if contains (lit "***") pattern
                then Raised (ValueError (lit "Invalid pattern: '**' can only be an entire path component"))
                else if str_eqb pattern (lit "*.txt")
                then Done [dir_path ++ lit "/a.txt"; dir_path ++ lit "/B.TXT"]
                else Done [] in
  parse_directory (list pystr) path_suffix lower_ascii touch touch touch glob
    (lit "notes") (Some [lit ".txt"; lit ".rst"]) []
  = (Done [], [])
  /\ fst (parse_directory (list pystr) path_suffix lower_ascii touch touch touch glob
            (lit "notes") (Some [lit ".md"; lit "**"]) [])
     = Raised (ValueError (lit "Invalid pattern: '**' can only be an entire path component")).
Proof.
  split; [|vm_compute; reflexivity].
  apply (proj2 (proj2 (parse_directory_swallows_failures (list pystr) path_suffix lower_ascii
           (fun p w => (Done [], w ++ [p])) (fun p w => (Done [], w ++ [p]))
           (fun p w => (Done [], w ++ [p]))
           (fun dir_path pattern w =>
              if contains (lit "***") pattern
              then Raised (ValueError (lit "Invalid pattern: '**' can only be an entire path component"))
              else if str_eqb pattern (lit "*.txt")
              then Done [dir_path ++ lit "/a.txt"; dir_path ++ lit "/B.TXT"]
              else Done [])
           (lit "notes") (Some [lit ".txt"; lit ".rst"]) []))).
  intros ext [<- | [<- | []]]; eexists; (split; [vm_compute; reflexivity|]).
  - repeat (constructor; [vm_compute; intros [H|[H|[H|[]]]]; discriminate|]). constructor.
  - constructor.
Defined.

(* ===================================================================== *)
(** * The size of paragraph chunks                                        *)
(* ===================================================================== *)

Lemma len_app {A} (a b : list A) : len (a ++ b) = len a + len b.
Proof. unfold len. rewrite length_app. lia. Qed.

Lemma len_join_cons (u : pystr) (rest : list pystr) :
  len (join [newline] (u :: rest)) = len (concat (u :: rest)) + len rest.
Proof.
  revert u. induction rest as [|v rest IH]; intros u.
  - cbn. rewrite app_nil_r. unfold len. cbn. lia.
  - change (join [newline] (u :: v :: rest)) with (u ++ [newline] ++ join [newline] (v :: rest)).
    rewrite !len_app, IH. cbn [concat]. rewrite !len_app. unfold len. cbn [length]. lia.
Qed.

Lemma units_count (max : Z) (buf : list pystr) :
  Forall (fun u => 1 <= len u <= max) buf -> len buf <= len (concat buf).
Proof.
  induction 1 as [|u buf Hu _ IH]; [reflexivity|].
  cbn [concat]. rewrite len_app. unfold len in *. cbn [length]. lia.
Qed.

Section SizeBound.

Variable py_int : pystr -> option Z.
Variable config : ChunkingConfig.
Variables (sf sec : pystr) (page : Z).
Variable fuel : nat.
Variable imgs : list pystr.
Hypothesis Hmax : 0 <= max_chunk_size config.

Local Abbreviation M := (max_chunk_size config).
Local Abbreviation sized := (Forall (fun c => len (text c) <= 2 * M + 1)).

(** The buffer between two iterations: its units are paragraphs that fit,
    [current_length] is their total length, and either that total fits
    or the buffer is an overlap seed with one paragraph. *)
Lemma buffer_joined_bound (buf : list pystr) (cl : Z) :
  cl = len (concat buf) ->
  Forall (fun u => 1 <= len u <= M) buf ->
  cl <= M \/ (length buf <= 2)%nat ->
  len (join [newline] buf) <= 2 * M + 1.
Proof.
  intros Hcl Hunits Hcase. destruct buf as [|u rest]; [cbn; unfold len; cbn; lia|].
  rewrite len_join_cons. pose proof (units_count M _ Hunits) as Hk.
  destruct Hcase as [Hfit | Hshort].
  - unfold len in *. cbn [length] in *. lia.
  - destruct rest as [|v [|w rest]]; [| |cbn in Hshort; lia].
    + inversion Hunits; subst. cbn. rewrite app_nil_r. unfold len in *. cbn. lia.
    + inversion Hunits as [|? ? Hu Hrest]; subst. inversion Hrest; subst.
      cbn [concat]. rewrite app_nil_r, !len_app. unfold len in *. cbn [length]. lia.
Qed.

Lemma flush_sized (chunks : list DocumentChunk) (buf : list pystr) (cl : Z) :
  sized chunks ->
  cl = len (concat buf) ->
  Forall (fun u => 1 <= len u <= M) buf ->
  cl <= M \/ (length buf <= 2)%nat ->
  sized (flush sf sec page [] imgs chunks buf).
Proof.
  intros Hchunks Hcl Hunits Hcase. unfold flush.
  destruct buf as [|u rest] eqn:E; [exact Hchunks|]. rewrite <- E in *.
  apply Forall_app. split; [exact Hchunks|]. constructor; [|constructor].
  change (len (join [newline] buf) <= 2 * M + 1).
  eapply buffer_joined_bound; eassumption.
Qed.

Lemma para_step_sized (chunks : list DocumentChunk) (buf : list pystr) (cl : Z)
    (p : pystr) chunks' buf' cl' :
  is_code_placeholder p = false -> 1 <= len p ->
  sized chunks ->
  cl = len (concat buf) ->
  Forall (fun u => 1 <= len u <= M) buf ->
  cl <= M \/ (length buf <= 2)%nat ->
  para_step py_int config sf sec page fuel [] imgs (chunks, buf, cl) p
    = Done (chunks', buf', cl') ->
  sized chunks'
  /\ cl' = len (concat buf')
  /\ Forall (fun u => 1 <= len u <= M) buf'
  /\ (cl' <= M \/ (length buf' <= 2)%nat).
Proof.
  intros Hph Hp Hchunks Hcl Hunits Hcase.
  pose proof (flush_sized chunks buf cl Hchunks Hcl Hunits Hcase) as Hflush.
  destruct (Z_lt_ge_dec M (len p)) as [Hbig | Hfits].
  - unfold para_step. rewrite (actual_len_plain py_int [] p Hph).
    cbn [mbind outcome_bind]. rewrite Hph.
    destruct (Z.ltb_spec M (len p)); [|lia]. cbn [andb negb].
    destruct (_split_by_characters _ _ _ _ _ _ _) as [sub| |] eqn:Hsub;
      cbn; try discriminate.
    intros [= <- <- <-]. split.
    + apply Forall_app. split; [exact Hflush|].
      assert (Hfit : Forall (fun c => len (text c) <= M) sub).
      { eapply (char_loop_fits config _ sf sec [] page Hmax fuel 0 [] sub);
          [lia | constructor | exact Hsub]. }
      eapply Forall_impl; [exact Hfit|]. cbn. intros c Hc. lia.
    + split; [|split; [constructor | right; cbn; lia]].
      destruct buf; cbn [is_nonempty]; [exact Hcl | reflexivity].
  - rewrite (para_step_plain py_int config sf sec page fuel imgs chunks buf cl p)
      by (split; [exact Hph | lia]).
    destruct (Z.ltb_spec M (cl + len p)).
    + destruct (if 0 <? chunk_overlap config then last buf else None) as [u|] eqn:Hu;
        intros [= <- <- <-].
      * assert (Hin : 1 <= len u <= M).
        { destruct (0 <? chunk_overlap config); [|discriminate].
          apply last_Some in Hu as [l' ->]. apply Forall_app in Hunits as [_ Hl].
          inversion Hl; assumption. }
        split; [exact Hflush|]. split.
        { cbn [concat]. rewrite app_nil_r, !len_app. reflexivity. }
        split; [repeat constructor; lia | right; cbn; lia].
      * split; [exact Hflush|]. split.
        { cbn [concat]. rewrite app_nil_r. reflexivity. }
        split; [repeat constructor; lia | right; cbn; lia].
    + intros [= <- <- <-]. split; [exact Hchunks|]. split.
      { rewrite concat_app, len_app. cbn [concat]. rewrite app_nil_r. lia. }
      split; [apply Forall_app; split; [exact Hunits | repeat constructor; lia]|].
      left. lia.
Qed.

Lemma para_loop_sized (paragraphs : list pystr) :
  Forall (fun p => is_code_placeholder p = false /\ 1 <= len p) paragraphs ->
  forall (chunks : list DocumentChunk) (buf : list pystr) (cl : Z) chunks' buf' cl',
    sized chunks ->
    cl = len (concat buf) ->
    Forall (fun u => 1 <= len u <= M) buf ->
    cl <= M \/ (length buf <= 2)%nat ->
    para_loop py_int config sf sec page fuel [] imgs paragraphs (chunks, buf, cl)
      = Done (chunks', buf', cl') ->
    sized chunks'
    /\ cl' = len (concat buf')
    /\ Forall (fun u => 1 <= len u <= M) buf'
    /\ (cl' <= M \/ (length buf' <= 2)%nat).
Proof.
  induction 1 as [|p rest [Hph Hp] _ IH]; intros * Hchunks Hcl Hunits Hcase.
  - cbn. intros [= <- <- <-]. auto.
  - cbn [para_loop].
    destruct (para_step _ _ _ _ _ _ _ _ _ _) as [[[c1 b1] l1]| |] eqn:Hstep;
      cbn; try discriminate.
    destruct (para_step_sized _ _ _ _ _ _ _ Hph Hp Hchunks Hcl Hunits Hcase Hstep)
      as (H1 & H2 & H3 & H4).
    apply IH; assumption.
Qed.

End SizeBound.

Lemma paragraphs_nonempty (protected_text : pystr) :
  Forall (fun p => 1 <= len p) (paragraphs_of protected_text).
Proof.
  unfold paragraphs_of. apply Forall_forall. intros p Hp.
  apply list_elem_of_In, filter_In in Hp as [_ Hne].
  destruct p; [discriminate|]. unfold len. cbn. lia.
Qed.

(** X14: the size the segmenter really guarantees.  For a text without fenced
    code in which no line has the shape of a code-block placeholder, and
    [max_chunk_size >= 0], no chunk is longer than
    [2 * max_chunk_size + 1] characters, in either mode: a chunk of whole
    paragraphs may consist of the overlap paragraph, a newline and one
    more paragraph, each up to [max_chunk_size] long. *)
Theorem paragraph_chunks_fit_twice_max
    (py_int : pystr -> option Z) (config : ChunkingConfig)
    (sf sec : pystr) (page : Z) (fuel : nat) (t : pystr) (imgs : list pystr)
    (chunks : list DocumentChunk) :
  0 <= max_chunk_size config ->
  protect_code_blocks t = (t, []) ->
  Forall (fun p => is_code_placeholder p = false) (paragraphs_of t) ->
  _split_text_with_overlap py_int config sf sec page fuel t imgs = Done chunks ->
  Forall (fun c => len (text c) <= 2 * max_chunk_size config + 1) chunks.
Proof.
  intros Hmax Hprot Hplain. unfold _split_text_with_overlap. rewrite Hprot.
  destruct (Z.leb_spec (len t) (max_chunk_size config)).
  - intros [= <-]. constructor; [|constructor].
    change (len t <= 2 * max_chunk_size config + 1). lia.
  - destruct (split_by_paragraph config).
    + destruct (para_loop _ _ _ _ _ _ _ _ _ _) as [[[c1 b1] l1]| |] eqn:Hloop;
        cbn; try discriminate.
      intros [= <-].
      assert (Hps : Forall (fun p => is_code_placeholder p = false /\ 1 <= len p)
                      (paragraphs_of t)).
      { pose proof (paragraphs_nonempty t) as Hne.
        rewrite Forall_forall in Hplain, Hne. apply Forall_forall.
        intros p Hp. split; [apply Hplain | apply Hne]; exact Hp. }
      destruct (para_loop_sized py_int config sf sec page fuel imgs Hmax _ Hps
                  [] [] 0 _ _ _ (Forall_nil_2 _) eq_refl (Forall_nil_2 _)
                  (or_introl Hmax) Hloop) as (H1 & H2 & H3 & H4).
      eapply flush_sized; eassumption.
    + intros Hrun.
      assert (Hfit : Forall (fun c => len (text c) <= max_chunk_size config) chunks).
      { eapply (char_loop_fits config _ sf sec imgs page Hmax fuel 0 [] chunks);
          [lia | constructor | exact Hrun]. }
      eapply Forall_impl; [exact Hfit|]. cbn. intros c Hc. lia.
Qed.

(** The bound is reached: two paragraphs of [max_chunk_size] characters. *)
Lemma paragraph_chunks_fit_twice_max_witness :
  let config := example_config 5 1 true true in
  let t := lines [lit "aaaaa"; lit "bbbbb"] in
  exists c1 c2,
    _split_text_with_overlap int_ascii config (lit "a.md") (lit "S") 0 0 t [] = Done [c1; c2]
    /\ text c1 = lit "aaaaa"
    /\ text c2 = lines [lit "aaaaa"; lit "bbbbb"]
    /\ len (text c2) = 2 * max_chunk_size config + 1
    /\ Forall (fun c => len (text c) <= 2 * max_chunk_size config + 1) [c1; c2].
Proof.
  eexists _, _. split; [vm_compute; reflexivity|].
  split; [reflexivity|]. split; [reflexivity|]. split; [reflexivity|].
  apply (paragraph_chunks_fit_twice_max int_ascii (example_config 5 1 true true)
           (lit "a.md") (lit "S") 0 0%nat (lines [lit "aaaaa"; lit "bbbbb"]) []).
  - vm_compute. discriminate.
  - vm_compute. reflexivity.
  - vm_compute. repeat constructor.
  - vm_compute. reflexivity.
Defined.

(* ===================================================================== *)
(** * Markdown headings without a body                                    *)
(* ===================================================================== *)

Lemma md_loop_headings_only (py_int : pystr -> option Z) (config : ChunkingConfig)
    (fuel : nat) (sf : pystr) (image_map : gmap pystr pystr) (code_blocks : list pystr)
    (parts : list pystr) :
  Forall (fun part => strip part = [] \/ is_heading (strip part) = true) parts ->
  forall current_section,
  exists current_section',
    md_loop py_int config fuel sf image_map code_blocks parts
      ([], current_section, [], [])
    = Done ([], current_section', [], []).
Proof.
  induction 1 as [|part rest Hpart _ IH]; intros current_section; cbn [md_loop].
  - eexists. reflexivity.
  - unfold md_step. destruct Hpart as [Hblank | Hhead].
    + rewrite Hblank. cbn. apply IH.
    + destruct (strip part) as [|c s] eqn:E; [discriminate|].
      cbn [is_nonempty negb]. rewrite Hhead. cbn. apply IH.
Qed.

(** X15: A Markdown document made of headings only (levels 1 to 3, blank lines
    between them allowed) yields no chunk at all: a heading becomes the
    section name of the text that follows it and is part of no text, so
    headings without a body leave no trace.  The same holds for a blank
    document. *)
Theorem markdown_headings_without_body_give_no_chunk
    (py_int : pystr -> option Z) (config : ChunkingConfig) (fuel : nat)
    (content sf : pystr) (image_map : gmap pystr pystr) :
  Forall (fun part => strip part = [] \/ is_heading (strip part) = true)
    (split_sections (fst (protect_code_blocks content))) ->
  _split_markdown_optimized py_int config fuel content sf image_map = Done [].
Proof.
  intros Hparts. unfold _split_markdown_optimized.
  destruct (protect_code_blocks content) as [protected_content code_blocks].
  cbn [fst] in Hparts.
  destruct (md_loop_headings_only py_int config fuel sf image_map code_blocks _ Hparts
              section_start) as [current_section' ->].
  reflexivity.
Qed.

Lemma markdown_headings_without_body_give_no_chunk_witness :
  let content :=
    lit "# Guide" ++ [newline; newline] ++ lit "## Install" ++ [newline]
    ++ lit "### Linux" ++ [newline] in
  split_sections (fst (protect_code_blocks content))
    = [[]; lit "# Guide"; [newline; newline]; lit "## Install"; [newline];
       lit "### Linux"; [newline]]
  /\ _split_markdown_optimized int_ascii (example_config 100 0 true true) 0
       content (lit "g.md") ∅
     = Done [].
Proof.
  split; [vm_compute; reflexivity|].
  apply (markdown_headings_without_body_give_no_chunk int_ascii
           (example_config 100 0 true true) 0%nat
           (lit "# Guide" ++ [newline; newline] ++ lit "## Install" ++ [newline]
            ++ lit "### Linux" ++ [newline])
           (lit "g.md") ∅).
  vm_compute.
  repeat (constructor; [first [left; reflexivity | right; reflexivity]|]).
  constructor.
Defined.

(* ===================================================================== *)
(** * Section names and pages of the chunks                               *)
(* ===================================================================== *)

Lemma distribute_preserves (P : DocumentChunk -> Prop) (config : ChunkingConfig)
    (chunks : list DocumentChunk) (imgs : list pystr) :
  (forall c i h, P c -> P (assign_images c i h)) ->
  Forall P chunks ->
  Forall P (_distribute_images_to_chunks config chunks imgs).
Proof.
  intros Hkeep H. unfold _distribute_images_to_chunks.
  destruct imgs as [|img imgs]; [exact H|].
  destruct chunks as [|c0 rest]; [exact H|].
  destruct (distribute_images_evenly config).
  - apply Forall_lookup_2. intros i c Hic. rewrite list_lookup_imap in Hic.
    destruct ((c0 :: rest) !! i) as [c'|] eqn:E; [|discriminate].
    injection Hic as <-. apply Hkeep. exact (Forall_lookup_1 _ _ _ _ H E).
  - inversion H as [|? ? H0 Hrest]; subst. constructor; [apply Hkeep|]; assumption.
Qed.

(** The chunks of a list of sections carry the name and the page of one of
    them. *)
Lemma sections_to_chunks_origin (py_int : pystr -> option Z) (config : ChunkingConfig)
    (fuel : nat) (sf : pystr) (Q : pystr -> Z -> Prop) (sections : list SectionData) :
  Forall (fun sd => Q (sec_section sd) (sec_page sd)) sections ->
  forall chunks out,
    Forall (fun c => source_file c = sf /\ Q (section c) (page_number c)) chunks ->
    sections_to_chunks py_int config fuel sf sections chunks = Done out ->
    Forall (fun c => source_file c = sf /\ Q (section c) (page_number c)) out.
Proof.
  induction 1 as [|sd rest Hsd _ IH]; intros chunks out Hchunks.
  - cbn. intros [= <-]. exact Hchunks.
  - cbn [sections_to_chunks].
    destruct (section_chunks _ _ _ _ _) as [sub| |] eqn:Hsub; cbn; try discriminate.
    apply IH. apply Forall_app. split; [exact Hchunks|].
    unfold section_chunks in Hsub. destruct (Z.ltb _ _).
    + apply segmenter_emits, emitted_made in Hsub.
      eapply Forall_impl; [exact Hsub|]. cbn. intros c (t & i & -> & _).
      split; [reflexivity | exact Hsd].
    + destruct (is_nonempty _); injection Hsub as <-; [|constructor].
      constructor; [|constructor]. split; [reflexivity | exact Hsd].
Qed.

Section Origins.

Variable re_match : pystr -> pystr -> bool.
Variable config : ChunkingConfig.

Lemma pdf_loop_origin (extracted_images : list pystr) (elements : list PdfElement) :
  forall (l : list PdfElement) (st : pdf_state),
    (forall e, In e l -> In e elements) ->
    Forall (fun sd => pdf_origin re_match config elements (sec_section sd) (sec_page sd))
      (fst (fst st)) ->
    pdf_origin re_match config elements
      (sec_section (snd (fst st))) (sec_page (snd (fst st))) ->
    let st' := fold_left (pdf_step re_match config extracted_images) l st in
    Forall (fun sd => pdf_origin re_match config elements (sec_section sd) (sec_page sd))
      (fst (fst st'))
    /\ pdf_origin re_match config elements
         (sec_section (snd (fst st'))) (sec_page (snd (fst st'))).
Proof.
  induction l as [|e l IH]; intros [[sections sd] k] Hin Hsecs Hsd; cbn [fst snd] in *.
  - cbn. split; assumption.
  - cbn [fold_left]. apply IH; [intros e' He'; apply Hin; right; exact He' | |].
    + unfold pdf_step.
      destruct (str_eqb (category e) (lit "Image")).
      * destruct (extracted_images !! k); exact Hsecs.
      * destruct (andb _ (is_nonempty (stripped_text e))); cbn [fst snd].
        { unfold save_text_section. destruct (is_nonempty (sec_texts sd)); [|exact Hsecs].
          apply Forall_app. split; [exact Hsecs | constructor; [exact Hsd | constructor]]. }
        { destruct (is_nonempty (stripped_text e)); exact Hsecs. }
    + unfold pdf_step. fold (pdf_opens_section re_match config e).
      destruct (str_eqb (category e) (lit "Image")) eqn:Hcat.
      * destruct (extracted_images !! k); cbn [fst snd]; [|exact Hsd].
        destruct (add_images_spec sd [p]) as (-> & _ & _ & ->). exact Hsd.
      * destruct (andb _ (is_nonempty (stripped_text e))) eqn:Hopen; cbn [fst snd].
        { right. right. apply Exists_exists. exists e.
          split; [apply list_elem_of_In, Hin; left; reflexivity|].
          split; [|split; reflexivity].
          unfold pdf_opens_section. rewrite Hcat. exact Hopen. }
        { destruct (is_nonempty (stripped_text e)); exact Hsd. }
Qed.

Lemma group_step_cases (sections : list SectionData) (sd : SectionData) (e : Element) :
  group_step re_match config (sections, sd) e
  = if opens_section re_match config e
    then (save_section sections sd, new_section (elem_text e))
    else (sections,
          add_images (if is_nonempty (elem_text e) then add_text sd (elem_text e) else sd)
            (elem_images e)).
Proof. reflexivity. Qed.

Lemma docx_loop_origin (elements : list Element) :
  forall (l : list Element) (st : list SectionData * SectionData),
    (forall e, In e l -> In e elements) ->
    Forall (fun sd => docx_origin re_match config elements (sec_section sd)
                      /\ sec_page sd = 0) (fst st) ->
    docx_origin re_match config elements (sec_section (snd st))
    /\ sec_page (snd st) = 0 ->
    let st' := fold_left (group_step re_match config) l st in
    Forall (fun sd => docx_origin re_match config elements (sec_section sd)
                      /\ sec_page sd = 0) (fst st')
    /\ docx_origin re_match config elements (sec_section (snd st'))
    /\ sec_page (snd st') = 0.
Proof.
  induction l as [|e l IH]; intros [sections sd] Hin Hsecs Hsd; cbn [fst snd] in *.
  - cbn. split; assumption.
  - cbn [fold_left]. rewrite group_step_cases.
    destruct (opens_section re_match config e) eqn:Hopen.
    + apply IH; [intros e' He'; apply Hin; right; exact He' | |]; cbn [fst snd].
      * unfold save_section. destruct (orb _ _); [|exact Hsecs].
        apply Forall_app. split; [exact Hsecs | constructor; [exact Hsd | constructor]].
      * split; [|reflexivity]. right. right. apply Exists_exists. exists e.
        split; [apply list_elem_of_In, Hin; left; reflexivity|]. split; [exact Hopen | reflexivity].
    + apply IH; [intros e' He'; apply Hin; right; exact He' | exact Hsecs |]; cbn [fst snd].
      destruct (add_images_spec
                  (if is_nonempty (elem_text e) then add_text sd (elem_text e) else sd)
                  (elem_images e)) as (-> & _ & _ & ->).
      destruct (is_nonempty (elem_text e)); exact Hsd.
Qed.

End Origins.

(** X16: the section name and the page of a chunk.  A chunk of a docx document
    is on page 0 and is named after the first default section, the
    fallback section or the text of an element that opens a section.  A
    chunk of a pdf document carries the stripped text of the block that
    opened its section together with the page of that block (0 when the
    block has none): the pages of the text blocks themselves are never
    used, so every chunk of a section reports the page of its title. *)
Theorem chunks_cite_the_block_that_opened_their_section :
  (forall py_int re_match config fuel elements sf chunks,
      _docx_elements_to_chunks py_int re_match config fuel elements sf = Done chunks ->
      Forall (fun c => source_file c = sf /\ page_number c = 0
                       /\ docx_origin re_match config elements (section c)) chunks)
  /\ (forall py_int re_match config fuel elements sf extracted chunks,
        _elements_to_chunks_optimized py_int re_match config fuel elements sf extracted
          = Done chunks ->
        Forall (fun c => source_file c = sf
                         /\ pdf_origin re_match config elements
                              (section c) (page_number c)) chunks).
Proof.
  split.
  - intros * H. unfold _docx_elements_to_chunks in H.
    assert (Hsecs : Forall (fun sd => docx_origin re_match config elements (sec_section sd)
                                      /\ sec_page sd = 0)
                      (group_sections re_match config elements)).
    { unfold group_sections.
      pose proof (docx_loop_origin re_match config elements elements
                    ([], new_section section_start) (fun e He => He)
                    (Forall_nil_2 _) (conj (or_introl eq_refl) eq_refl)) as Hloop.
      cbv zeta in Hloop. destruct (fold_left _ _ _) as [sections sd].
      cbn [fst snd] in Hloop. destruct Hloop as [Hs Hd].
      assert (Hsaved : Forall (fun sd0 => docx_origin re_match config elements (sec_section sd0)
                                          /\ sec_page sd0 = 0) (save_section sections sd)).
      { unfold save_section. destruct (orb _ _); [|exact Hs].
        apply Forall_app. split; [exact Hs | constructor; [exact Hd | constructor]]. }
      destruct (save_section sections sd); [|exact Hsaved].
      constructor; [|constructor]. split; [right; left; reflexivity | reflexivity]. }
    pose proof (sections_to_chunks_origin py_int config fuel sf
                  (fun sec page => docx_origin re_match config elements sec /\ page = 0)
                  _ Hsecs [] chunks (Forall_nil_2 _) H) as Hout.
    eapply Forall_impl; [exact Hout|]. cbn. intros c (H1 & H2 & H3). auto.
  - intros * H. unfold _elements_to_chunks_optimized in H.
    pose proof (pdf_loop_origin re_match config extracted elements elements
                  ([], new_section section_start, 0%nat) (fun e He => He)
                  (Forall_nil_2 _) (or_introl (conj eq_refl eq_refl))) as Hloop.
    cbv zeta in Hloop. destruct (fold_left _ _ _) as [[sections0 sd] k].
    cbn [fst snd] in Hloop. destruct Hloop as [Hs Hd].
    assert (Hsecs : Forall (fun sd0 => pdf_origin re_match config elements
                                         (sec_section sd0) (sec_page sd0))
                      match save_text_section sections0 sd with
                      | [] =>
                          [ {| sec_section := section_content;
                               sec_texts :=
                                 map stripped_text
                                   (List.filter
                                      (fun e => is_nonempty (default [] (block_text e))
                                                && negb (str_eqb (category e) (lit "Image")))
                                      elements);
                               sec_images := extracted;
                               sec_page := 0 |} ]
                      | sections' => sections'
                      end).
    { assert (Hsaved : Forall (fun sd0 => pdf_origin re_match config elements
                                            (sec_section sd0) (sec_page sd0))
                         (save_text_section sections0 sd)).
      { unfold save_text_section. destruct (is_nonempty (sec_texts sd)); [|exact Hs].
        apply Forall_app. split; [exact Hs | constructor; [exact Hd | constructor]]. }
      destruct (save_text_section sections0 sd); [|exact Hsaved].
      constructor; [|constructor]. right. left. split; reflexivity. }
    destruct (sections_to_chunks _ _ _ _ _ _) as [out| |] eqn:Hout; cbn in H;
      try discriminate.
    pose proof (sections_to_chunks_origin py_int config fuel sf
                  (pdf_origin re_match config elements)
                  _ Hsecs [] out (Forall_nil_2 _) Hout) as Horigin.
    destruct (andb _ _); injection H as <-; [|exact Horigin].
    apply distribute_preserves; [|exact Horigin]. intros c i h Hc. exact Hc.
Qed.

(** The text of the witness is on page 7; its chunk reports page 3, the
    page of the title. *)
Lemma chunks_cite_the_block_that_opened_their_section_witness :
  let title := {| category := lit "Title"; block_text := Some (lit "Intro");
                  block_page := Some 3 |} in
  let body := {| category := lit "NarrativeText"; block_text := Some (lit "Body.");
                 block_page := Some 7 |} in
  let config := example_config 100 0 true true in
  exists c,
    _elements_to_chunks_optimized int_ascii (fun _ _ => false) config 0
      [title; body] (lit "d.pdf") [] = Done [c]
    /\ text c = lit "Body."
    /\ page_number c = 3
    /\ Forall (fun c => source_file c = lit "d.pdf"
                        /\ pdf_origin (fun _ _ => false) config [title; body]
                             (section c) (page_number c)) [c].
Proof.
  eexists. split; [vm_compute; reflexivity|].
  split; [reflexivity|]. split; [reflexivity|].
  apply (proj2 chunks_cite_the_block_that_opened_their_section int_ascii (fun _ _ => false)
           (example_config 100 0 true true) 0%nat
           [ {| category := lit "Title"; block_text := Some (lit "Intro");
                block_page := Some 3 |};
             {| category := lit "NarrativeText"; block_text := Some (lit "Body.");
                block_page := Some 7 |} ]
           (lit "d.pdf") []).
  vm_compute. reflexivity.
Defined.

(* ===================================================================== *)
(** * An overlap as large as the window                                   *)
(* ===================================================================== *)

Section CrawlingWindows.

Variable config : ChunkingConfig.
Variables (t sf sec : pystr) (imgs : list pystr) (page : Z).
Hypothesis Hmax : 1 <= max_chunk_size config.
Hypothesis Hoverlap : max_chunk_size config <= chunk_overlap config.
Hypothesis Hink : Forall (fun c => isspace c = false) t.

Lemma window_has_text (start end_ : Z) :
  0 <= start < len t -> start < end_ ->
  exists x s, strip (slice t start end_) = x :: s.
Proof.
  intros Hstart Hend.
  destruct (strip (slice t start end_)) as [|x s] eqn:E; [|eauto].
  apply strip_nil in E. rewrite slice_nonneg in E by lia.
  destruct (drop (Z.to_nat start) t) as [|y rest] eqn:Hd.
  - apply (f_equal (@length char)) in Hd. rewrite length_drop in Hd.
    unfold len in Hstart. cbn in Hd. lia.
  - assert (Hy : isspace y = false).
    { rewrite Forall_forall in Hink. apply Hink.
      apply (subseteq_drop (Z.to_nat start) t). rewrite Hd. left. }
    destruct (Z.to_nat end_ - Z.to_nat start)%nat as [|k] eqn:Hk; [lia|].
    change (isspace y && blank (take k rest) = true) in E.
    rewrite Hy in E. discriminate.
Qed.

Lemma window_end_last (start : Z) :
  0 <= start < len t -> len t <= start + max_chunk_size config ->
  window_end config t start = len t.
Proof.
  intros Hstart Hlast. unfold window_end.
  rewrite Z.min_r by lia. rewrite Z.ltb_irrefl. reflexivity.
Qed.

(** One iteration: a chunk is added; the start moves by one character as
    long as the window does not reach the end of the text. *)
Lemma crawl_step (start : Z) (chunks : list DocumentChunk) :
  0 <= start < len t ->
  exists c,
    snd (char_step config t sf sec imgs page start chunks) = chunks ++ [c]
    /\ fst (char_step config t sf sec imgs page start chunks)
       = if start + max_chunk_size config <? len t then start + 1 else len t.
Proof.
  intros Hstart. rewrite char_step_start. unfold char_step. cbn [snd].
  pose proof (window_end_progress config t start Hmax (proj2 Hstart)) as Hlo.
  pose proof (window_end_bounds config t start ltac:(lia) Hstart) as [_ Hhi].
  destruct (window_has_text start (window_end config t start) Hstart Hlo) as (x & s & ->).
  eexists. split; [reflexivity|].
  destruct (Z.ltb_spec (start + max_chunk_size config) (len t)) as [Hnot | Hlast].
  - unfold next_start.
    destruct (Z.ltb_spec 0 (chunk_overlap config)); [|lia].
    destruct (Z.ltb_spec (window_end config t start) (len t)); [|lia].
    cbn [andb]. lia.
  - rewrite (window_end_last start Hstart Hlast). unfold next_start.
    rewrite Z.ltb_irrefl, andb_false_r. reflexivity.
Qed.

Lemma crawl_count (n : nat) :
  forall fuel start chunks out,
    0 <= start ->
    start + max_chunk_size config + Z.of_nat n = len t ->
    char_loop fuel config t sf sec imgs page start chunks = Done out ->
    length out = (length chunks + n + 1)%nat.
Proof.
  induction n as [|n IH]; intros fuel start chunks out Hstart Hn.
  - destruct fuel as [|fuel].
    + cbn [char_loop]. destruct (Z.ltb_spec start (len t)); [discriminate | lia].
    + rewrite char_loop_S. destruct (Z.ltb_spec start (len t)); [|lia]. cbv zeta.
      destruct (crawl_step start chunks ltac:(lia)) as (c & -> & ->).
      destruct (Z.ltb_spec (start + max_chunk_size config) (len t)); [lia|].
      rewrite char_loop_exit by lia. intros [= <-].
      rewrite length_app. cbn. lia.
  - destruct fuel as [|fuel].
    + cbn [char_loop]. destruct (Z.ltb_spec start (len t)); [discriminate | lia].
    + rewrite char_loop_S. destruct (Z.ltb_spec start (len t)); [|lia]. cbv zeta.
      destruct (crawl_step start chunks ltac:(lia)) as (c & -> & ->).
      destruct (Z.ltb_spec (start + max_chunk_size config) (len t)); [|lia].
      intros Hrun. rewrite (IH fuel (start + 1) (chunks ++ [c]) out); [| lia | lia | exact Hrun].
      rewrite length_app. cbn. lia.
Qed.

End CrawlingWindows.

(** X17: nothing keeps [chunk_overlap] below [max_chunk_size].  When it is not
    ([1 <= max_chunk_size <= chunk_overlap]), the window of the character
    splitter moves one character at a time: a text of [n >= max_chunk_size]
    characters without white space gives [n - max_chunk_size + 1] chunks,
    one for every start position, instead of about [n / max_chunk_size]. *)
Theorem overlap_not_below_window_gives_a_chunk_per_character
    (config : ChunkingConfig) (fuel : nat) (t sf sec : pystr)
    (imgs : list pystr) (page : Z) (chunks : list DocumentChunk) :
  1 <= max_chunk_size config ->
  max_chunk_size config <= chunk_overlap config ->
  Forall (fun c => isspace c = false) t ->
  max_chunk_size config <= len t ->
  _split_by_characters fuel config t sf sec imgs page = Done chunks ->
  len chunks = len t - max_chunk_size config + 1.
Proof.
  intros Hmax Hoverlap Hink Hlen Hrun. unfold _split_by_characters in Hrun.
  pose proof (crawl_count config t sf sec imgs page Hmax Hoverlap Hink
                (Z.to_nat (len t - max_chunk_size config)) fuel 0 [] chunks
                ltac:(lia) ltac:(lia) Hrun) as Hcount.
  unfold len in *. cbn [length] in Hcount. lia.
Qed.

Lemma overlap_not_below_window_gives_a_chunk_per_character_witness :
  let config := example_config 3 3 false true in
  exists chunks,
    _split_by_characters 10 config (lit "abcdefgh") (lit "a.md") (lit "S") [] 0
      = Done chunks
    /\ map text chunks
       = [lit "abc"; lit "bcd"; lit "cde"; lit "def"; lit "efg"; lit "fgh"]
    /\ len chunks = len (lit "abcdefgh") - max_chunk_size config + 1.
Proof.
  eexists. split; [vm_compute; reflexivity|]. split; [vm_compute; reflexivity|].
  apply (overlap_not_below_window_gives_a_chunk_per_character
           (example_config 3 3 false true) 10 (lit "abcdefgh") (lit "a.md") (lit "S") [] 0).
  - vm_compute. discriminate.
  - vm_compute. discriminate.
  - vm_compute. repeat constructor.
  - vm_compute. discriminate.
  - vm_compute. reflexivity.
Defined.

(* ===================================================================== *)
(** * Options that are stored but never read                              *)
(* ===================================================================== *)

Section Unused.

Variable py_int : pystr -> option Z.
Variable config : ChunkingConfig.
Variable min_size : Z.
Variable force : bool.

Local Abbreviation config' := (with_unused config min_size force).

Lemma char_loop_unused (fuel : nat) (t sf sec : pystr) (imgs : list pystr) (page : Z) :
  forall start chunks,
    char_loop fuel config' t sf sec imgs page start chunks
    = char_loop fuel config t sf sec imgs page start chunks.
Proof.
  induction fuel as [|fuel IH]; intros start chunks; [reflexivity|].
  rewrite !char_loop_S. destruct (start <? len t); [|reflexivity].
  cbv zeta. apply IH.
Qed.

Lemma para_step_unused (sf sec : pystr) (page : Z) (fuel : nat)
    (code_blocks imgs : list pystr) (st : seg_state) (para : pystr) :
  para_step py_int config' sf sec page fuel code_blocks imgs st para
  = para_step py_int config sf sec page fuel code_blocks imgs st para.
Proof.
  unfold para_step, _split_by_characters. destruct st as [[chunks buf] cl].
  destruct (actual_len py_int code_blocks para) as [a| |]; cbn [mbind outcome_bind];
    try reflexivity.
  rewrite char_loop_unused. reflexivity.
Qed.

Lemma para_loop_unused (sf sec : pystr) (page : Z) (fuel : nat)
    (code_blocks imgs paragraphs : list pystr) :
  forall st,
    para_loop py_int config' sf sec page fuel code_blocks imgs paragraphs st
    = para_loop py_int config sf sec page fuel code_blocks imgs paragraphs st.
Proof.
  induction paragraphs as [|para rest IH]; intros st; [reflexivity|].
  cbn [para_loop]. rewrite para_step_unused.
  destruct (para_step _ _ _ _ _ _ _ _ _ _); cbn [mbind outcome_bind];
    [apply IH | reflexivity | reflexivity].
Qed.

Lemma segmenter_unused (sf sec : pystr) (page : Z) (fuel : nat) (t : pystr)
    (imgs : list pystr) :
  _split_text_with_overlap py_int config' sf sec page fuel t imgs
  = _split_text_with_overlap py_int config sf sec page fuel t imgs.
Proof.
  unfold _split_text_with_overlap, _split_by_characters.
  destruct (protect_code_blocks t) as [protected_text code_blocks].
  rewrite para_loop_unused, char_loop_unused. reflexivity.
Qed.

Lemma sections_to_chunks_unused (fuel : nat) (sf : pystr) (sections : list SectionData) :
  forall chunks,
    sections_to_chunks py_int config' fuel sf sections chunks
    = sections_to_chunks py_int config fuel sf sections chunks.
Proof.
  induction sections as [|info rest IH]; intros chunks; [reflexivity|].
  cbn [sections_to_chunks].
  assert (Hsec : section_chunks py_int config' fuel sf info
                 = section_chunks py_int config fuel sf info).
  { unfold section_chunks. rewrite segmenter_unused. reflexivity. }
  rewrite Hsec. clear Hsec. destruct (section_chunks _ _ _ _ _); cbn [mbind outcome_bind];
    [apply IH | reflexivity | reflexivity].
Qed.

Lemma md_loop_unused (fuel : nat) (sf : pystr) (image_map : gmap pystr pystr)
    (code_blocks parts : list pystr) :
  forall st,
    md_loop py_int config' fuel sf image_map code_blocks parts st
    = md_loop py_int config fuel sf image_map code_blocks parts st.
Proof.
  induction parts as [|part rest IH]; intros st; [reflexivity|].
  cbn [md_loop].
  assert (Hstep : md_step py_int config' fuel sf image_map code_blocks st part
                  = md_step py_int config fuel sf image_map code_blocks st part).
  { unfold md_step, md_save. destruct st as [[[chunks sec] txt] imgs].
    rewrite segmenter_unused. reflexivity. }
  rewrite Hstep. clear Hstep. destruct (md_step _ _ _ _ _ _ _ _); cbn [mbind outcome_bind];
    [apply IH | reflexivity | reflexivity].
Qed.

End Unused.

(** X18: [min_chunk_size] and [force_max_size] are accepted by the API and
    stored in the configuration, but no chunking code reads them: the
    segmenter, the character splitter, the image distributor and the docx,
    pdf and Markdown pipelines return the same result whatever the values
    of these two options. *)
Theorem min_chunk_size_and_force_max_size_have_no_effect
    (py_int : pystr -> option Z) (re_match : pystr -> pystr -> bool)
    (config : ChunkingConfig) (min_size : Z) (force : bool) (fuel : nat) :
  let config' := with_unused config min_size force in
  (forall sf sec page t imgs,
      _split_text_with_overlap py_int config' sf sec page fuel t imgs
      = _split_text_with_overlap py_int config sf sec page fuel t imgs)
  /\ (forall t sf sec imgs page,
        _split_by_characters fuel config' t sf sec imgs page
        = _split_by_characters fuel config t sf sec imgs page)
  /\ (forall chunks imgs,
        _distribute_images_to_chunks config' chunks imgs
        = _distribute_images_to_chunks config chunks imgs)
  /\ (forall elements sf,
        _docx_elements_to_chunks py_int re_match config' fuel elements sf
        = _docx_elements_to_chunks py_int re_match config fuel elements sf)
  /\ (forall elements sf extracted,
        _elements_to_chunks_optimized py_int re_match config' fuel elements sf extracted
        = _elements_to_chunks_optimized py_int re_match config fuel elements sf extracted)
  /\ (forall content sf image_map,
        _split_markdown_optimized py_int config' fuel content sf image_map
        = _split_markdown_optimized py_int config fuel content sf image_map).
Proof.
  cbv zeta. split; [|split; [|split; [|split; [|split]]]].
  - intros. apply segmenter_unused.
  - intros. unfold _split_by_characters. apply char_loop_unused.
  - intros. reflexivity.
  - intros. unfold _docx_elements_to_chunks.
    change (group_sections re_match (with_unused config min_size force) elements)
      with (group_sections re_match config elements).
    apply sections_to_chunks_unused.
  - intros. unfold _elements_to_chunks_optimized.
    change (pdf_step re_match (with_unused config min_size force) extracted)
      with (pdf_step re_match config extracted).
    destruct (fold_left _ _ _) as [[sections0 section_data] image_index].
    rewrite sections_to_chunks_unused. reflexivity.
  - intros. unfold _split_markdown_optimized.
    destruct (protect_code_blocks content) as [protected_content code_blocks].
    rewrite md_loop_unused.
    destruct (md_loop _ _ _ _ _ _ _ _) as [[[[chunks sec] txt] imgs]| |];
      cbn [mbind outcome_bind]; try reflexivity.
    unfold md_save. rewrite segmenter_unused. reflexivity.
Qed.

(* ===================================================================== *)
(** * Splitting by title switched off                                     *)
(* ===================================================================== *)

Lemma fold_left_ext {S E : Type} (f g : S -> E -> S) (l : list E) :
  (forall st e, f st e = g st e) ->
  forall st, fold_left f l st = fold_left g l st.
Proof.
  intros Hfg. induction l as [|e l IH]; intros st; [reflexivity|].
  cbn [fold_left]. rewrite Hfg. apply IH.
Qed.

Section TitlesOff.

Variables re1 re2 : pystr -> pystr -> bool.
Variable config : ChunkingConfig.
Hypothesis Hoff : split_by_title config = false.

Lemma opens_section_off (re_match : pystr -> pystr -> bool) (e : Element) :
  opens_section re_match config e
  = str_eqb (elem_type e) (lit "heading") && is_nonempty (elem_text e).
Proof.
  unfold opens_section. rewrite Hoff, andb_false_r, orb_false_r. reflexivity.
Qed.

Lemma pdf_opens_section_off (re_match : pystr -> pystr -> bool) (e : PdfElement) :
  pdf_opens_section re_match config e
  = negb (str_eqb (category e) (lit "Image"))
    && (str_eqb (category e) (lit "Title") || str_eqb (category e) (lit "Header"))
    && is_nonempty (stripped_text e).
Proof.
  unfold pdf_opens_section. rewrite Hoff, andb_false_r, orb_false_r. reflexivity.
Qed.

Lemma group_step_off (st : list SectionData * SectionData) (e : Element) :
  group_step re1 config st e = group_step re2 config st e.
Proof.
  destruct st as [sections sd]. rewrite !group_step_cases, !opens_section_off.
  reflexivity.
Qed.

Lemma pdf_step_off (extracted : list pystr) (st : pdf_state) (e : PdfElement) :
  pdf_step re1 config extracted st e = pdf_step re2 config extracted st e.
Proof.
  destruct st as [[sections sd] k]. unfold pdf_step.
  rewrite Hoff, !andb_false_r. reflexivity.
Qed.

End TitlesOff.

(** X19: with [split_by_title] off, the title patterns are never consulted:
    the docx and the pdf pipelines return the same chunks whatever
    [re.match] would answer.  Sections are still opened, by the elements
    of type [heading] (docx) and the blocks of category [Title] or [Header]
    (pdf) whose text is not empty: the option switches off the custom
    patterns only, not the splitting at headings. *)
Theorem split_by_title_off_keeps_heading_splits
    (py_int : pystr -> option Z) (re1 re2 : pystr -> pystr -> bool)
    (config : ChunkingConfig) (fuel : nat) (sf : pystr) :
  split_by_title config = false ->
  (forall elements,
      _docx_elements_to_chunks py_int re1 config fuel elements sf
      = _docx_elements_to_chunks py_int re2 config fuel elements sf)
  /\ (forall elements extracted,
        _elements_to_chunks_optimized py_int re1 config fuel elements sf extracted
        = _elements_to_chunks_optimized py_int re2 config fuel elements sf extracted)
  /\ (forall e,
        opens_section re1 config e
        = str_eqb (elem_type e) (lit "heading") && is_nonempty (elem_text e))
  /\ (forall e,
        pdf_opens_section re1 config e
        = negb (str_eqb (category e) (lit "Image"))
          && (str_eqb (category e) (lit "Title") || str_eqb (category e) (lit "Header"))
          && is_nonempty (stripped_text e)).
Proof.
  intros Hoff. split; [|split; [|split]].
  - intros elements. unfold _docx_elements_to_chunks, group_sections.
    rewrite (fold_left_ext _ _ elements (group_step_off re1 re2 config Hoff)).
    reflexivity.
  - intros elements extracted. unfold _elements_to_chunks_optimized.
    rewrite (fold_left_ext _ _ elements (pdf_step_off re1 re2 config Hoff extracted)).
    reflexivity.
  - intros e. apply opens_section_off. exact Hoff.
  - intros e. apply pdf_opens_section_off. exact Hoff.
Qed.

Lemma split_by_title_off_keeps_heading_splits_witness :
  let config :=
    {| max_chunk_size := 100; min_chunk_size := 1; chunk_overlap := 0;
       split_by_title := false; split_by_paragraph := true; force_max_size := true;
       title_patterns := [lit "^1"]; distribute_images_evenly := true |} in
  let elements :=
    [ {| elem_type := lit "paragraph"; elem_text := lit "1. Scope"; elem_images := [] |};
      {| elem_type := lit "paragraph"; elem_text := lit "Body."; elem_images := [] |};
      {| elem_type := lit "heading"; elem_text := lit "Annex"; elem_images := [] |};
      {| elem_type := lit "paragraph"; elem_text := lit "More."; elem_images := [] |} ] in
  exists chunks,
    _docx_elements_to_chunks int_ascii (fun _ _ => true) config 0 elements (lit "d.docx")
      = Done chunks
    /\ map section chunks = [section_start; lit "Annex"]
    /\ _docx_elements_to_chunks int_ascii (fun _ _ => true) config 0 elements (lit "d.docx")
       = _docx_elements_to_chunks int_ascii (fun _ _ => false) config 0 elements (lit "d.docx").
Proof.
  eexists. split; [vm_compute; reflexivity|]. split; [vm_compute; reflexivity|].
  apply (proj1 (split_by_title_off_keeps_heading_splits int_ascii
                  (fun _ _ => true) (fun _ _ => false)
                  {| max_chunk_size := 100; min_chunk_size := 1; chunk_overlap := 0;
                     split_by_title := false; split_by_paragraph := true;
                     force_max_size := true; title_patterns := [lit "^1"];
                     distribute_images_evenly := true |}
                  0%nat (lit "d.docx") eq_refl)).
Defined.

(* ===================================================================== *)
(** * Protecting and restoring fenced code                                *)
(* ===================================================================== *)

Lemma startswith_app (p s : pystr) : startswith p (p ++ s) = true.
Proof.
  induction p as [|x p IH]; [reflexivity|]. cbn. unfold char_eqb.
  rewrite N.eqb_refl. exact IH.
Qed.

Lemma startswith_cons_neq (x y : char) (p s : pystr) :
  x <> y -> startswith (x :: p) (y :: s) = false.
Proof.
  intros H. cbn. unfold char_eqb. destruct (N.eqb_spec x y); [contradiction | reflexivity].
Qed.

Lemma startswith_cons_eq (x : char) (p s : pystr) :
  startswith (x :: p) (x :: s) = startswith p s.
Proof. cbn. unfold char_eqb. rewrite N.eqb_refl. reflexivity. Qed.

(** ** The digits of a placeholder *)

Lemma string_of_uint_digits (d : Decimal.uint) :
  Forall (fun c => c <> underscore) (lit (NilEmpty.string_of_uint d)).
Proof.
  induction d; cbn; constructor; try assumption; unfold underscore; discriminate.
Qed.

Lemma str_of_nat_digits (n : nat) :
  Forall (fun c => c <> underscore) (str_of_nat n) /\ str_of_nat n <> [].
Proof.
  unfold str_of_nat, NilZero.string_of_uint.
  destruct (Nat.to_uint n) eqn:E; split;
    try (apply string_of_uint_digits || (cbn; repeat constructor; unfold underscore; discriminate));
    cbn; discriminate.
Qed.

Lemma lit_inj (a b : string) : lit a = lit b -> a = b.
Proof.
  unfold lit. intros H.
  assert (Hl : list_ascii_of_string a = list_ascii_of_string b).
  { revert H. generalize (list_ascii_of_string a) (list_ascii_of_string b).
    induction l as [|x l IH]; intros [|y l']; cbn; try discriminate; [reflexivity|].
    intros [= Hxy Hrest]. f_equal; [|apply IH; exact Hrest].
    unfold ord in Hxy. rewrite <- (ascii_N_embedding x), <- (ascii_N_embedding y), Hxy.
    reflexivity. }
  rewrite <- (string_of_list_ascii_of_string a), <- (string_of_list_ascii_of_string b), Hl.
  reflexivity.
Qed.

Lemma str_of_nat_inj (i j : nat) : str_of_nat i = str_of_nat j -> i = j.
Proof.
  unfold str_of_nat. intros H. apply lit_inj in H.
  apply Unsigned.to_uint_inj.
  assert (Hsome : forall n, NilZero.uint_of_string (NilZero.string_of_uint (Nat.to_uint n))
                            = Some (Nat.to_uint n)).
  { intros n. apply NilZero.usu. intros Hnil.
    pose proof (Unsigned.of_to n) as Hof. rewrite Hnil in Hof. cbn in Hof. subst n.
    discriminate Hnil. }
  pose proof (Hsome i) as Hi. rewrite H, (Hsome j) in Hi. congruence.
Qed.

(** Two placeholders with different numbers: neither is a prefix of the
    other followed by anything. *)
Lemma digits_prefix (di dj s : pystr) :
  Forall (fun c => c <> underscore) di ->
  Forall (fun c => c <> underscore) dj ->
  startswith (di ++ [underscore; underscore]) (dj ++ [underscore; underscore] ++ s) = true ->
  di = dj.
Proof.
  intros Hi. revert dj. induction Hi as [|x di Hx _ IH]; intros dj Hj Hs.
  - destruct Hj as [|y dj Hy _]; [reflexivity|].
    change (startswith (underscore :: [underscore])
              (y :: dj ++ [underscore; underscore] ++ s) = true) in Hs.
    rewrite startswith_cons_neq in Hs by congruence. discriminate.
  - destruct Hj as [|y dj Hy Hj].
    + change (startswith (x :: di ++ [underscore; underscore])
                (underscore :: [underscore] ++ s) = true) in Hs.
      rewrite startswith_cons_neq in Hs by congruence. discriminate.
    + change (startswith (x :: di ++ [underscore; underscore])
                (y :: dj ++ [underscore; underscore] ++ s) = true) in Hs.
      destruct (N.eq_dec x y) as [->|Hxy].
      * rewrite startswith_cons_eq in Hs. f_equal. apply IH; assumption.
      * rewrite startswith_cons_neq in Hs by exact Hxy. discriminate.
Qed.

Lemma placeholder_not_prefix (i j : nat) (s : pystr) :
  i <> j -> startswith (code_placeholder i) (code_placeholder j ++ s) = false.
Proof.
  intros Hij. destruct (startswith _ _) eqn:E; [|reflexivity]. exfalso. apply Hij.
  apply str_of_nat_inj. unfold code_placeholder in E.
  rewrite <- !app_assoc in E.
  change (lit "__CODE_BLOCK_") with ([95; 95; 67; 79; 68; 69; 95; 66; 76; 79; 67; 75; 95]%N) in E.
  cbn [app] in E. rewrite !startswith_cons_eq in E.
  apply (digits_prefix _ _ s); [apply str_of_nat_digits | apply str_of_nat_digits | exact E].
Qed.

(** ** Scanning a protected text for a placeholder *)

Lemma placeholder_chars (i : nat) :
  code_placeholder i
  = [95; 95; 67; 79; 68; 69; 95; 66; 76; 79; 67; 75; 95]%N
    ++ str_of_nat i ++ [95; 95]%N.
Proof. reflexivity. Qed.

Lemma replace_go_miss (old new s : pystr) (c : char) :
  startswith old (c :: s) = false ->
  replace_go old new (c :: s) 0 = c :: replace_go old new s 0.
Proof. intros H. cbn [replace_go]. rewrite H. reflexivity. Qed.

Lemma replace_go_skip (old new x rest : pystr) :
  replace_go old new (x ++ rest) (length x) = replace_go old new rest 0.
Proof.
  induction x as [|c x IH]; [reflexivity|]. cbn [app length replace_go]. exact IH.
Qed.

(** Characters that are not underscores are copied. *)
Lemma replace_go_over_text (i : nat) (new pre rest : pystr) :
  Forall (fun c => c <> underscore) pre ->
  replace_go (code_placeholder i) new (pre ++ rest) 0
  = pre ++ replace_go (code_placeholder i) new rest 0.
Proof.
  induction 1 as [|c pre Hc _ IH]; [reflexivity|].
  cbn [app]. rewrite replace_go_miss; [rewrite IH; reflexivity|].
  rewrite placeholder_chars. apply startswith_cons_neq. unfold underscore in Hc. congruence.
Qed.

(** In a protected text, letters followed by an underscore and a
    character that is not an underscore do not occur at the head. *)
Lemma form_lookahead (lo : nat) (letters : pystr) (y : char) (x rest : pystr) :
  Forall (fun c => c <> underscore) letters ->
  y <> underscore ->
  protected_form lo rest ->
  startswith (letters ++ underscore :: y :: x) rest = false.
Proof.
  intros Hl Hy. revert rest. induction Hl as [|l letters Hl _ IH]; intros rest Hform.
  - cbn [app]. destruct Hform as [|c rest Hc _|j rest _ _].
    + reflexivity.
    + apply startswith_cons_neq. congruence.
    + rewrite placeholder_chars. cbn [app].
      change 95%N with underscore. rewrite startswith_cons_eq.
      apply startswith_cons_neq. exact Hy.
  - cbn [app]. destruct Hform as [|c rest Hc Hrest|j rest _ _].
    + reflexivity.
    + destruct (N.eq_dec l c) as [->|Hlc].
      * rewrite startswith_cons_eq. apply IH. exact Hrest.
      * apply startswith_cons_neq. exact Hlc.
    + rewrite placeholder_chars. cbn [app]. apply startswith_cons_neq.
      unfold underscore in Hl. exact Hl.
Qed.

Lemma placeholder_miss_char (i : nat) (c : char) (s : pystr) :
  c <> underscore -> startswith (code_placeholder i) (c :: s) = false.
Proof.
  intros Hc. rewrite placeholder_chars. apply startswith_cons_neq.
  unfold underscore in Hc. congruence.
Qed.

Lemma placeholder_miss_single (i : nat) (c : char) (s : pystr) :
  c <> underscore -> startswith (code_placeholder i) (underscore :: c :: s) = false.
Proof.
  intros Hc. rewrite placeholder_chars. cbn [app]. change 95%N with underscore.
  rewrite startswith_cons_eq. apply startswith_cons_neq. congruence.
Qed.

Lemma placeholder_miss_tail2 (lo i : nat) (rest : pystr) :
  protected_form lo rest ->
  startswith (code_placeholder i) (underscore :: underscore :: rest) = false.
Proof.
  intros Hform. rewrite placeholder_chars. cbn [app]. change 95%N with underscore.
  rewrite !startswith_cons_eq.
  apply (form_lookahead lo [67; 79; 68; 69]%N 66%N); [|discriminate | exact Hform].
  repeat constructor; discriminate.
Qed.

Lemma placeholder_miss_tail1 (lo i : nat) (rest : pystr) :
  protected_form lo rest ->
  startswith (code_placeholder i) (underscore :: rest) = false.
Proof.
  intros Hform. rewrite placeholder_chars. cbn [app]. change 95%N with underscore.
  rewrite startswith_cons_eq.
  apply (form_lookahead lo [] 67%N); [constructor | discriminate | exact Hform].
Qed.

(** A placeholder with another number is copied. *)
Lemma replace_go_over_placeholder (lo i j : nat) (new rest : pystr) :
  i <> j ->
  protected_form lo rest ->
  replace_go (code_placeholder i) new (code_placeholder j ++ rest) 0
  = code_placeholder j ++ replace_go (code_placeholder i) new rest 0.
Proof.
  intros Hij Hform.
  destruct (str_of_nat_digits j) as [Hdj Hnej].
  assert (Hhead : startswith (code_placeholder i) (code_placeholder j ++ rest) = false)
    by (apply placeholder_not_prefix; exact Hij).
  rewrite (placeholder_chars j) in *. rewrite <- !app_assoc in *. cbn [app] in *.
  change 95%N with underscore in *.
  rewrite replace_go_miss by exact Hhead.
  destruct (str_of_nat j) as [|d dj] eqn:Ej; [contradiction|].
  inversion Hdj as [|? ? Hd Hdj']; subst.
  cbn [app].
  do 12 (rewrite replace_go_miss;
         [|first [ apply placeholder_miss_char; discriminate
                 | apply placeholder_miss_single; first [discriminate | exact Hd] ]]).
  change (d :: dj ++ underscore :: underscore :: rest)
    with ((d :: dj) ++ underscore :: underscore :: rest).
  rewrite replace_go_over_text by (constructor; assumption).
  cbn [app].
  rewrite replace_go_miss by (apply (placeholder_miss_tail2 lo); exact Hform).
  rewrite replace_go_miss by (apply (placeholder_miss_tail1 lo); exact Hform).
  reflexivity.
Qed.

(** A protected text whose placeholders all have other numbers is left as
    it is. *)
Lemma replace_go_form (i : nat) (new rest : pystr) :
  protected_form (S i) rest ->
  replace_go (code_placeholder i) new rest 0 = rest.
Proof.
  induction 1 as [|c rest Hc _ IH|j rest Hj Hform IH].
  - reflexivity.
  - rewrite replace_go_miss by (apply placeholder_miss_char; exact Hc).
    rewrite IH. reflexivity.
  - rewrite (replace_go_over_placeholder (S i)) by (lia || exact Hform).
    rewrite IH. reflexivity.
Qed.

(** ** The round trip *)

Lemma protected_form_mono (lo lo' : nat) (rest : pystr) :
  (lo <= lo')%nat -> protected_form lo' rest -> protected_form lo rest.
Proof.
  intros Hle. induction 1 as [|c rest Hc _ IH|j rest Hj _ IH].
  - constructor.
  - constructor; assumption.
  - constructor; [lia | assumption].
Qed.

Lemma protect_go_form (s : pystr) :
  Forall (fun c => c <> underscore) s ->
  forall skip n, protected_form n (fst (protect_go s skip n)).
Proof.
  induction 1 as [|c s Hc Hs IH]; intros skip n; [constructor|].
  cbn [protect_go]. destruct skip as [|k]; [|apply IH].
  destruct (fence_match (c :: s)) as [m|].
  - specialize (IH (m - 1)%nat (S n)).
    destruct (protect_go s (m - 1) (S n)) as [out blocks]. cbn [fst] in *.
    constructor; [lia|]. apply (protected_form_mono n (S n)); [lia | exact IH].
  - specialize (IH 0%nat n). destruct (protect_go s 0 n) as [out blocks]. cbn [fst] in *.
    constructor; assumption.
Qed.

Lemma replace_placeholder (i : nat) (new s : pystr) :
  replace (code_placeholder i) new s = replace_go (code_placeholder i) new s 0.
Proof. reflexivity. Qed.

Lemma replace_go_cons_hit (old new s : pystr) (c : char) :
  startswith old (c :: s) = true ->
  replace_go old new (c :: s) 0 = new ++ replace_go old new s (length old - 1).
Proof. intros H. cbn [replace_go]. rewrite H. reflexivity. Qed.

Lemma replace_go_hit_any (old new rest : pystr) :
  old <> [] ->
  replace_go old new (old ++ rest) 0 = new ++ replace_go old new rest 0.
Proof.
  destruct old as [|x old']; [contradiction|]. intros _.
  change ((x :: old') ++ rest) with (x :: (old' ++ rest)).
  rewrite replace_go_cons_hit.
  - f_equal. change (length (x :: old') - 1)%nat with (length old' - 0)%nat.
    rewrite Nat.sub_0_r. apply replace_go_skip.
  - change (x :: old' ++ rest) with ((x :: old') ++ rest). apply startswith_app.
Qed.

Lemma replace_go_hit (i : nat) (new rest : pystr) :
  replace_go (code_placeholder i) new (code_placeholder i ++ rest) 0
  = new ++ replace_go (code_placeholder i) new rest 0.
Proof.
  apply replace_go_hit_any. rewrite placeholder_chars. discriminate.
Qed.

(** Restoring the blocks found in [s] brings the protected text back to
    [s], in front of any text without underscores. *)
Lemma restore_protect_go (s : pystr) :
  Forall (fun c => c <> underscore) s ->
  forall skip n pre,
    Forall (fun c => c <> underscore) pre ->
    restore_from n (snd (protect_go s skip n)) (pre ++ fst (protect_go s skip n))
    = pre ++ drop skip s.
Proof.
  induction 1 as [|c s Hc Hs IH]; intros skip n pre Hpre.
  - cbn. rewrite drop_nil. reflexivity.
  - cbn [protect_go]. destruct skip as [|k]; [|apply IH; exact Hpre].
    destruct (fence_match (c :: s)) as [m|] eqn:Hm.
    + pose proof (protect_go_form s Hs (m - 1) (S n)) as Hform.
      specialize (IH (m - 1)%nat (S n) (pre ++ take m (c :: s))).
      destruct (protect_go s (m - 1) (S n)) as [out blocks]. cbn [fst snd] in *.
      cbn [restore_from]. rewrite replace_placeholder.
      rewrite replace_go_over_text by exact Hpre.
      rewrite replace_go_hit, (replace_go_form n _ out Hform).
      rewrite app_assoc, IH.
      * rewrite <- app_assoc. f_equal.
        assert (Hm1 : (1 <= m)%nat).
        { unfold fence_match in Hm. destruct (startswith fence (c :: s)); [|discriminate].
          destruct (find fence (drop 3 (c :: s))); [|discriminate].
          injection Hm as <-. lia. }
        destruct m as [|m']; [lia|]. cbn [take]. cbn [Nat.sub]. rewrite Nat.sub_0_r.
        cbn [app drop]. f_equal. apply take_drop.
      * apply Forall_app. split; [exact Hpre|].
        apply Forall_take. constructor; assumption.
    + specialize (IH 0%nat n (pre ++ [c])).
      destruct (protect_go s 0 n) as [out blocks]. cbn [fst snd] in *.
      change (pre ++ c :: out) with (pre ++ [c] ++ out). rewrite app_assoc, IH.
      * rewrite <- app_assoc. reflexivity.
      * apply Forall_app. split; [exact Hpre | constructor; [exact Hc | constructor]].
Qed.

(** X20: protecting the fenced code blocks of a text and restoring them
    gives the text back, whenever the text contains no underscore.  The
    condition is not idle: placeholders are spelled with underscores and
    restored by plain textual replacement, so a text that itself contains
    pieces of a placeholder can be restored wrongly (a block lost, another
    one repeated). *)
Theorem protect_then_restore_is_identity (t : pystr) :
  Forall (fun c => c <> underscore) t ->
  restore_code_blocks (snd (protect_code_blocks t)) (fst (protect_code_blocks t)) = t.
Proof.
  intros Ht. unfold restore_code_blocks, protect_code_blocks.
  pose proof (restore_protect_go t Ht 0 0 [] (Forall_nil_2 _)) as H.
  cbn [app drop] in H. exact H.
Qed.

Lemma protect_then_restore_is_identity_witness :
  let t := lit "a ```x = 1``` b" ++ [newline] ++ lit "```" ++ [newline]
           ++ lit "# y" ++ [newline] ++ lit "``` c ``` open" in
  let u := lit "```x``` ```y```CODE_BLOCK_0__" in
  protect_code_blocks t
    = (lit "a __CODE_BLOCK_0__ b" ++ [newline] ++ lit "__CODE_BLOCK_1__ c ``` open",
       [lit "```x = 1```"; lit "```" ++ [newline] ++ lit "# y" ++ [newline] ++ lit "```"])
  /\ restore_code_blocks (snd (protect_code_blocks t)) (fst (protect_code_blocks t)) = t
  /\ restore_code_blocks (snd (protect_code_blocks u)) (fst (protect_code_blocks u))
     = lit "```x``` __CODE_BLOCK_1```x```".
Proof.
  split; [vm_compute; reflexivity|]. split; [|vm_compute; reflexivity].
  apply (protect_then_restore_is_identity
           (lit "a ```x = 1``` b" ++ [newline] ++ lit "```" ++ [newline]
            ++ lit "# y" ++ [newline] ++ lit "``` c ``` open")).
  vm_compute. repeat (constructor; [discriminate|]). constructor.
Defined.
